(** * RUBY meeting assistant: a shallow embedding of [RUBY-meeting.py]

    The script is a Streamlit chat front end over two LangChain chains.
    What is modelled here is the part of it that is ordinary code:

    - the query router [is_coimbatore_query];
    - the conversation history kept in [st.session_state.history], a
      Python list of message dictionaries, and its persistence in
      [chat_history.json] ([load_chat_history], [save_chat_history],
      [clear_chat_history]);
    - the submit callback [on_click_callback] and the "New Chat" button.

    Python strings are sequences of code points ([list N]).  Message
    dictionaries are mutable objects that the history list and the list
    built by [save_chat_history] both point to, so they live in a store
    of cells and the lists hold cell indices.  Exceptions are an explicit
    result type and every function threads the interpreter state.  The
    retriever and the language model are parameters; each call to them is
    recorded in the state so that statements can speak about what they
    were asked. *)

From Stdlib Require Import NArith ZArith Lia List String Ascii Bool.
From stdpp Require Import base tactics option list.
Import ListNotations.

Set Default Proof Using "Type".

(* ===================================================================== *)
(** * Python strings                                                      *)
(* ===================================================================== *)

(** A Python [str]: its code points, in order. *)
Definition str := list N.

(** The [str] written by an ASCII literal. *)
Definition lit (s : string) : str := map N_of_ascii (list_ascii_of_string s).

(** [sep.join(parts)] *)
Fixpoint join (sep : str) (parts : list str) : str :=
  match parts with
  | [] => []
  | [p] => p
  | p :: rest => p ++ sep ++ join sep rest
  end.

(** [s.startswith(p)], the test [p in s] is built from. *)
Fixpoint prefix_of (p s : str) : bool :=
  match p, s with
  | [], _ => true
  | _ :: _, [] => false
  | a :: p', b :: s' => (a =? b)%N && prefix_of p' s'
  end.

(** [p in s] for two strings: [p] occurs in [s] as a contiguous run. *)
Fixpoint contains (p s : str) : bool :=
  prefix_of p s ||
  match s with
  | [] => false
  | _ :: s' => contains p s'
  end.

Definition is_ascii_upper (c : N) : bool := (65 <=? c)%N && (c <=? 90)%N.

(** Lower-casing of one ASCII letter; every other code point is kept. *)
Definition ascii_fold (c : N) : N := if is_ascii_upper c then (c + 32)%N else c.

Section Lower.

(** [str.lower()] follows the Unicode tables.  On ASCII it shifts
    [A-Z]; U+0130 becomes [i] followed by U+0307, the Kelvin sign U+212A
    becomes [k].  What it does to any other code point is a parameter
    here: it may depend on the neighbours (capital sigma does), so the
    parameter sees the text before and after. *)
Variable lower_other : str -> str -> N -> str.

Definition lower_cp (before after : str) (c : N) : str :=
  if is_ascii_upper c then [(c + 32)%N]
  else if (c <? 128)%N then [c]
  else if (c =? 304)%N then [105%N; 775%N]
  else if (c =? 8490)%N then [107%N]
  else lower_other before after c.

Fixpoint lower_from (before s : str) : str :=
  match s with
  | [] => []
  | c :: rest => lower_cp before rest c ++ lower_from (before ++ [c]) rest
  end.

(** [s.lower()] *)
Definition lower (s : str) : str := lower_from [] s.

Definition keyword : str := Eval cbv in lit "meeting".

(** [def is_coimbatore_query(query): return "meeting" in query.lower()] *)
Definition is_coimbatore_query (query : str) : bool :=
  contains keyword (lower query).

(** The two destinations of a query; [on_click_callback] branches on
    [is_coimbatore_query]. *)
Inductive route := Grounded | General.

Definition classify (q : str) : route :=
  if is_coimbatore_query q then Grounded else General.

End Lower.

(** The instance used to run examples: code points outside the cases
    above are kept as they are. *)
Definition lower_keep : str -> str -> N -> str := fun _ _ c => [c].

(** What the specification calls a case-insensitive occurrence: a
    contiguous run of the query whose letters are those of the keyword,
    each in either case. *)
Definition same_letter (a b : N) : Prop := ascii_fold a = ascii_fold b.

Definition occurs_ignoring_case (kw q : str) : Prop :=
  exists pre s suf, q = pre ++ s ++ suf /\ Forall2 same_letter s kw.

(* ===================================================================== *)
(** * Python values                                                       *)
(* ===================================================================== *)

(** The values a message field can hold: what [json.load] builds, plus an
    object of some other class (a LangChain [Document], say), of which
    only the class name and the text [str()] gives for it are kept.
    A float is kept as the text [json.dump] prints for it.  A dictionary
    is the list of its entries in insertion order; its keys are strings,
    as they are in everything the script builds or loads. *)
#[warnings="-register-all"]
Inductive value :=
| VNone
| VBool (b : bool)
| VInt (z : Z)
| VFloat (shown : str)
| VStr (s : str)
| VList (items : list value)
| VDict (entries : list (str * value))
| VObject (cls : str) (shown : str).

(** [isinstance(v, dict)] *)
Definition is_dict (v : value) : bool :=
  match v with VDict _ => true | _ => false end.

(** [a == b] on strings. *)
Fixpoint str_eqb (a b : str) : bool :=
  match a, b with
  | [], [] => true
  | x :: a', y :: b' => (x =? y)%N && str_eqb a' b'
  | _, _ => false
  end.

(** [d[k]], or nothing on a missing key. *)
Fixpoint dict_get (k : str) (d : list (str * value)) : option value :=
  match d with
  | [] => None
  | (k', v) :: rest => if str_eqb k k' then Some v else dict_get k rest
  end.

(** [d[k] = v]: an existing key keeps its place, a new one goes last. *)
Fixpoint dict_set (k : str) (v : value) (d : list (str * value))
  : list (str * value) :=
  match d with
  | [] => [(k, v)]
  | (k', v') :: rest =>
      if str_eqb k k' then (k, v) :: rest else (k', v') :: dict_set k v rest
  end.

(** [dict(pairs)]: later pairs win. *)
Definition dict_of_pairs (pairs : list (str * value)) : list (str * value) :=
  fold_left (fun d kv => dict_set (fst kv) (snd kv) d) pairs [].

(** The exceptions that can leave the modelled functions, each for its
    class alone: [ValueError] is what [int] raises for too many digits,
    not its subclass [JSONDecodeError]. *)
Inductive exn :=
| JSONDecodeError
| RecursionError
| ValueError
| TypeError
| KeyError
| AttributeError
| ExternalError (what : str).

Inductive result (A : Type) :=
| Ok (a : A)
| Raise (e : exn).
Arguments Ok {A} a.
Arguments Raise {A} e.

(* ===================================================================== *)
(** * [json.dump]                                                         *)
(* ===================================================================== *)

(** [json.dump(obj, f)] with its default arguments, as CPython's
    [json.encoder] does it: non-ASCII text is escaped, items are
    separated by a comma and a space, keys from values by a colon and a
    space. *)

(** Lower-case hexadecimal digit, as ['{0:04x}'.format] prints it. *)
Definition hex_digit (k : N) : N :=
  if (k <? 10)%N then (48 + k)%N else (87 + k)%N.

Definition hex4 (n : N) : str :=
  [ hex_digit (n / 4096 mod 16); hex_digit (n / 256 mod 16);
    hex_digit (n / 16 mod 16); hex_digit (n mod 16) ]%N.

(** [\uXXXX] *)
Definition u_escape (n : N) : str := 92%N :: 117%N :: hex4 n.

(** The two halves of the surrogate pair for a code point above U+FFFF:
    with [n = c - 0x10000], [0xd800 | ((n >> 10) & 0x3ff)] and
    [0xdc00 | (n & 0x3ff)]. *)
Definition high_half (c : N) : N :=
  N.lor 55296 (N.land (N.shiftr (c - 65536) 10) 1023).
Definition low_half (c : N) : N :=
  N.lor 56320 (N.land (c - 65536) 1023).

(** [json.encoder.py_encode_basestring_ascii], one code point: the
    quote, the backslash and everything outside [' '..'~'] are escaped,
    code points above U+FFFF as a surrogate pair. *)
Definition escape_cp (c : N) : str :=
  if (c =? 34)%N then [92; 34]%N
  else if (c =? 92)%N then [92; 92]%N
  else if (c =? 10)%N then [92; 110]%N
  else if (c =? 13)%N then [92; 114]%N
  else if (c =? 9)%N then [92; 116]%N
  else if (c =? 8)%N then [92; 98]%N
  else if (c =? 12)%N then [92; 102]%N
  else if (32 <=? c)%N && (c <=? 126)%N then [c]
  else if (c <? 65536)%N then u_escape c
  else u_escape (high_half c) ++ u_escape (low_half c).

Definition escape (s : str) : str := flat_map escape_cp s.

Definition encode_str (s : str) : str := 34%N :: escape s ++ [34%N].

Fixpoint digits_of_uint (d : Decimal.uint) : str :=
  match d with
  | Decimal.Nil => []
  | Decimal.D0 r => 48%N :: digits_of_uint r
  | Decimal.D1 r => 49%N :: digits_of_uint r
  | Decimal.D2 r => 50%N :: digits_of_uint r
  | Decimal.D3 r => 51%N :: digits_of_uint r
  | Decimal.D4 r => 52%N :: digits_of_uint r
  | Decimal.D5 r => 53%N :: digits_of_uint r
  | Decimal.D6 r => 54%N :: digits_of_uint r
  | Decimal.D7 r => 55%N :: digits_of_uint r
  | Decimal.D8 r => 56%N :: digits_of_uint r
  | Decimal.D9 r => 57%N :: digits_of_uint r
  end.

(** [int.__repr__] *)
Definition repr_int (z : Z) : str :=
  match z with
  | Z0 => [48%N]
  | Zpos p => digits_of_uint (Pos.to_uint p)
  | Zneg p => 45%N :: digits_of_uint (Pos.to_uint p)
  end.

Definition comma_space : str := Eval cbv in lit ", ".
Definition colon_space : str := Eval cbv in lit ": ".

(** The encoder is a generator of text chunks that [json.dump] writes one
    by one: when it meets an object it cannot encode it raises
    [TypeError] and the chunks before it have been written.  So the
    result is the text produced and whether the encoder finished. *)
Fixpoint encode (v : value) : str * bool :=
  match v with
  | VNone => (lit "null", true)
  | VBool true => (lit "true", true)
  | VBool false => (lit "false", true)
  | VInt z => (repr_int z, true)
  | VFloat shown => (shown, true)
  | VStr s => (encode_str s, true)
  | VList items =>
      let fix go (first : bool) (l : list value) : str * bool :=
        match l with
        | [] => ([93%N], true)
        | x :: rest =>
            let sep := if first then [] else comma_space in
            let (t, ok) := encode x in
            if ok then
              let (t', ok') := go false rest in (sep ++ t ++ t', ok')
            else (sep ++ t, false)
        end in
      let (t, ok) := go true items in (91%N :: t, ok)
  | VDict entries =>
      let fix go (first : bool) (l : list (str * value)) : str * bool :=
        match l with
        | [] => ([125%N], true)
        | (k, x) :: rest =>
            let sep := if first then [] else comma_space in
            let (t, ok) := encode x in
            if ok then
              let (t', ok') := go false rest in
              (sep ++ encode_str k ++ colon_space ++ t ++ t', ok')
            else (sep ++ encode_str k ++ colon_space ++ t, false)
        end in
      let (t, ok) := go true entries in (123%N :: t, ok)
  | VObject _ _ => ([], false)
  end.

(** The two loops of the encoder under names of their own. *)
Fixpoint encode_items (first : bool) (l : list value) : str * bool :=
  match l with
  | [] => ([93%N], true)
  | x :: rest =>
      let sep := if first then [] else comma_space in
      let (t, ok) := encode x in
      if ok then
        let (t', ok') := encode_items false rest in (sep ++ t ++ t', ok')
      else (sep ++ t, false)
  end.

Fixpoint encode_entries (first : bool) (l : list (str * value)) : str * bool :=
  match l with
  | [] => ([125%N], true)
  | (k, x) :: rest =>
      let sep := if first then [] else comma_space in
      let (t, ok) := encode x in
      if ok then
        let (t', ok') := encode_entries false rest in
        (sep ++ encode_str k ++ colon_space ++ t ++ t', ok')
      else (sep ++ encode_str k ++ colon_space ++ t, false)
  end.

(* ===================================================================== *)
(** * [json.load]                                                         *)
(* ===================================================================== *)

(** [json.load(f)] with its default arguments, as CPython's decoder does
    it on the text of the file.  Two limits of the interpreter are not
    modelled: the recursion limit, which a document nested a thousand
    levels deep runs into, and the limit on the number of digits of an
    integer literal. *)

Definition is_ws (c : N) : bool :=
  (c =? 32)%N || (c =? 9)%N || (c =? 10)%N || (c =? 13)%N.

Fixpoint skip_ws (s : str) : str :=
  match s with
  | c :: rest => if is_ws c then skip_ws rest else s
  | [] => []
  end.

Definition hex_val (c : N) : option N :=
  if (48 <=? c)%N && (c <=? 57)%N then Some (c - 48)%N
  else if (97 <=? c)%N && (c <=? 102)%N then Some (c - 87)%N
  else if (65 <=? c)%N && (c <=? 70)%N then Some (c - 55)%N
  else None.

Definition hex4_val (a b c d : N) : option N :=
  match hex_val a, hex_val b, hex_val c, hex_val d with
  | Some x, Some y, Some z, Some w => Some (((x * 16 + y) * 16 + z) * 16 + w)%N
  | _, _, _, _ => None
  end.

Definition is_high_surrogate (c : N) : bool := (55296 <=? c)%N && (c <=? 56319)%N.
Definition is_low_surrogate (c : N) : bool := (56320 <=? c)%N && (c <=? 57343)%N.

Definition join_surrogates (hi lo : N) : N :=
  (65536 + N.lor (N.shiftl (hi - 55296) 10) (lo - 56320))%N.

(** The one-letter escapes of a JSON string. *)
Definition unescape (e : N) : option N :=
  if (e =? 34)%N then Some 34%N
  else if (e =? 92)%N then Some 92%N
  else if (e =? 47)%N then Some 47%N
  else if (e =? 98)%N then Some 8%N
  else if (e =? 102)%N then Some 12%N
  else if (e =? 110)%N then Some 10%N
  else if (e =? 114)%N then Some 13%N
  else if (e =? 116)%N then Some 9%N
  else None.

(** Put a decoded code point in front of what the rest decodes to. *)
Definition push (c : N) (o : option (str * str)) : option (str * str) :=
  match o with
  | Some (t, r) => Some (c :: t, r)
  | None => None
  end.

(** [json.decoder.scanstring] in strict mode, from just after the opening
    quote: the decoded string and the text after the closing quote, or
    nothing where it raises.  A [\uXXXX] escape that is a high surrogate
    and is followed by one that is a low surrogate gives one code point. *)
Fixpoint scanstring (s : str) : option (str * str) :=
  match s with
  | [] => None
  | c :: rest =>
      if (c =? 34)%N then Some ([], rest)
      else if (c =? 92)%N then
        match rest with
        | [] => None
        | e :: rest0 =>
            if (e =? 117)%N then
              match rest0 with
              | h1 :: h2 :: h3 :: h4 :: rest1 =>
                  match hex4_val h1 h2 h3 h4 with
                  | None => None
                  | Some u =>
                      if is_high_surrogate u then
                        match rest1 with
                        | b :: l :: k1 :: k2 :: k3 :: k4 :: rest2 =>
                            if (b =? 92)%N && (l =? 117)%N then
                              match hex4_val k1 k2 k3 k4 with
                              | None => None
                              | Some u2 =>
                                  if is_low_surrogate u2
                                  then push (join_surrogates u u2) (scanstring rest2)
                                  else push u (scanstring rest1)
                              end
                            else push u (scanstring rest1)
                        | _ => push u (scanstring rest1)
                        end
                      else push u (scanstring rest1)
                  end
              | _ => None
              end
            else
              match unescape e with
              | None => None
              | Some x => push x (scanstring rest0)
              end
        end
      else if (c <? 32)%N then None
      else push c (scanstring rest)
  end.

Definition is_digit (c : N) : bool := (48 <=? c)%N && (c <=? 57)%N.

(** The longest run of digits at the front, and what follows it. *)
Fixpoint span_digits (s : str) : str * str :=
  match s with
  | c :: rest =>
      if is_digit c then let (ds, r) := span_digits rest in (c :: ds, r)
      else ([], s)
  | [] => ([], [])
  end.

Definition int_of_digits (ds : str) : Z :=
  fold_left (fun acc d => (acc * 10 + Z.of_N (d - 48))%Z) ds 0%Z.

(** An optional minus sign, then [0] alone or a digit run that does not
    start with [0]: sign, digits of the integer part, rest. *)
Definition scan_int_part (s : str) : option (bool * str * str) :=
  let (neg, s1) :=
    match s with
    | c :: r => if (c =? 45)%N then (true, r) else (false, s)
    | [] => (false, s)
    end in
  match s1 with
  | d :: r =>
      if (d =? 48)%N then Some (neg, [d], r)
      else if is_digit d then
        let (ds, r') := span_digits r in Some (neg, d :: ds, r')
      else None
  | [] => None
  end.

(** An optional fraction, a dot and at least one digit: the part matched
    (empty when there is none) and the rest. *)
Definition scan_frac (s : str) : str * str :=
  match s with
  | c :: r =>
      if (c =? 46)%N then
        match span_digits r with
        | ([], _) => ([], s)
        | (ds, r') => (c :: ds, r')
        end
      else ([], s)
  | [] => ([], s)
  end.

(** An optional exponent: [e] or [E], an optional sign, at least one
    digit. *)
Definition scan_exp (s : str) : str * str :=
  match s with
  | c :: r =>
      if (c =? 101)%N || (c =? 69)%N then
        let (sign, r1) :=
          match r with
          | g :: r0 => if (g =? 45)%N || (g =? 43)%N then ([g], r0) else ([], r)
          | [] => ([], r)
          end in
        match span_digits r1 with
        | ([], _) => ([], s)
        | (ds, r') => (c :: sign ++ ds, r')
        end
      else ([], s)
  | [] => ([], s)
  end.

(** What the decoder stops with, besides a value and the remaining text. *)
Inductive scanned (A : Type) :=
| Done (a : A) (rest : str)
| Malformed
| Refused (e : exn)
| Exhausted.
Arguments Done {A} a rest.
Arguments Malformed {A}.
Arguments Refused {A} e.
Arguments Exhausted {A}.

Section Decoder.

(** The text [json.dump] prints for the float a number literal denotes
    ([float.__repr__] of the nearest double). *)
Variable float_shown : str -> str.

(** [sys.get_int_max_str_digits()]: the longest digit run [int] converts,
    4300 unless the interpreter was started otherwise, 0 for no limit. *)
Variable max_str_digits : nat.

(** The check of [PyLong_FromString], which the decoder calls for a
    literal without fraction and exponent: runs of at most 640 digits
    are never refused. *)
Definition too_many_digits (ds : str) : bool :=
  (640 <? length ds)%nat && (0 <? max_str_digits)%nat
  && (max_str_digits <? length ds)%nat.

Definition scan_number (s : str) : scanned value :=
  match scan_int_part s with
  | None => Malformed
  | Some (neg, ds, r) =>
      let (frac, r1) := scan_frac r in
      let (ex, r2) := scan_exp r1 in
      match frac, ex with
      | [], [] =>
          if too_many_digits ds then Refused ValueError
          else
            let n := int_of_digits ds in
            Done (VInt (if neg then (- n)%Z else n)) r2
      | _, _ =>
          Done (VFloat (float_shown
                  ((if neg then [45%N] else []) ++ ds ++ frac ++ ex))) r2
      end
  end.

(** A constant such as [null]: its spelling at the front of the text. *)
Definition scan_word (w : str) (v : value) (s : str) : option (scanned value) :=
  if prefix_of w s then Some (Done v (drop (length w) s)) else None.

Definition scan_constant (s : str) : scanned value :=
  match scan_word (lit "null") VNone s with Some r => r | None =>
  match scan_word (lit "true") (VBool true) s with Some r => r | None =>
  match scan_word (lit "false") (VBool false) s with Some r => r | None =>
  match scan_word (lit "NaN") (VFloat (lit "NaN")) s with Some r => r | None =>
  match scan_word (lit "Infinity") (VFloat (lit "Infinity")) s with Some r => r | None =>
  match scan_word (lit "-Infinity") (VFloat (lit "-Infinity")) s with Some r => r | None =>
  scan_number s
  end end end end end end.

(** [scan_once], [JSONArray] and [JSONObject] of the decoder.  They call
    each other, so the recursion is on a budget; [json_loads] gives a
    budget that is never used up (lemma [scan_budget]).  [depth] is the
    number of arrays and objects the interpreter can still enter: the
    scanner asks for one more level at every opening bracket or brace,
    before it looks at what follows, and raises [RecursionError] when
    there is none. *)
Fixpoint scan_once (budget depth : nat) (s : str) : scanned value :=
  match budget with
  | O => Exhausted
  | S n =>
      match s with
      | [] => Malformed
      | c :: rest =>
          if (c =? 34)%N then
            match scanstring rest with
            | Some (t, r) => Done (VStr t) r
            | None => Malformed
            end
          else if (c =? 123)%N then
            match depth with
            | O => Refused RecursionError
            | S d =>
                match skip_ws rest with
                | c1 :: r1 =>
                    if (c1 =? 125)%N then Done (VDict []) r1
                    else
                      match object_items n d (c1 :: r1) with
                      | Done pairs r => Done (VDict (dict_of_pairs pairs)) r
                      | Malformed => Malformed
                      | Refused e => Refused e
                      | Exhausted => Exhausted
                      end
                | [] => Malformed
                end
            end
          else if (c =? 91)%N then
            match depth with
            | O => Refused RecursionError
            | S d =>
                match skip_ws rest with
                | c1 :: r1 =>
                    if (c1 =? 93)%N then Done (VList []) r1
                    else
                      match array_items n d (c1 :: r1) with
                      | Done items r => Done (VList items) r
                      | Malformed => Malformed
                      | Refused e => Refused e
                      | Exhausted => Exhausted
                      end
                | [] => Malformed
                end
            end
          else scan_constant s
      end
  end

with array_items (budget depth : nat) (s : str) : scanned (list value) :=
  match budget with
  | O => Exhausted
  | S n =>
      match scan_once n depth s with
      | Done v r =>
          match skip_ws r with
          | c :: r1 =>
              if (c =? 93)%N then Done [v] r1
              else if (c =? 44)%N then
                match array_items n depth (skip_ws r1) with
                | Done vs r2 => Done (v :: vs) r2
                | Malformed => Malformed
                | Refused e => Refused e
                | Exhausted => Exhausted
                end
              else Malformed
          | [] => Malformed
          end
      | Malformed => Malformed
      | Refused e => Refused e
      | Exhausted => Exhausted
      end
  end

with object_items (budget depth : nat) (s : str) : scanned (list (str * value)) :=
  match budget with
  | O => Exhausted
  | S n =>
      match s with
      | q :: r0 =>
          if (q =? 34)%N then
            match scanstring r0 with
            | None => Malformed
            | Some (k, r1) =>
                match skip_ws r1 with
                | c :: r2 =>
                    if (c =? 58)%N then
                      match scan_once n depth (skip_ws r2) with
                      | Done v r3 =>
                          match skip_ws r3 with
                          | d :: r4 =>
                              if (d =? 125)%N then Done [(k, v)] r4
                              else if (d =? 44)%N then
                                match object_items n depth (skip_ws r4) with
                                | Done kvs r5 => Done ((k, v) :: kvs) r5
                                | Malformed => Malformed
                                | Refused e => Refused e
                                | Exhausted => Exhausted
                                end
                              else Malformed
                          | [] => Malformed
                          end
                      | Malformed => Malformed
                      | Refused e => Refused e
                      | Exhausted => Exhausted
                      end
                    else Malformed
                | [] => Malformed
                end
            end
          else Malformed
      | [] => Malformed
      end
  end.

(** How many arrays and objects inside one another the interpreter can
    enter where the decoder is called: what is left of its recursion
    limit there. *)
Variable nesting_limit : nat.

(** [json.loads(text)]: one value, white space around it, nothing else.
    Text that is not a JSON document raises [JSONDecodeError]; nesting
    beyond the limit raises [RecursionError] and an integer of too many
    digits [ValueError], each where the scanner meets it. *)
Definition json_loads (text : str) : result value :=
  match scan_once (2 * length text + 1) nesting_limit (skip_ws text) with
  | Done v r =>
      match skip_ws r with
      | [] => Ok v
      | _ :: _ => Raise JSONDecodeError
      end
  | Malformed => Raise JSONDecodeError
  | Refused e => Raise e
  | Exhausted => Raise RecursionError
  end.

End Decoder.

(* ===================================================================== *)
(** * The interpreter state and the exception monad                       *)
(* ===================================================================== *)

(** What [st.session_state.history] holds.  The callback appends to a
    list; [load_chat_history] stores whatever the file decodes to, which
    need not be a list.  The items of a list are indices of cells. *)
Inductive stored :=
| HList (items : list nat)
| HOther (v : value).

Inductive role := System | Human.

(** A call to one of the two outside capabilities. *)
Inductive call :=
| Retrieve (query : str)
| Complete (prompt : list (role * str)).

Record state := mkState {
  cells : list value;        (* the objects the history lists point to *)
  history : option stored;   (* [st.session_state.history], if the key is set *)
  file : option str;         (* the text of [chat_history.json], if it exists *)
  calls : list call          (* the calls made so far, oldest first *)
}.

Definition M (A : Type) : Type := state -> result A * state.

Definition ret {A} (a : A) : M A := fun st => (Ok a, st).
Definition raise {A} (e : exn) : M A := fun st => (Raise e, st).
Definition bind {A B} (m : M A) (k : A -> M B) : M B :=
  fun st =>
    match m st with
    | (Ok a, st') => k a st'
    | (Raise e, st') => (Raise e, st')
    end.
Definition lift {A} (r : result A) : M A := fun st => (r, st).
Definition get_state : M state := fun st => (Ok st, st).

Notation "'do' x <- m ; k" := (bind m (fun x => k))
  (at level 10, x name, m at level 100, k at level 200).
Notation "'run' m ; k" := (bind m (fun _ => k))
  (at level 10, m at level 100, k at level 200).

(** The state a computation leaves, whether it returned or raised. *)
Definition after {A} (m : M A) (st : state) : state := snd (m st).

(** The object an index points to.  Every index in a list was allocated,
    so the second case does not occur in a run. *)
Definition deref (st : state) (i : nat) : value :=
  match cells st !! i with Some v => v | None => VNone end.

Definition read (i : nat) : M value := fun st => (Ok (deref st i), st).

(** A new object; its index is the next free one. *)
Definition alloc (v : value) : M nat :=
  fun st =>
    (Ok (length (cells st)),
     mkState (cells st ++ [v]) (history st) (file st) (calls st)).

Definition set_history (h : option stored) : M unit :=
  fun st => (Ok tt, mkState (cells st) h (file st) (calls st)).

Definition set_file (f : option str) : M unit :=
  fun st => (Ok tt, mkState (cells st) (history st) f (calls st)).

Definition record_call (c : call) : M unit :=
  fun st => (Ok tt, mkState (cells st) (history st) (file st) (calls st ++ [c])).

(** [v[k]] with a string key. *)
Definition subscript (v : value) (k : str) : result value :=
  match v with
  | VDict d =>
      match dict_get k d with
      | Some x => Ok x
      | None => Raise KeyError
      end
  | _ => Raise TypeError
  end.

(** [msg[k] = x] on the object at index [i]. *)
Definition store_item (i : nat) (k : str) (x : value) : M unit :=
  fun st =>
    match deref st i with
    | VDict d =>
        (Ok tt,
         mkState (<[i := VDict (dict_set k x d)]> (cells st))
                 (history st) (file st) (calls st))
    | _ => (Raise TypeError, st)
    end.

(** The message dictionary [{"origin": o, "message": m}]. *)
Definition message (o m : value) : value :=
  VDict [(lit "origin", o); (lit "message", m)].

(* ===================================================================== *)
(** * Prompt templates                                                    *)
(* ===================================================================== *)

Inductive piece :=
| Text (t : str)
| Hole (name : str).

Fixpoint env_get (name : str) (env : list (str * str)) : option str :=
  match env with
  | [] => None
  | (n, v) :: rest => if str_eqb name n then Some v else env_get name rest
  end.

(** [str.format] with the named values of [env]. *)
Fixpoint fill (env : list (str * str)) (t : list piece) : result str :=
  match t with
  | [] => Ok []
  | Text s :: rest =>
      match fill env rest with
      | Ok r => Ok (s ++ r)
      | Raise e => Raise e
      end
  | Hole name :: rest =>
      match env_get name env with
      | None => Raise KeyError
      | Some v =>
          match fill env rest with
          | Ok r => Ok (v ++ r)
          | Raise e => Raise e
          end
      end
  end.

(** [ChatPromptTemplate.format_messages] *)
Fixpoint format_messages (env : list (str * str))
  (t : list (role * list piece)) : result (list (role * str)) :=
  match t with
  | [] => Ok []
  | (r, tpl) :: rest =>
      match fill env tpl with
      | Raise e => Raise e
      | Ok s =>
          match format_messages env rest with
          | Ok ms => Ok ((r, s) :: ms)
          | Raise e => Raise e
          end
      end
  end.

Definition nl : str := [10%N].
Definition indent : str := Eval cbv in lit "        ".

(** [coimbatore_prompt], the triple-quoted literal with its line
    continuations resolved. *)
Definition coimbatore_prompt : list piece :=
  [ Text (lit "You are an intelligent meeting assistant called RUBY for helping employees and clarify their queries regarding the virtual meet."
          ++ nl ++ indent ++
          lit "Use the following pieces of retrieved context to answer the question in detail:");
    Hole (lit "context");
    Text (lit "." ++ indent ++ lit "Greet if the user greets you. " ++ indent ++
          lit "If you don't know the answer, just say that you don't know "
          ++ nl ++ indent ++
          lit "Only answer relevant content and Not anything extra." ++ indent ++
          lit "Dont return the prompt in the answer. " ++ indent ++
          lit "Don't respond irrelevant or anything outside the context. " ++ indent ++
          lit "___________" ++ nl ++ indent);
    Hole (lit "context") ].

(** [prompt], the template of the retrieval chain. *)
Definition grounded_template : list (role * list piece) :=
  [ (System, coimbatore_prompt); (Human, [Hole (lit "input")]) ].

(** [general_prompt]; the role ["user"] is LangChain's other name for a
    human message. *)
Definition general_prompt : list (role * list piece) :=
  [ (System,
     [Text (lit "You are a highly knowledgeable virtual meeting assistant named RUBY. You help users summarize the meeting,provide semantic analysis,clear doubts with the meeting ,answer who said what,classify opening statements ,closing statements,takeaway point. Always ask follow-up questions to refine the meeting details.")]);
    (Human, [Text (lit "Question: "); Hole (lit "input")]) ].

(* ===================================================================== *)
(** * The script                                                          *)
(* ===================================================================== *)

(** What the script gets from outside Python code of its own: the Unicode
    tables behind [str.lower], float printing, [repr] of values that are
    not strings, the retriever over the vector store (the page contents
    of the documents it finds) and the language model, which two can
    fail; and the two limits of the interpreter that [json.load] meets,
    on the digits of an integer and on nesting.  The script calls
    [json.load] a few frames deep, so the interpreter has room for the
    two levels of a history file, a list of dictionaries. *)
Record externals := mkExternals {
  lower_other : str -> str -> N -> str;
  float_shown : str -> str;
  py_repr : value -> str;
  retriever : str -> result (list str);
  llm : list (role * str) -> result str;
  max_str_digits : nat;
  nesting_limit : nat;
  nesting_room : (2 <= nesting_limit)%nat
}.

Section Script.

Variable X : externals.

(** [str(v)], which is also what an f-string field prints. *)
Definition py_str (v : value) : str :=
  match v with
  | VStr s => s
  | VObject _ shown => shown
  | _ => py_repr X v
  end.

(** [HISTORY_FILE] is the one file of the model; [os.path.exists] is
    [file st] being set. *)

(** [load_chat_history] *)
Definition load_chat_history : M value :=
  fun st =>
    match file st with
    | Some text =>
        (json_loads (float_shown X) (max_str_digits X) (nesting_limit X) text,
         st)
    | None => (Ok (VList []), st)
    end.

(** The first loop of [save_chat_history]: a dictionary payload is
    replaced, in the message object itself, by its [str()]. *)
Fixpoint coerce_payloads (history history_to_save : list nat) : M (list nat) :=
  match history with
  | [] => ret history_to_save
  | msg :: rest =>
      do v <- read msg;
      do p <- lift (subscript v (lit "message"));
      run (if is_dict p then store_item msg (lit "message") (VStr (py_str p))
           else ret tt);
      coerce_payloads rest (history_to_save ++ [msg])
  end.

(** [with open(HISTORY_FILE, "w") as f: json.dump(obj, f)]: the file is
    truncated, then receives what the encoder produces; when the encoder
    stops on an object it cannot encode, what it produced so far stays in
    the file and [TypeError] is raised. *)
Definition dump_to_file (items : list nat) : M unit :=
  do st <- get_state;
  let (text, ok) := encode (VList (map (deref st) items)) in
  run set_file (Some text);
  if ok then ret tt else raise TypeError.

(** [save_chat_history] *)
Definition save_chat_history (history : list nat) : M unit :=
  do history_to_save <- coerce_payloads history [];
  dump_to_file history_to_save.

(** [clear_chat_history] *)
Definition clear_chat_history : M unit :=
  do st <- get_state;
  match file st with
  | Some _ => set_file None
  | None => ret tt
  end.

(** Storing a decoded value as the session history: the items of a list
    become objects of their own. *)
Fixpoint alloc_all (vs : list value) : M (list nat) :=
  match vs with
  | [] => ret []
  | v :: rest =>
      do i <- alloc v;
      do ixs <- alloc_all rest;
      ret (i :: ixs)
  end.

Definition adopt (v : value) : M stored :=
  match v with
  | VList items => do ixs <- alloc_all items; ret (HList ixs)
  | _ => ret (HOther v)
  end.

(** [initialize_session_state], the part about the history; the chains it
    builds are the constants below. *)
Definition initialize_session_state : M unit :=
  do st <- get_state;
  match history st with
  | Some _ => ret tt
  | None =>
      do v <- load_chat_history;
      do h <- adopt v;
      set_history (Some h)
  end.

(** [create_retrieval_chain(retriever, create_stuff_documents_chain(llm,
    prompt)).invoke({"input": input})]: the retriever is asked with the
    value under ["input"]; the documents found, joined by a blank line,
    become ["context"]; the prompt is formatted from that dictionary and
    given to the model; the result is the dictionary with the answer
    added. *)
Definition retrieval_chain_invoke (input : str) : M value :=
  run record_call (Retrieve input);
  do docs <- lift (retriever X input);
  do prompt <- lift (format_messages
                       [(lit "input", input);
                        (lit "context", join (nl ++ nl) docs)]
                       grounded_template);
  run record_call (Complete prompt);
  do answer <- lift (llm X prompt);
  ret (VDict [(lit "input", VStr input);
              (lit "context", VList (map (VObject (lit "Document")) docs));
              (lit "answer", VStr answer)]).

(** [(general_prompt | llm | StrOutputParser()).invoke({"input": input})] *)
Definition general_chain_invoke (input : str) : M value :=
  do prompt <- lift (format_messages [(lit "input", input)] general_prompt);
  run record_call (Complete prompt);
  do answer <- lift (llm X prompt);
  ret (VStr answer).

(** One line of the context, [f"{msg['origin']}: {msg['message']}"]. *)
Definition context_line (msg : value) : result str :=
  match subscript msg (lit "origin") with
  | Raise e => Raise e
  | Ok o =>
      match subscript msg (lit "message") with
      | Raise e => Raise e
      | Ok m => Ok (py_str o ++ lit ": " ++ py_str m)
      end
  end.

Fixpoint context_lines (msgs : list value) : result (list str) :=
  match msgs with
  | [] => Ok []
  | msg :: rest =>
      match context_line msg with
      | Raise e => Raise e
      | Ok l =>
          match context_lines rest with
          | Raise e => Raise e
          | Ok ls => Ok (l :: ls)
          end
      end
  end.

(** The list comprehension over [st.session_state.history].  Over a value
    that is not a list: an empty string or dictionary has nothing to
    iterate; the items of a non-empty one are strings, which a string key
    cannot index; the rest cannot be iterated. *)
Definition history_lines (h : stored) : M (list str) :=
  match h with
  | HList items => do st <- get_state; lift (context_lines (map (deref st) items))
  | HOther (VStr []) => ret []
  | HOther (VDict []) => ret []
  | HOther _ => raise TypeError
  end.

(** [st.session_state.history.append(v)] *)
Definition history_append (v : value) : M unit :=
  do st <- get_state;
  match history st with
  | Some (HList items) =>
      do i <- alloc v;
      set_history (Some (HList (items ++ [i])))
  | _ => raise AttributeError
  end.

(** [on_click_callback], with [st.session_state.user_input] as argument. *)
Definition on_click_callback (user_input : str) : M unit :=
  do st <- get_state;
  match history st with
  | None => raise AttributeError
  | Some h =>
      do lines <- history_lines h;
      let context := join nl lines in
      do answer <-
        (match classify (lower_other X) user_input with
         | Grounded =>
             do response <- retrieval_chain_invoke (context ++ nl ++ user_input);
             lift (subscript response (lit "answer"))
         | General =>
             general_chain_invoke (context ++ nl ++ user_input)
         end);
      run history_append (message (VStr (lit "human")) (VStr user_input));
      run history_append (message (VStr (lit "ai")) answer);
      do st' <- get_state;
      match history st' with
      | Some (HList items) => save_chat_history items
      | _ => raise AttributeError
      end
  end.

(** The "New Chat" button: [st.session_state.history = []] and
    [clear_chat_history()]. *)
Definition new_chat : M unit :=
  run set_history (Some (HList []));
  clear_chat_history.

(** One run of the script body, as far as the history goes. *)
Definition script_run (new_chat_pressed : bool) : M unit :=
  run (if new_chat_pressed then new_chat else ret tt);
  initialize_session_state.

(** What can happen to a running application: a submission (the callback,
    then a rerun of the script), the "New Chat" button (a rerun that takes
    the button's branch), and a new session (the process or the browser
    session starts over: session state is gone, the file is not). *)
Inductive event :=
| Submit (q : str)
| NewChat
| Restart.

Definition new_session (st : state) : state :=
  mkState (cells st) None (file st) (calls st).

Definition step (st : state) (e : event) : state :=
  match e with
  | Submit q => after (script_run false) (after (on_click_callback q) st)
  | NewChat => after (script_run true) st
  | Restart => after (script_run false) (new_session st)
  end.

(** A machine on which the application has never run. *)
Definition fresh : state := mkState [] None None [].

Definition run_events (es : list event) : state := fold_left step es fresh.

End Script.

(* ===================================================================== *)
(** * Vocabulary of the statements                                        *)
(* ===================================================================== *)

(** What is used of the Unicode tables: outside ASCII, U+0130 and U+212A,
    lower-casing a code point gives at least one code point and none of
    them is ASCII. *)
Definition unicode_lower_ok (f : str -> str -> N -> str) : Prop :=
  forall before after c,
    (128 <= c)%N -> c <> 304%N -> c <> 8490%N ->
    f before after c <> [] /\ Forall (fun d => (128 <= d)%N) (f before after c).

(** A pattern of lower-case ASCII letters no part of which the two
    special cases of [lower_cp] can produce: no [k], and an [i] only
    before something other than U+0307. *)
Fixpoint plain_pattern (k : str) : bool :=
  match k with
  | [] => true
  | x :: k' =>
      (x <? 128)%N && negb (is_ascii_upper x) && negb (x =? 107)%N &&
      (negb (x =? 105)%N ||
       match k' with y :: _ => negb (y =? 775)%N | [] => false end) &&
      plain_pattern k'
  end.

(** A Python [str] holds code points up to U+10FFFF. *)
Definition valid_str (s : str) : Prop := Forall (fun c => (c < 1114112)%N) s.

(** The code point the decoder gives back for what the encoder wrote for
    one code point (the same one, for a code point of a Python [str]). *)
Definition decoded_cp (c : N) : N :=
  if (c <? 65536)%N then c else (65536 + (c - 65536) mod 1048576)%N.

(** The string [json.load] gives back for what [json.dump] wrote for [s]:
    a high surrogate directly followed by a low surrogate has become the
    one code point the pair stands for. *)
Fixpoint reread (s : str) : str :=
  match s with
  | [] => []
  | c :: t =>
      match t with
      | d :: t' =>
          if is_high_surrogate c && is_low_surrogate d
          then join_surrogates c d :: reread t'
          else decoded_cp c :: reread t
      | [] => [decoded_cp c]
      end
  end.

(** No high surrogate is directly followed by a low surrogate. *)
Fixpoint no_split_pair (s : str) : bool :=
  match s with
  | [] => true
  | c :: t =>
      match t with
      | d :: _ => negb (is_high_surrogate c && is_low_surrogate d)
      | [] => true
      end && no_split_pair t
  end.

(** Text that reads back as it was written. *)
Definition plain_text (s : str) : Prop :=
  valid_str s /\ no_split_pair s = true.

(** Text that does not begin with the escape of a low surrogate. *)
Definition no_low_escape (r : str) : Prop :=
  forall k1 k2 k3 k4 r2,
    r = 92%N :: 117%N :: k1 :: k2 :: k3 :: k4 :: r2 ->
    exists u2, hex4_val k1 k2 k3 k4 = Some u2 /\ is_low_surrogate u2 = false.

(** The text [json.dump] writes for the message dictionary with origin
    [o] and string payload [m], followed by [tail]. *)
Definition message_text (om : str * str) (tail : str) : str :=
  123%N :: 34%N :: escape (lit "origin") ++
  34%N :: 58%N :: 32%N :: 34%N :: escape (fst om) ++
  34%N :: 44%N :: 32%N :: 34%N :: escape (lit "message") ++
  34%N :: 58%N :: 32%N :: 34%N :: escape (snd om) ++
  34%N :: 125%N :: tail.

(** The items of a list of such messages, up to the closing bracket. *)
Fixpoint items_text (ms : list (str * str)) (tail : str) : str :=
  match ms with
  | [] => 93%N :: tail
  | om :: rest =>
      message_text om
        (match rest with
         | [] => items_text rest tail
         | _ :: _ => 44%N :: 32%N :: items_text rest tail
         end)
  end.

Definition history_text (ms : list (str * str)) : str := 91%N :: items_text ms [].

(** The message object of a pair of strings. *)
Definition message_of (om : str * str) : value :=
  message (VStr (fst om)) (VStr (snd om)).

Definition reread_message (om : str * str) : str * str :=
  (reread (fst om), reread (snd om)).

Definition human : str := Eval cbv in lit "human".
Definition ai : str := Eval cbv in lit "ai".

(** The payload of a message object, if it is a dictionary that has one. *)
Definition payload (v : value) : option value :=
  match v with
  | VDict d => dict_get (lit "message") d
  | _ => None
  end.

(** The origin of a message object. *)
Definition origin (v : value) : option value :=
  match v with
  | VDict d => dict_get (lit "origin") d
  | _ => None
  end.

(** The context built from a history of string messages, and what both
    chains are invoked with. *)
Definition context_of (ms : list (str * str)) : str :=
  join nl (map (fun om => fst om ++ lit ": " ++ snd om) ms).

Definition chain_input (ms : list (str * str)) (q : str) : str :=
  context_of ms ++ nl ++ q.

Section Outcomes.

Variable X : externals.

(** What one pass of the first loop of [save_chat_history] does to a
    message object. *)
Definition coerce_value (v : value) : value :=
  match v with
  | VDict d =>
      match dict_get (lit "message") d with
      | Some p =>
          if is_dict p
          then VDict (dict_set (lit "message") (VStr (py_str X p)) d)
          else v
      | None => v
      end
  | _ => v
  end.

(** The messages the two chains give to the model. *)
Definition grounded_messages (docs : list str) (input : str) : list (role * str) :=
  match format_messages [(lit "input", input);
                         (lit "context", join (nl ++ nl) docs)]
                        grounded_template with
  | Ok p => p
  | Raise _ => []
  end.

Definition general_messages (input : str) : list (role * str) :=
  match format_messages [(lit "input", input)] general_prompt with
  | Ok p => p
  | Raise _ => []
  end.

(** The calls a turn makes with [input] on its route, and the answer or
    the failure it ends with. *)
Definition turn (r : route) (input : str) : list call * result str :=
  match r with
  | Grounded =>
      match retriever X input with
      | Raise e => ([Retrieve input], Raise e)
      | Ok docs =>
          ([Retrieve input; Complete (grounded_messages docs input)],
           llm X (grounded_messages docs input))
      end
  | General =>
      ([Complete (general_messages input)], llm X (general_messages input))
  end.

(** The prompt with which a turn reaches the model, if it does. *)
Definition turn_prompt (r : route) (input : str) : option (list (role * str)) :=
  match r with
  | Grounded =>
      match retriever X input with
      | Raise _ => None
      | Ok docs => Some (grounded_messages docs input)
      end
  | General => Some (general_messages input)
  end.

End Outcomes.

(** The state with more calls recorded. *)
Definition with_calls (st : state) (cs : list call) : state :=
  mkState (cells st) (history st) (file st) (calls st ++ cs).

(** The first loop of [save_chat_history] as a function on the store. *)
Definition coerce_cells (X : externals) (items : list nat) (cs : list value)
  : list value :=
  foldl (fun cs i =>
           match cs !! i with
           | Some v => <[i := coerce_value X v]> cs
           | None => cs
           end) cs items.

(** The object at an index is a dictionary with a ["message"] entry. *)
Definition has_payload (cs : list value) (i : nat) : Prop :=
  exists v p, cs !! i = Some v /\ payload v = Some p.

(** The items of a list point to the string messages [ms], in order. *)
Definition holds (cs : list value) (items : list nat) (ms : list (str * str)) :=
  Forall2 (fun i om => cs !! i = Some (message_of om)) items ms.

(** The branch of [on_click_callback] on the route, under a name. *)
Definition answer_of (X : externals) (r : route) (input : str) : M value :=
  match r with
  | Grounded =>
      do response <- retrieval_chain_invoke X input;
      lift (subscript response (lit "answer"))
  | General => general_chain_invoke X input
  end.

(** Two instances to run the model on: one whose capabilities always
    answer, one whose language model always fails. *)
Definition demo : externals :=
  mkExternals lower_keep (fun t => t) (fun _ => lit "<object>")
              (fun _ => Ok [lit "The meeting starts at 10am on Tuesday"])
              (fun _ => Ok (lit "At 10am on Tuesday."))
              4300 1000 (proj1 (Nat.leb_le 2 1000) eq_refl).

Definition model_down : externals :=
  mkExternals lower_keep (fun t => t) (fun _ => lit "<object>")
              (fun _ => Ok [lit "The meeting starts at 10am on Tuesday"])
              (fun _ => Raise (ExternalError (lit "connection refused")))
              4300 1000 (proj1 (Nat.leb_le 2 1000) eq_refl).

(** An open session with nothing said yet. *)
Definition empty_session : state := mkState [] (Some (HList [])) None [].

(** Message objects whose origin and payload are the pair [op]. *)
Definition points_to (cs : list value) (items : list nat)
  (ops : list (value * value)) : Prop :=
  Forall2 (fun i op => exists v, cs !! i = Some v /\ origin v = Some (fst op)
                                 /\ payload v = Some (snd op)) items ops.

(** The origins the callback writes. *)
Definition known_origin (om : str * str) : Prop :=
  fst om = human \/ fst om = ai.

(** The invariant of a running application: the session history, when
    there is one, is a list of string messages of known origin, and so is
    what the file holds, when there is one. *)
Definition tidy (st : state) : Prop :=
  (history st = None \/
   exists items ms, history st = Some (HList items) /\
                    holds (cells st) items ms /\ Forall known_origin ms) /\
  (file st = None \/
   exists ms, file st = Some (history_text ms) /\ Forall known_origin ms).

(** ASCII upper-casing of one code point. *)
Definition ascii_upper (c : N) : N :=
  if (97 <=? c)%N && (c <=? 122)%N then (c - 32)%N else c.

(** The part of the script that shows the history: one [div] per
    message, a triple-quoted f-string with the fields
    ['row-reverse' if chat['origin'] == 'human' else ''],
    ['human-bubble' if chat['origin'] == 'human' else 'ai-bubble'] and
    [chat['message']], given to [st.markdown] with
    [unsafe_allow_html=True]. *)
Definition value_is_str (v : value) (s : str) : bool :=
  match v with
  | VStr t => str_eqb t s
  | _ => false
  end.

Section Display.

Variable X : externals.

Definition chat_div (chat : value) : result str :=
  match subscript chat (lit "origin") with
  | Raise e => Raise e
  | Ok o1 =>
      match subscript chat (lit "origin") with
      | Raise e => Raise e
      | Ok o2 =>
          match subscript chat (lit "message") with
          | Raise e => Raise e
          | Ok m =>
              Ok (nl ++ indent ++ lit "<div class=" ++ [34%N] ++ lit "chat-row "
                  ++ (if value_is_str o1 (lit "human") then lit "row-reverse"
                      else [])
                  ++ [34%N] ++ lit ">" ++ nl
                  ++ indent ++ lit "    <div class=" ++ [34%N]
                  ++ lit "chat-bubble "
                  ++ (if value_is_str o2 (lit "human") then lit "human-bubble"
                      else lit "ai-bubble")
                  ++ [34%N] ++ lit ">" ++ nl
                  ++ indent ++ lit "        " ++ py_str X m ++ nl
                  ++ indent ++ lit "    </div>" ++ nl
                  ++ indent ++ lit "</div>" ++ nl
                  ++ indent)
          end
      end
  end.

(** [for chat in st.session_state.history: ... st.markdown(div, ...)]
    over a list: the divs shown, up to the first message that raises. *)
Fixpoint display_chat (chats : list value) : list str * result unit :=
  match chats with
  | [] => ([], Ok tt)
  | chat :: rest =>
      match chat_div chat with
      | Raise e => ([], Raise e)
      | Ok div =>
          let (shown, r) := display_chat rest in (div :: shown, r)
      end
  end.

End Display.

(** Submissions one after the other, as long as they return. *)
Fixpoint submit_all (X : externals) (qs : list str) (st : state) : option state :=
  match qs with
  | [] => Some st
  | q :: rest =>
      match on_click_callback X q st with
      | (Ok _, st') => submit_all X rest st'
      | (Raise _, _) => None
      end
  end.

(** The messages of submissions that returned: each query, then its
    answer. *)
Definition exchanges (qas : list (str * str)) : list (str * str) :=
  flat_map (fun qa => [(human, fst qa); (ai, snd qa)]) qas.

(** The display loop on the session's history.  Over a value that is not
    a list it goes as the comprehension of [on_click_callback] does. *)
Definition display_history (X : externals) (st : state) : list str * result unit :=
  match history st with
  | None => ([], Raise AttributeError)
  | Some (HList items) => display_chat X (map (deref st) items)
  | Some (HOther (VStr [])) => ([], Ok tt)
  | Some (HOther (VDict [])) => ([], Ok tt)
  | Some (HOther _) => ([], Raise TypeError)
  end.

(** A message with a string origin as [save_chat_history] writes it: the
    payload as the text [str()] gives for it. *)
Definition written (X : externals) (op : str * value) : str * str :=
  (fst op, py_str X (snd op)).

(* ===================================================================== *)
(** * The query router                                                    *)
(* ===================================================================== *)

Lemma prefix_of_contains p s : prefix_of p s = true -> contains p s = true.
Proof. destruct s; simpl; intros ->; reflexivity. Qed.

Lemma contains_app_r p a b : contains p b = true -> contains p (a ++ b) = true.
Proof.
  intros Hb. induction a as [|x a IH]; simpl; [exact Hb|].
  rewrite IH. apply orb_true_r.
Qed.

(** Characters that differ from the first one of the pattern cannot start
    an occurrence. *)
Lemma contains_skip x p e l :
  Forall (fun d => d <> x) e -> contains (x :: p) (e ++ l) = contains (x :: p) l.
Proof.
  induction 1 as [|d e Hd _ IH]; [reflexivity|].
  change (contains (x :: p) ((d :: e) ++ l))
    with (prefix_of (x :: p) (d :: e ++ l) || contains (x :: p) (e ++ l)).
  rewrite IH. simpl prefix_of.
  destruct (N.eqb_spec x d) as [->|_]; [contradiction | reflexivity].
Qed.

Lemma ascii_fold_small c : (c < 128)%N -> (ascii_fold c < 128)%N.
Proof.
  unfold ascii_fold, is_ascii_upper. intros H.
  destruct (N.leb_spec 65 c), (N.leb_spec c 90); simpl; lia.
Qed.

Lemma ascii_fold_big c : (128 <= c)%N -> ascii_fold c = c.
Proof.
  unfold ascii_fold, is_ascii_upper. intros H.
  destruct (N.leb_spec 65 c), (N.leb_spec c 90); simpl; lia.
Qed.

Section LowerFacts.

Variable lower_other : str -> str -> N -> str.
Hypothesis tables : unicode_lower_ok lower_other.

Lemma lower_cp_ascii before after c :
  (c < 128)%N -> lower_cp lower_other before after c = [ascii_fold c].
Proof.
  intros H. unfold lower_cp, ascii_fold.
  destruct (is_ascii_upper c); [reflexivity|].
  destruct (N.ltb_spec c 128); [reflexivity | lia].
Qed.

(** Above ASCII the image is not empty and holds no letter of a plain
    pattern, except an [i] that U+0307 follows. *)
Lemma lower_cp_high before after c :
  (128 <= c)%N ->
  lower_cp lower_other before after c = [105; 775]%N \/
  exists d e, lower_cp lower_other before after c = d :: e /\
              Forall (fun y => y = 107%N \/ (128 <= y)%N) (d :: e).
Proof using tables.
  intros H. unfold lower_cp, is_ascii_upper.
  destruct (N.leb_spec 65 c), (N.leb_spec c 90); simpl; try lia.
  destruct (N.ltb_spec c 128); [lia|].
  destruct (N.eqb_spec c 304); [left; reflexivity|].
  destruct (N.eqb_spec c 8490).
  { right. exists 107%N, []. split; [reflexivity|]. repeat constructor. }
  right. destruct (tables before after c) as [Hne Hall]; try assumption.
  destruct (lower_other before after c) as [|d e]; [contradiction|].
  exists d, e. split; [reflexivity|].
  eapply Forall_impl; [exact Hall|]. intros y Hy; right; exact Hy.
Qed.

Lemma lower_from_app before u v :
  exists a, lower_from lower_other before (u ++ v)
            = a ++ lower_from lower_other (before ++ u) v.
Proof.
  revert before. induction u as [|c u IH]; intros before; simpl.
  - exists []. rewrite app_nil_r. reflexivity.
  - destruct (IH (before ++ [c])) as [a Ha]. rewrite Ha.
    exists (lower_cp lower_other before (u ++ v) c ++ a).
    rewrite <- !app_assoc. reflexivity.
Qed.

(** An occurrence at the front of the lowered text comes from a run at
    the front of the text. *)
Lemma prefix_of_lower_inv k :
  plain_pattern k = true ->
  forall q before,
    prefix_of k (lower_from lower_other before q) = true ->
    exists s suf, q = s ++ suf /\ Forall2 same_letter s k.
Proof using tables.
  induction k as [|x k IH]; intros Hk q before Hp.
  { exists [], q. split; [reflexivity | constructor]. }
  simpl in Hk. repeat (apply andb_prop in Hk as [Hk ?]).
  destruct q as [|c r]; [discriminate|]. simpl in Hp.
  destruct (N.lt_ge_cases c 128) as [Hc|Hc].
  - rewrite lower_cp_ascii in Hp by exact Hc. simpl in Hp.
    apply andb_prop in Hp as [Hx Hp]. apply N.eqb_eq in Hx.
    destruct (IH ltac:(assumption) r _ Hp) as (s & suf & -> & Hs).
    exists (c :: s), suf. split; [reflexivity|]. constructor; [|exact Hs].
    assert (Hfx : ascii_fold x = x).
    { unfold ascii_fold.
      match goal with H : negb (is_ascii_upper x) = true |- _ =>
        apply negb_true_iff in H; rewrite H end. reflexivity. }
    unfold same_letter. rewrite Hfx. symmetry. exact Hx.
  - exfalso. apply N.ltb_lt in Hk.
    destruct (lower_cp_high before r c Hc) as [E | (d & e & E & Hall)];
      rewrite E in Hp; simpl in Hp.
    + apply andb_prop in Hp as [Hx Hp]. apply N.eqb_eq in Hx. subst x.
      match goal with H : (negb (105 =? 105)%N || _) = true |- _ =>
        simpl in H; destruct k as [|y k']; [discriminate|] end.
      simpl in Hp. apply andb_prop in Hp as [Hy _]. apply N.eqb_eq in Hy.
      subst y. discriminate.
    + apply andb_prop in Hp as [Hx _]. apply N.eqb_eq in Hx. subst d.
      apply Forall_cons in Hall as [[->|Hd] _]; [discriminate | lia].
Qed.

Lemma contains_lower_inv q :
  forall before,
    contains keyword (lower_from lower_other before q) = true ->
    occurs_ignoring_case keyword q.
Proof using tables.
  induction q as [|c r IH]; intros before Hc; [discriminate|].
  assert (Hfront : prefix_of keyword (lower_from lower_other before (c :: r)) = true
                   -> occurs_ignoring_case keyword (c :: r)).
  { intros Hp. apply prefix_of_lower_inv in Hp as (s & suf & E & Hs);
      [|reflexivity].
    exists [], s, suf. split; [exact E | exact Hs]. }
  assert (Hlater : contains keyword (lower_from lower_other (before ++ [c]) r) = true
                   -> occurs_ignoring_case keyword (c :: r)).
  { intros Hr. destruct (IH _ Hr) as (pre & s & suf & -> & Hs).
    exists (c :: pre), s, suf. split; [reflexivity | exact Hs]. }
  simpl lower_from in Hc.
  destruct (N.lt_ge_cases c 128) as [Hlt|Hge].
  - rewrite lower_cp_ascii in Hc by exact Hlt.
    change (prefix_of keyword (ascii_fold c :: lower_from lower_other (before ++ [c]) r)
            || contains keyword (lower_from lower_other (before ++ [c]) r) = true) in Hc.
    apply orb_prop in Hc as [Hp|Hr]; [|exact (Hlater Hr)].
    apply Hfront. simpl lower_from. rewrite lower_cp_ascii by exact Hlt. exact Hp.
  - apply Hlater. unfold keyword in *.
    rewrite contains_skip in Hc; [exact Hc|].
    destruct (lower_cp_high before r c Hge) as [E | (d & e & E & Hall)];
      rewrite E.
    + repeat constructor; discriminate.
    + eapply Forall_impl; [exact Hall|]. intros y [->|Hy]; [discriminate | lia].
Qed.

Lemma prefix_of_lower_run k :
  plain_pattern k = true ->
  forall s suf before,
    Forall2 same_letter s k ->
    prefix_of k (lower_from lower_other before (s ++ suf)) = true.
Proof.
  induction k as [|x k IH]; intros Hk s suf before Hs.
  { reflexivity. }
  simpl in Hk. repeat (apply andb_prop in Hk as [Hk ?]).
  apply Forall2_cons_inv_r in Hs as (c & s' & Hc & Hs & ->).
  apply N.ltb_lt in Hk.
  assert (Hx : ascii_fold x = x).
  { unfold ascii_fold.
    match goal with H : negb (is_ascii_upper x) = true |- _ =>
      apply negb_true_iff in H; rewrite H end. reflexivity. }
  unfold same_letter in Hc. rewrite Hx in Hc.
  assert (Hsmall : (c < 128)%N).
  { destruct (N.lt_ge_cases c 128) as [?|Hge]; [assumption|].
    rewrite ascii_fold_big in Hc by exact Hge. lia. }
  simpl. rewrite lower_cp_ascii by exact Hsmall. simpl.
  rewrite Hc, N.eqb_refl. simpl. apply IH; assumption.
Qed.

Lemma contains_lower_intro q :
  occurs_ignoring_case keyword q ->
  contains keyword (lower lower_other q) = true.
Proof.
  intros (pre & s & suf & -> & Hs). unfold lower.
  destruct (lower_from_app [] pre (s ++ suf)) as [a ->].
  apply contains_app_r, prefix_of_contains, prefix_of_lower_run;
    [reflexivity | exact Hs].
Qed.

End LowerFacts.

(** C1.  For every query, the router answers [Grounded] exactly when the
    keyword "meeting" occurs in the query with each of its letters in
    either case, and [General] otherwise; being a function of the query
    alone, it gives the same answer whenever it is asked. *)
Theorem classify_grounded_iff_keyword
  (lower_other : str -> str -> N -> str)
  (tables : unicode_lower_ok lower_other) (q : str) :
  (is_coimbatore_query lower_other q = true
     <-> occurs_ignoring_case keyword q) /\
  (classify lower_other q = Grounded <-> occurs_ignoring_case keyword q) /\
  (classify lower_other q = General <-> ~ occurs_ignoring_case keyword q).
Proof.
  assert (E : is_coimbatore_query lower_other q = true
              <-> occurs_ignoring_case keyword q).
  { split.
    - apply contains_lower_inv; exact tables.
    - apply contains_lower_intro. }
  split; [exact E|]. unfold classify.
  destruct (is_coimbatore_query lower_other q).
  - split; split.
    + intros _. apply E. reflexivity.
    + reflexivity.
    + discriminate.
    + intros Hn. exfalso. apply Hn, E. reflexivity.
  - split; split.
    + discriminate.
    + intros Ho. apply E in Ho. discriminate.
    + intros _ Ho. apply E in Ho. discriminate.
    + reflexivity.
Qed.

Lemma lower_keep_ok : unicode_lower_ok lower_keep.
Proof.
  intros before after c Hc _ _. unfold lower_keep.
  split; [discriminate | repeat constructor; exact Hc].
Qed.

Lemma classify_grounded_iff_keyword_witness :
  let q := lit "Notes of the MEETING" in
  unicode_lower_ok lower_keep /\
  (is_coimbatore_query lower_keep q = true <-> occurs_ignoring_case keyword q) /\
  (classify lower_keep q = Grounded <-> occurs_ignoring_case keyword q) /\
  (classify lower_keep q = General <-> ~ occurs_ignoring_case keyword q).
Proof.
  split; [exact lower_keep_ok|].
  exact (classify_grounded_iff_keyword lower_keep lower_keep_ok
           (lit "Notes of the MEETING")).
Defined.

(** The two spellings of the specification's example take the same
    route. *)
Example classify_meeting_notes :
  classify lower_keep (lit "MEETING notes") = Grounded /\
  classify lower_keep (lit "meeting notes") = Grounded /\
  classify lower_keep (lit "tell me a joke") = General.
Proof. repeat split; vm_compute; reflexivity. Qed.

(* ===================================================================== *)
(** * Strings through [json.dump] and [json.load]                         *)
(* ===================================================================== *)

Lemma hex_val_hex_digit k : (k < 16)%N -> hex_val (hex_digit k) = Some k.
Proof.
  intros H.
  assert (Hin : In k (map N.of_nat (seq 0 16))).
  { apply in_map_iff. exists (N.to_nat k). split; [lia|].
    apply in_seq. lia. }
  simpl in Hin.
  repeat (destruct Hin as [<-|Hin]; [reflexivity|]). destruct Hin.
Qed.

Lemma hex4_val_hex4 n :
  (n < 65536)%N ->
  hex4_val (hex_digit (n / 4096 mod 16)) (hex_digit (n / 256 mod 16))
           (hex_digit (n / 16 mod 16)) (hex_digit (n mod 16)) = Some n.
Proof.
  intros H. unfold hex4_val.
  rewrite !hex_val_hex_digit by (apply N.mod_lt; discriminate).
  f_equal.
  pose proof (N.div_mod n 16 ltac:(discriminate)) as H1.
  pose proof (N.div_mod (n / 16) 16 ltac:(discriminate)) as H2.
  pose proof (N.div_mod (n / 256) 16 ltac:(discriminate)) as H3.
  replace (n / 256)%N with (n / 16 / 16)%N in *
    by (rewrite N.Div0.div_div; reflexivity).
  replace (n / 4096)%N with (n / 16 / 16 / 16)%N in *
    by (rewrite !N.Div0.div_div; reflexivity).
  assert (n / 16 / 16 / 16 < 16)%N.
  { rewrite !N.Div0.div_div. apply N.Div0.div_lt_upper_bound. simpl. lia. }
  rewrite (N.mod_small (n / 16 / 16 / 16) 16) by assumption.
  lia.
Qed.

Lemma lor_surrogate_base y :
  (y < 1024)%N ->
  N.lor 55296 y = (55296 + y)%N /\ N.lor 56320 y = (56320 + y)%N.
Proof.
  intros H.
  assert (Hall : forallb (fun y => (N.lor 55296 y =? 55296 + y)%N &&
                                   (N.lor 56320 y =? 56320 + y)%N)
                         (map N.of_nat (seq 0 1024)) = true)
    by (vm_compute; reflexivity).
  rewrite forallb_forall in Hall.
  specialize (Hall y). 
  assert (Hin : In y (map N.of_nat (seq 0 1024))).
  { apply in_map_iff. exists (N.to_nat y). split; [lia|]. apply in_seq. lia. }
  apply Hall in Hin. apply andb_prop in Hin as [H1 H2].
  apply N.eqb_eq in H1, H2. split; assumption.
Qed.

Lemma land_1023 n : N.land n 1023 = (n mod 1024)%N.
Proof. change 1023%N with (N.ones 10). rewrite N.land_ones. reflexivity. Qed.

Lemma lor_shiftl_10 a b :
  (b < 1024)%N -> N.lor (N.shiftl a 10) b = (a * 1024 + b)%N.
Proof.
  intros Hb.
  assert (Hland : N.land (N.shiftl a 10) b = 0%N).
  { apply N.bits_inj. intros i. rewrite N.land_spec, N.bits_0.
    destruct (N.lt_ge_cases i 10) as [Hi|Hi].
    - rewrite N.shiftl_spec_low by exact Hi. reflexivity.
    - replace (N.testbit b i) with false; [apply andb_false_r|].
      symmetry. destruct (N.eq_dec b 0%N) as [->|Hnz]; [apply N.bits_0|].
      apply N.bits_above_log2.
      apply N.log2_lt_pow2; [lia|].
      apply N.lt_le_trans with (2 ^ 10)%N; [exact Hb|].
      apply N.pow_le_mono_r; [discriminate | exact Hi]. }
  rewrite <- N.lxor_lor by exact Hland.
  rewrite <- N.add_nocarry_lxor by exact Hland.
  rewrite N.shiftl_mul_pow2. reflexivity.
Qed.

Lemma surrogates_of c :
  is_high_surrogate (high_half c) = true /\ is_low_surrogate (low_half c) = true /\
  (high_half c < 65536)%N /\ (low_half c < 65536)%N /\
  (65536 <= c -> join_surrogates (high_half c) (low_half c) = decoded_cp c)%N.
Proof.
  unfold high_half, low_half. rewrite !land_1023.
  assert (Hsplit : ((c - 65536) mod 1048576
                    = N.shiftr (c - 65536) 10 mod 1024 * 1024
                      + (c - 65536) mod 1024)%N).
  { rewrite N.shiftr_div_pow2. change (2 ^ 10)%N with 1024%N.
    change 1048576%N with (1024 * 1024)%N.
    rewrite N.Div0.mod_mul_r. lia. }
  assert (Ha : (N.shiftr (c - 65536) 10 mod 1024 < 1024)%N)
    by (apply N.mod_lt; discriminate).
  assert (Hb : ((c - 65536) mod 1024 < 1024)%N)
    by (apply N.mod_lt; discriminate).
  revert Hsplit Ha Hb.
  generalize (N.shiftr (c - 65536) 10 mod 1024)%N as a.
  generalize ((c - 65536) mod 1024)%N as b.
  intros b a Hsplit Ha Hb.
  destruct (lor_surrogate_base _ Ha) as [-> _].
  destruct (lor_surrogate_base _ Hb) as [_ ->].
  unfold is_high_surrogate, is_low_surrogate, join_surrogates.
  repeat split.
  - apply andb_true_intro; split; apply N.leb_le; lia.
  - apply andb_true_intro; split; apply N.leb_le; lia.
  - lia.
  - lia.
  - intros Hc. unfold decoded_cp. destruct (N.ltb_spec c 65536); [lia|].
    replace (55296 + a - 55296)%N with a by lia.
    replace (56320 + b - 56320)%N with b by lia.
    rewrite lor_shiftl_10 by exact Hb. rewrite Hsplit. reflexivity.
Qed.

Lemma scanstring_quote r : scanstring (34%N :: r) = Some ([], r).
Proof. reflexivity. Qed.

Lemma scanstring_plain c r :
  c <> 34%N -> c <> 92%N -> (32 <= c)%N ->
  scanstring (c :: r) = push c (scanstring r).
Proof.
  intros H1 H2 H3. simpl.
  destruct (N.eqb_spec c 34); [contradiction|].
  destruct (N.eqb_spec c 92); [contradiction|].
  destruct (N.ltb_spec c 32); [lia | reflexivity].
Qed.

Lemma scanstring_short e x r :
  e <> 117%N -> unescape e = Some x ->
  scanstring (92%N :: e :: r) = push x (scanstring r).
Proof.
  intros H1 H2. simpl.
  destruct (N.eqb_spec e 117); [contradiction|]. rewrite H2. reflexivity.
Qed.

Lemma scanstring_u h1 h2 h3 h4 r :
  scanstring (92%N :: 117%N :: h1 :: h2 :: h3 :: h4 :: r) =
  match hex4_val h1 h2 h3 h4 with
  | None => None
  | Some u =>
      if is_high_surrogate u then
        match r with
        | b :: l :: k1 :: k2 :: k3 :: k4 :: rest2 =>
            if (b =? 92)%N && (l =? 117)%N then
              match hex4_val k1 k2 k3 k4 with
              | None => None
              | Some u2 =>
                  if is_low_surrogate u2
                  then push (join_surrogates u u2) (scanstring rest2)
                  else push u (scanstring r)
              end
            else push u (scanstring r)
        | _ => push u (scanstring r)
        end
      else push u (scanstring r)
  end.
Proof. reflexivity. Qed.

Lemma scanstring_u_escape n r :
  (n < 65536)%N -> is_high_surrogate n = false ->
  scanstring (u_escape n ++ r) = push n (scanstring r).
Proof.
  intros Hn Hh. unfold u_escape, hex4. cbn [app].
  rewrite scanstring_u, hex4_val_hex4 by exact Hn. rewrite Hh. reflexivity.
Qed.

Lemma scanstring_pair hi lo r :
  (hi < 65536)%N -> (lo < 65536)%N ->
  is_high_surrogate hi = true -> is_low_surrogate lo = true ->
  scanstring (u_escape hi ++ u_escape lo ++ r)
  = push (join_surrogates hi lo) (scanstring r).
Proof.
  intros Hhi Hlo Hh Hl. unfold u_escape, hex4. cbn [app].
  rewrite scanstring_u, hex4_val_hex4 by exact Hhi. rewrite Hh.
  cbn [N.eqb Pos.eqb andb]. rewrite hex4_val_hex4 by exact Hlo.
  rewrite Hl. reflexivity.
Qed.

Lemma scanstring_high_alone hi r :
  (hi < 65536)%N -> no_low_escape r ->
  scanstring (u_escape hi ++ r) = push hi (scanstring r).
Proof.
  intros Hhi Hr. unfold u_escape, hex4. cbn [app].
  rewrite scanstring_u, hex4_val_hex4 by exact Hhi.
  destruct (is_high_surrogate hi); [|reflexivity].
  destruct r as [|b [|l [|k1 [|k2 [|k3 [|k4 r2]]]]]]; try reflexivity.
  destruct (N.eqb_spec b 92) as [->|]; [|reflexivity].
  destruct (N.eqb_spec l 117) as [->|]; [|reflexivity].
  destruct (Hr _ _ _ _ _ eq_refl) as (u2 & -> & ->). reflexivity.
Qed.

Lemma surrogate_kinds c :
  is_high_surrogate c = true -> is_low_surrogate c = false.
Proof.
  unfold is_high_surrogate, is_low_surrogate. intros H.
  apply andb_prop in H as [H1 H2]. apply N.leb_le in H1, H2.
  destruct (N.leb_spec 56320 c); [lia | reflexivity].
Qed.

(** The four ways a code point is written. *)
Lemma escape_cp_shape c :
  (exists e, escape_cp c = [92%N; e] /\ e <> 117%N /\ unescape e = Some c
             /\ (c < 128)%N) \/
  (escape_cp c = [c] /\ c <> 34%N /\ c <> 92%N /\ (32 <= c <= 126)%N) \/
  (escape_cp c = u_escape c /\ (c < 65536)%N) \/
  (escape_cp c = u_escape (high_half c) ++ u_escape (low_half c)
   /\ (65536 <= c)%N).
Proof.
  unfold escape_cp.
  destruct (N.eqb_spec c 34) as [->|?];
    [left; exists 34%N; repeat split; try discriminate; try lia|].
  destruct (N.eqb_spec c 92) as [->|?];
    [left; exists 92%N; repeat split; try discriminate; try lia|].
  destruct (N.eqb_spec c 10) as [->|?];
    [left; exists 110%N; repeat split; try discriminate; try lia|].
  destruct (N.eqb_spec c 13) as [->|?];
    [left; exists 114%N; repeat split; try discriminate; try lia|].
  destruct (N.eqb_spec c 9) as [->|?];
    [left; exists 116%N; repeat split; try discriminate; try lia|].
  destruct (N.eqb_spec c 8) as [->|?];
    [left; exists 98%N; repeat split; try discriminate; try lia|].
  destruct (N.eqb_spec c 12) as [->|?];
    [left; exists 102%N; repeat split; try discriminate; try lia|].
  destruct (N.leb_spec 32 c), (N.leb_spec c 126); cbn [andb];
    try (right; left; repeat split; assumption);
    (destruct (N.ltb_spec c 65536);
     [right; right; left; split; [reflexivity | assumption]
     |right; right; right; split; [reflexivity | assumption]]).
Qed.

Lemma escape_cp_no_low c r :
  is_low_surrogate c = false -> no_low_escape (escape_cp c ++ r).
Proof.
  intros Hc k1 k2 k3 k4 r2 E.
  destruct (escape_cp_shape c)
    as [(e & Hs & He & _) | [(Hs & _ & Hc92 & _) | [(Hs & Hlt) | (Hs & Hge)]]];
    rewrite Hs in E.
  - cbn [app] in E. congruence.
  - cbn [app] in E. congruence.
  - unfold u_escape, hex4 in E. cbn [app] in E.
    injection E as <- <- <- <- _. rewrite hex4_val_hex4 by exact Hlt.
    exists c. split; [reflexivity | exact Hc].
  - destruct (surrogates_of c) as (Hh & _ & Hlt & _).
    unfold u_escape at 1, hex4 in E. cbn [app] in E.
    injection E as <- <- <- <- _. rewrite hex4_val_hex4 by exact Hlt.
    exists (high_half c). split; [reflexivity | apply surrogate_kinds, Hh].
Qed.

Lemma quote_no_low r : no_low_escape (34%N :: r).
Proof. intros k1 k2 k3 k4 r2 E. discriminate. Qed.

(** A code point that is not a high surrogate is read back by itself. *)
Lemma scanstring_escape_cp c r :
  is_high_surrogate c = false ->
  scanstring (escape_cp c ++ r) = push (decoded_cp c) (scanstring r).
Proof.
  intros Hc.
  destruct (escape_cp_shape c)
    as [(e & -> & He & Hu & Hlt) | [(-> & H34 & H92 & H32 & H126)
         | [(-> & Hlt) | (-> & Hge)]]].
  - cbn [app]. rewrite (scanstring_short e c) by assumption.
    unfold decoded_cp. destruct (N.ltb_spec c 65536); [reflexivity | lia].
  - cbn [app]. rewrite scanstring_plain by assumption.
    unfold decoded_cp. destruct (N.ltb_spec c 65536); [reflexivity | lia].
  - rewrite scanstring_u_escape by assumption.
    unfold decoded_cp. destruct (N.ltb_spec c 65536); [reflexivity | lia].
  - destruct (surrogates_of c) as (Hh & Hl & Hhlt & Hllt & Hj).
    rewrite <- app_assoc, scanstring_pair by assumption.
    rewrite Hj by exact Hge. reflexivity.
Qed.

Lemma high_surrogate_escape c :
  is_high_surrogate c = true ->
  escape_cp c = u_escape c /\ (c < 65536)%N /\ decoded_cp c = c.
Proof.
  intros H. unfold is_high_surrogate in H.
  apply andb_prop in H as [H1 H2]. apply N.leb_le in H1, H2.
  assert (Hlt : (c < 65536)%N) by lia.
  unfold decoded_cp. destruct (N.ltb_spec c 65536); [|lia].
  repeat split; try assumption.
  destruct (escape_cp_shape c)
    as [(e & _ & _ & _ & ?) | [(_ & _ & _ & _ & ?) | [(-> & _) | (_ & ?)]]];
    try lia. reflexivity.
Qed.

Lemma low_surrogate_escape c :
  is_low_surrogate c = true -> escape_cp c = u_escape c /\ (c < 65536)%N.
Proof.
  intros H. unfold is_low_surrogate in H.
  apply andb_prop in H as [H1 H2]. apply N.leb_le in H1, H2.
  split; [|lia].
  destruct (escape_cp_shape c)
    as [(e & _ & _ & _ & ?) | [(_ & _ & _ & _ & ?) | [(-> & _) | (_ & ?)]]];
    try lia. reflexivity.
Qed.

(** What [json.dump] writes for a string, [json.load] reads as [reread]
    of it. *)
Lemma scanstring_escape s :
  forall tail, scanstring (escape s ++ 34%N :: tail) = Some (reread s, tail).
Proof.
  enough (H : (forall tail, scanstring (escape s ++ 34%N :: tail)
                            = Some (reread s, tail)) /\
              (forall c tail, scanstring (escape (c :: s) ++ 34%N :: tail)
                              = Some (reread (c :: s), tail)))
    by exact (proj1 H).
  induction s as [|d t [IHt IHdt]].
  - split; [intros tail; apply scanstring_quote|].
    intros c tail. unfold escape. cbn [flat_map reread].
    rewrite app_nil_r.
    destruct (is_high_surrogate c) eqn:Hc.
    + destruct (high_surrogate_escape c Hc) as (-> & Hlt & ->).
      rewrite scanstring_high_alone by (assumption || apply quote_no_low).
      reflexivity.
    + rewrite scanstring_escape_cp by exact Hc. reflexivity.
  - split; [exact (IHdt d)|].
    intros c tail.
    change (escape (c :: d :: t)) with (escape_cp c ++ escape (d :: t)).
    rewrite <- app_assoc.
    change (reread (c :: d :: t)) with
      (if is_high_surrogate c && is_low_surrogate d
       then join_surrogates c d :: reread t
       else decoded_cp c :: reread (d :: t)).
    destruct (is_high_surrogate c) eqn:Hc; cbn [andb].
    + destruct (high_surrogate_escape c Hc) as (-> & Hlt & ->).
      destruct (is_low_surrogate d) eqn:Hd.
      * change (escape (d :: t)) with (escape_cp d ++ escape t).
        destruct (low_surrogate_escape d Hd) as (-> & Hdlt).
        rewrite <- app_assoc, scanstring_pair by assumption.
        rewrite IHt. reflexivity.
      * rewrite scanstring_high_alone.
        -- rewrite (IHdt d). reflexivity.
        -- exact Hlt.
        -- change (escape (d :: t)) with (escape_cp d ++ escape t).
           rewrite <- app_assoc. apply escape_cp_no_low, Hd.
    + rewrite scanstring_escape_cp by exact Hc.
      rewrite (IHdt d). reflexivity.
Qed.

Lemma reread_plain s : plain_text s -> reread s = s.
Proof.
  intros [Hv Hp].
  enough (H : (valid_str s -> no_split_pair s = true -> reread s = s) /\
              (forall c, valid_str (c :: s) -> no_split_pair (c :: s) = true ->
                         reread (c :: s) = c :: s))
    by (apply (proj1 H); assumption).
  clear Hv Hp.
  assert (Hcp : forall c, (c < 1114112)%N -> decoded_cp c = c).
  { intros c Hc. unfold decoded_cp. destruct (N.ltb_spec c 65536); [reflexivity|].
    rewrite N.mod_small by lia. lia. }
  induction s as [|d t [IHt IHdt]].
  - split; [reflexivity|]. intros c Hv _. cbn [reread].
    apply Forall_cons in Hv as [Hc _]. rewrite Hcp by exact Hc. reflexivity.
  - split; [exact (IHdt d)|].
    intros c Hv Hp. apply Forall_cons in Hv as [Hc Hv].
    change (no_split_pair (c :: d :: t)) with
      (negb (is_high_surrogate c && is_low_surrogate d)
       && no_split_pair (d :: t)) in Hp.
    apply andb_prop in Hp as [Hcd Hp]. apply negb_true_iff in Hcd.
    change (reread (c :: d :: t)) with
      (if is_high_surrogate c && is_low_surrogate d
       then join_surrogates c d :: reread t
       else decoded_cp c :: reread (d :: t)).
    rewrite Hcd, Hcp by exact Hc. rewrite (IHdt d) by assumption. reflexivity.
Qed.

(* ===================================================================== *)
(** * Message lists through [json.dump] and [json.load]                   *)
(* ===================================================================== *)

Lemma encode_VList items :
  encode (VList items)
  = let (t, ok) := encode_items true items in (91%N :: t, ok).
Proof. reflexivity. Qed.

Lemma encode_VDict entries :
  encode (VDict entries)
  = let (t, ok) := encode_entries true entries in (123%N :: t, ok).
Proof. reflexivity. Qed.

Lemma encode_message_of om :
  encode (message_of om) = (message_text om [], true).
Proof.
  destruct om as [o m]. unfold message_of, message, message_text.
  rewrite encode_VDict. cbn [encode_entries encode fst snd].
  unfold encode_str, comma_space, colon_space.
  cbn [app]. rewrite <- !app_assoc. cbn [app]. reflexivity.
Qed.

Lemma message_text_app om a b :
  message_text om a ++ b = message_text om (a ++ b).
Proof.
  unfold message_text. cbn [app]. 
  repeat (rewrite <- app_assoc; cbn [app]). reflexivity.
Qed.

Lemma encode_items_messages ms first :
  encode_items first (map message_of ms)
  = ((if first then [] else match ms with [] => [] | _ => comma_space end)
     ++ items_text ms [], true).
Proof.
  revert first. induction ms as [|om ms IH]; intros first.
  - destruct first; reflexivity.
  - cbn [map encode_items]. rewrite encode_message_of, IH.
    cbn [items_text]. f_equal.
    assert (E : message_text om [] ++
                match ms with [] => [] | _ :: _ => comma_space end ++ items_text ms []
                = message_text om
                    match ms with
                    | [] => items_text ms []
                    | _ :: _ => 44%N :: 32%N :: items_text ms []
                    end).
    { rewrite message_text_app. destruct ms; reflexivity. }
    destruct first; cbn [app]; rewrite E; reflexivity.
Qed.

Lemma encode_history ms :
  encode (VList (map message_of ms)) = (history_text ms, true).
Proof.
  rewrite encode_VList, encode_items_messages. reflexivity.
Qed.

Section Decoding.
Variable fs : str -> str.
Variable md : nat.

Lemma scan_once_unfold n depth s :
  scan_once fs md (S n) depth s
  = match s with
    | [] => Malformed
    | c :: rest =>
        if (c =? 34)%N then
          match scanstring rest with
          | Some (t, r) => Done (VStr t) r
          | None => Malformed
          end
        else if (c =? 123)%N then
          match depth with
          | O => Refused RecursionError
          | S d =>
              match skip_ws rest with
              | c1 :: r1 =>
                  if (c1 =? 125)%N then Done (VDict []) r1
                  else
                    match object_items fs md n d (c1 :: r1) with
                    | Done pairs r => Done (VDict (dict_of_pairs pairs)) r
                    | Malformed => Malformed
                    | Refused e => Refused e
                    | Exhausted => Exhausted
                    end
              | [] => Malformed
              end
          end
        else if (c =? 91)%N then
          match depth with
          | O => Refused RecursionError
          | S d =>
              match skip_ws rest with
              | c1 :: r1 =>
                  if (c1 =? 93)%N then Done (VList []) r1
                  else
                    match array_items fs md n d (c1 :: r1) with
                    | Done items r => Done (VList items) r
                    | Malformed => Malformed
                    | Refused e => Refused e
                    | Exhausted => Exhausted
                    end
              | [] => Malformed
              end
          end
        else scan_constant fs md s
    end.
Proof. reflexivity. Qed.

Lemma object_items_unfold n d s :
  object_items fs md (S n) d s
  = match s with
    | q :: r0 =>
        if (q =? 34)%N then
          match scanstring r0 with
          | None => Malformed
          | Some (k, r1) =>
              match skip_ws r1 with
              | c :: r2 =>
                  if (c =? 58)%N then
                    match scan_once fs md n d (skip_ws r2) with
                    | Done v r3 =>
                        match skip_ws r3 with
                        | c4 :: r4 =>
                            if (c4 =? 125)%N then Done [(k, v)] r4
                            else if (c4 =? 44)%N then
                              match object_items fs md n d (skip_ws r4) with
                              | Done kvs r5 => Done ((k, v) :: kvs) r5
                              | Malformed => Malformed
                              | Refused e => Refused e
                              | Exhausted => Exhausted
                              end
                            else Malformed
                        | [] => Malformed
                        end
                    | Malformed => Malformed
                    | Refused e => Refused e
                    | Exhausted => Exhausted
                    end
                  else Malformed
              | [] => Malformed
              end
          end
        else Malformed
    | [] => Malformed
    end.
Proof. reflexivity. Qed.

Lemma scan_once_quote n d r :
  scan_once fs md (S n) d (34%N :: r)
  = match scanstring r with
    | Some (t, r') => Done (VStr t) r'
    | None => Malformed
    end.
Proof. reflexivity. Qed.

Lemma scan_once_string n d s tail :
  scan_once fs md (S n) d (34%N :: escape s ++ 34%N :: tail)
  = Done (VStr (reread s)) tail.
Proof. rewrite scan_once_quote, scanstring_escape. reflexivity. Qed.

Lemma object_items_quote n d r0 :
  object_items fs md (S n) d (34%N :: r0)
  = match scanstring r0 with
    | None => Malformed
    | Some (k, r1) =>
        match skip_ws r1 with
        | c :: r2 =>
            if (c =? 58)%N then
              match scan_once fs md n d (skip_ws r2) with
              | Done v r3 =>
                  match skip_ws r3 with
                  | c4 :: r4 =>
                      if (c4 =? 125)%N then Done [(k, v)] r4
                      else if (c4 =? 44)%N then
                        match object_items fs md n d (skip_ws r4) with
                        | Done kvs r5 => Done ((k, v) :: kvs) r5
                        | Malformed => Malformed
                        | Refused e => Refused e
                        | Exhausted => Exhausted
                        end
                      else Malformed
                  | [] => Malformed
                  end
              | Malformed => Malformed
              | Refused e => Refused e
              | Exhausted => Exhausted
              end
            else Malformed
        | [] => Malformed
        end
    end.
Proof. reflexivity. Qed.

Lemma scan_once_brace n d r :
  scan_once fs md (S n) (S d) (123%N :: 34%N :: r)
  = match object_items fs md n d (34%N :: r) with
    | Done pairs r' => Done (VDict (dict_of_pairs pairs)) r'
    | Malformed => Malformed
    | Refused e => Refused e
    | Exhausted => Exhausted
    end.
Proof. reflexivity. Qed.

Lemma reread_ascii_keys :
  reread (lit "origin") = lit "origin" /\ reread (lit "message") = lit "message".
Proof. split; vm_compute; reflexivity. Qed.

Lemma scan_once_message n d om tail :
  scan_once fs md (S (S (S (S n)))) (S d) (message_text om tail)
  = Done (message_of (reread_message om)) tail.
Proof.
  destruct om as [o m]. unfold message_text. cbn [fst snd].
  rewrite scan_once_brace, object_items_quote, scanstring_escape.
  cbn [skip_ws is_ws N.eqb Pos.eqb orb].
  rewrite scan_once_string.
  cbn [skip_ws is_ws N.eqb Pos.eqb orb].
  rewrite object_items_quote, scanstring_escape.
  cbn [skip_ws is_ws N.eqb Pos.eqb orb].
  rewrite scan_once_string.
  cbn [skip_ws is_ws N.eqb Pos.eqb orb].
  destruct reread_ascii_keys as [-> ->].
  reflexivity.
Qed.

Lemma array_items_unfold n d s :
  array_items fs md (S n) d s
  = match scan_once fs md n d s with
    | Done v r =>
        match skip_ws r with
        | c :: r1 =>
            if (c =? 93)%N then Done [v] r1
            else if (c =? 44)%N then
              match array_items fs md n d (skip_ws r1) with
              | Done vs r2 => Done (v :: vs) r2
              | Malformed => Malformed
              | Refused e => Refused e
              | Exhausted => Exhausted
              end
            else Malformed
        | [] => Malformed
        end
    | Malformed => Malformed
    | Refused e => Refused e
    | Exhausted => Exhausted
    end.
Proof. reflexivity. Qed.

Lemma array_items_messages om ms tail n d :
  (length ms + 5 <= n)%nat ->
  array_items fs md n (S d) (items_text (om :: ms) tail)
  = Done (map message_of (map reread_message (om :: ms))) tail.
Proof.
  revert om n. induction ms as [|om' ms IH]; intros om n Hn.
  - do 5 (destruct n as [|n]; [simpl in Hn; lia|]).
    cbn [items_text]. rewrite array_items_unfold, scan_once_message.
    reflexivity.
  - do 5 (destruct n as [|n]; [simpl in Hn; lia|]).
    change (items_text (om :: om' :: ms) tail)
      with (message_text om (44%N :: 32%N :: items_text (om' :: ms) tail)).
    rewrite array_items_unfold, scan_once_message.
    cbn [skip_ws is_ws N.eqb Pos.eqb orb].
    change (skip_ws (items_text (om' :: ms) tail))
      with (items_text (om' :: ms) tail).
    rewrite IH by (simpl in Hn |- *; lia). reflexivity.
Qed.

Lemma scan_once_bracket n d c1 r1 :
  scan_once fs md (S n) (S d) (91%N :: c1 :: r1)
  = match skip_ws (c1 :: r1) with
    | c :: r =>
        if (c =? 93)%N then Done (VList []) r
        else
          match array_items fs md n d (c :: r) with
          | Done items r' => Done (VList items) r'
          | Malformed => Malformed
          | Refused e => Refused e
          | Exhausted => Exhausted
          end
    | [] => Malformed
    end.
Proof. reflexivity. Qed.

Lemma message_text_length om t :
  (length t + 3 <= length (message_text om t))%nat.
Proof.
  change t with ([] ++ t) at 2. rewrite <- message_text_app, length_app.
  unfold message_text. cbn [length]. rewrite length_app. cbn [length]. lia.
Qed.

Lemma items_text_length ms tail :
  (3 * length ms <= length (items_text ms tail))%nat.
Proof.
  induction ms as [|om ms IH]; [simpl; lia|].
  cbn [items_text].
  match goal with |- (_ <= length (message_text om ?t))%nat =>
    pose proof (message_text_length om t) as Hm end.
  destruct ms; cbn [length] in *; lia.
Qed.

(** Reading back a written history of string messages. *)
Lemma json_loads_history limit ms :
  (2 <= limit)%nat ->
  json_loads fs md limit (history_text ms)
  = Ok (VList (map message_of (map reread_message ms))).
Proof.
  intros Hroom. destruct limit as [|[|d]]; [lia | lia |].
  unfold json_loads, history_text.
  change (skip_ws (91%N :: items_text ms [])) with (91%N :: items_text ms []).
  destruct ms as [|om ms]; [reflexivity|].
  pose proof (items_text_length (om :: ms) []) as Hlen.
  remember (2 * length (91%N :: items_text (om :: ms) []) + 1)%nat as n eqn:En.
  destruct n as [|n]; [simpl in En; lia|].
  change (items_text (om :: ms) []) with
    (123%N :: tl (items_text (om :: ms) [])) at 1.
  rewrite scan_once_bracket.
  change (skip_ws (123%N :: tl (items_text (om :: ms) [])))
    with (items_text (om :: ms) []).
  change (match items_text (om :: ms) [] with
          | [] => Malformed
          | c :: r =>
              if (c =? 93)%N then Done (VList []) r
              else match array_items fs md n (S d) (c :: r) with
                   | Done items r' => Done (VList items) r'
                   | Malformed => Malformed
                   | Refused e => Refused e
                   | Exhausted => Exhausted
                   end
          end)
    with (match array_items fs md n (S d) (items_text (om :: ms) []) with
          | Done items r' => Done (VList items) r'
          | Malformed => Malformed
          | Refused e => Refused e
          | Exhausted => Exhausted
          end).
  rewrite array_items_messages; [reflexivity|].
  cbn [length] in En, Hlen. lia.
Qed.

End Decoding.

(* ===================================================================== *)
(** * The decoder's budget                                                *)
(* ===================================================================== *)

Lemma skip_ws_length s : (length (skip_ws s) <= length s)%nat.
Proof.
  induction s as [|c s IH]; [reflexivity|]. simpl.
  destruct (is_ws c); simpl; lia.
Qed.

Lemma push_length c o t r (bound : nat) :
  push c o = Some (t, r) ->
  (forall t' r', o = Some (t', r') -> (length r' < bound)%nat) ->
  (length r < bound)%nat.
Proof.
  destruct o as [[t' r']|]; [|discriminate]. simpl.
  intros [= <- <-] H. exact (H _ _ eq_refl).
Qed.

Lemma scanstring_length s :
  forall t r, scanstring s = Some (t, r) -> (length r < length s)%nat.
Proof.
  induction s as [s IH] using (induction_ltof1 _ (@length N)).
  unfold ltof in IH. intros t r H.
  destruct s as [|c rest]; [discriminate|]. cbn [scanstring] in H.
  assert (Hpush : forall x s' t r, (length s' < length (c :: rest))%nat ->
            push x (scanstring s') = Some (t, r) ->
            (length r < length (c :: rest))%nat).
  { intros x s' t0 r0 Hs' Hp. eapply push_length; [exact Hp|].
    intros t' r' E. apply IH in E; [lia | exact Hs']. }
  repeat case_match; simplify_eq; cbn [length] in *;
    try lia; try (eapply Hpush; [|eassumption]; cbn [length]; lia).
Qed.

Lemma span_digits_length s :
  forall ds r, span_digits s = (ds, r) -> length s = (length ds + length r)%nat.
Proof.
  induction s as [|c s IH]; intros ds r H; simpl in H.
  - simplify_eq. reflexivity.
  - destruct (is_digit c).
    + destruct (span_digits s) as [ds' r'] eqn:E. simplify_eq.
      specialize (IH _ _ eq_refl). simpl. lia.
    + simplify_eq. reflexivity.
Qed.

Lemma scan_int_part_length s neg ds r :
  scan_int_part s = Some (neg, ds, r) -> (length r < length s)%nat.
Proof.
  unfold scan_int_part. intros H.
  repeat case_match; simplify_eq; cbn [length] in *;
    repeat match goal with
    | E : span_digits _ = _ |- _ => apply span_digits_length in E
    end; cbn [length] in *; lia.
Qed.

Lemma scan_frac_length s f r :
  scan_frac s = (f, r) -> (length r <= length s)%nat.
Proof.
  unfold scan_frac. intros H.
  repeat case_match; simplify_eq; cbn [length] in *;
    repeat match goal with
    | E : span_digits _ = _ |- _ => apply span_digits_length in E
    end; cbn [length] in *; lia.
Qed.

Lemma scan_exp_length s f r :
  scan_exp s = (f, r) -> (length r <= length s)%nat.
Proof.
  unfold scan_exp. intros H.
  repeat case_match; simplify_eq; cbn [length] in *;
    repeat match goal with
    | E : span_digits _ = _ |- _ => apply span_digits_length in E
    end; cbn [length] in *; lia.
Qed.

Section Budget.
Variable fs : str -> str.
Variable md : nat.

Lemma scan_number_length s v r :
  scan_number fs md s = Done v r -> (length r < length s)%nat.
Proof.
  unfold scan_number. intros H.
  destruct (scan_int_part s) as [[[neg ds] r0]|] eqn:Ei; [|discriminate].
  apply scan_int_part_length in Ei.
  destruct (scan_frac r0) as [f r1] eqn:Ef. apply scan_frac_length in Ef.
  destruct (scan_exp r1) as [e r2] eqn:Ee. apply scan_exp_length in Ee.
  repeat case_match; simplify_eq; lia.
Qed.

Lemma scan_number_not_exhausted s : scan_number fs md s <> Exhausted.
Proof.
  unfold scan_number. repeat case_match; discriminate.
Qed.

Lemma scan_number_refused s e : scan_number fs md s = Refused e -> e = ValueError.
Proof.
  unfold scan_number. intros Hr.
  repeat case_match; simplify_eq; reflexivity.
Qed.

Lemma scan_word_length w x s v r :
  w <> [] -> scan_word w x s = Some (Done v r) -> (length r < length s)%nat.
Proof.
  unfold scan_word. intros Hw H.
  destruct (prefix_of w s) eqn:Ep; [|discriminate]. simplify_eq.
  destruct w as [|a w]; [contradiction|]. destruct s as [|b s]; [discriminate|].
  cbn [length drop]. pose proof (length_drop s (length w)). lia.
Qed.

Lemma scan_word_result w x s o :
  scan_word w x s = Some o -> exists r, o = Done x r.
Proof.
  unfold scan_word. destruct (prefix_of w s); [|discriminate].
  intros [= <-]. eauto.
Qed.

Lemma scan_constant_length s v r :
  scan_constant fs md s = Done v r -> (length r < length s)%nat.
Proof.
  unfold scan_constant. intros H.
  repeat case_match; simplify_eq;
    try (eapply scan_word_length; [|eassumption]; discriminate).
  eapply scan_number_length; eassumption.
Qed.

Lemma scan_constant_not_exhausted s : scan_constant fs md s <> Exhausted.
Proof.
  unfold scan_constant.
  repeat case_match; simplify_eq;
    try match goal with
    | E : scan_word _ _ _ = Some _ |- _ =>
        apply scan_word_result in E as [? ->]; discriminate
    end.
  apply scan_number_not_exhausted.
Qed.

Lemma scan_constant_refused s e :
  scan_constant fs md s = Refused e -> e = ValueError.
Proof.
  unfold scan_constant.
  repeat case_match; simplify_eq;
    try match goal with
    | E : scan_word _ _ _ = Some _ |- _ =>
        apply scan_word_result in E as [? ->]; discriminate
    end.
  apply scan_number_refused.
Qed.

Ltac length_facts :=
  repeat match goal with
  | E : scanstring _ = Some _ |- _ => apply scanstring_length in E
  | E : skip_ws ?a = _ |- _ =>
      let F := fresh in
      pose proof (skip_ws_length a) as F; rewrite E in F; clear E
  | E : scan_constant fs md _ = Done _ _ |- _ => apply scan_constant_length in E
  end.

(** Whatever is decoded, something was consumed. *)
Lemma scan_consumes n :
  (forall d s v r, scan_once fs md n d s = Done v r -> (length r < length s)%nat) /\
  (forall d s vs r, array_items fs md n d s = Done vs r -> (length r < length s)%nat) /\
  (forall d s kvs r, object_items fs md n d s = Done kvs r -> (length r < length s)%nat).
Proof.
  induction n as [|n (IHv & IHa & IHo)]; [repeat split; discriminate|].
  repeat split.
  - intros d s v r H. rewrite scan_once_unfold in H.
    repeat case_match; simplify_eq;
      repeat match goal with
      | E : object_items fs md n _ _ = Done _ _ |- _ => apply IHo in E
      | E : array_items fs md n _ _ = Done _ _ |- _ => apply IHa in E
      end; length_facts; cbn [length] in *; lia.
  - intros d s vs r H. rewrite array_items_unfold in H.
    repeat case_match; simplify_eq;
      repeat match goal with
      | E : scan_once fs md n _ _ = Done _ _ |- _ => apply IHv in E
      | E : array_items fs md n _ (skip_ws ?a) = Done _ _ |- _ =>
          apply IHa in E; pose proof (skip_ws_length a)
      end; length_facts; cbn [length] in *; lia.
  - intros d s kvs r H. rewrite object_items_unfold in H.
    repeat case_match; simplify_eq;
      repeat match goal with
      | E : scan_once fs md n _ (skip_ws ?a) = Done _ _ |- _ =>
          apply IHv in E; pose proof (skip_ws_length a)
      | E : object_items fs md n _ (skip_ws ?a) = Done _ _ |- _ =>
          apply IHo in E; pose proof (skip_ws_length a)
      end; length_facts; cbn [length] in *; lia.
Qed.

(** With a budget of twice the length of the text and one more, the
    decoder never stops for lack of budget. *)
Lemma scan_budget n :
  (forall d s, (2 * length s + 1 <= n)%nat -> scan_once fs md n d s <> Exhausted) /\
  (forall d s, (2 * length s + 2 <= n)%nat -> array_items fs md n d s <> Exhausted) /\
  (forall d s, (2 * length s + 2 <= n)%nat -> object_items fs md n d s <> Exhausted).
Proof.
  induction n as [|n (IHv & IHa & IHo)]; [repeat split; intros; lia|].
  destruct (scan_consumes n) as (Cv & Ca & Co).
  repeat split.
  - intros d s Hn H. rewrite scan_once_unfold in H.
    repeat case_match; simplify_eq;
      try (eapply scan_constant_not_exhausted; eassumption);
      length_facts; cbn [length] in *;
      first [ eapply IHo; [|eassumption] | eapply IHa; [|eassumption] ];
      cbn [length]; lia.
  - intros d s Hn H. rewrite array_items_unfold in H.
    repeat case_match; simplify_eq.
    + match goal with
      | E : scan_once fs md n _ _ = Done _ _ |- _ => apply Cv in E
      end.
      match goal with
      | E : array_items fs md n _ (skip_ws ?a) = Exhausted |- _ =>
          pose proof (skip_ws_length a); eapply IHa; [|exact E]
      end.
      length_facts; cbn [length] in *; lia.
    + eapply IHv; [|eassumption]. lia.
  - intros d s Hn H. rewrite object_items_unfold in H.
    repeat case_match; simplify_eq.
    + match goal with
      | E : scan_once fs md n _ (skip_ws ?a) = Done _ _ |- _ =>
          apply Cv in E; pose proof (skip_ws_length a)
      end.
      match goal with
      | E : object_items fs md n _ (skip_ws ?a) = Exhausted |- _ =>
          pose proof (skip_ws_length a); eapply IHo; [|exact E]
      end.
      length_facts; cbn [length] in *; lia.
    + match goal with
      | E : scan_once fs md n _ (skip_ws ?a) = Exhausted |- _ =>
          pose proof (skip_ws_length a); eapply IHv; [|exact E]
      end.
      length_facts; cbn [length] in *; lia.
Qed.

(** What the decoder raises besides [JSONDecodeError]: [RecursionError]
    at a bracket or brace too deep, [ValueError] at an integer too long. *)
Lemma scan_refused n :
  (forall d s e, scan_once fs md n d s = Refused e ->
     e = RecursionError \/ e = ValueError) /\
  (forall d s e, array_items fs md n d s = Refused e ->
     e = RecursionError \/ e = ValueError) /\
  (forall d s e, object_items fs md n d s = Refused e ->
     e = RecursionError \/ e = ValueError).
Proof.
  induction n as [|n (IHv & IHa & IHo)]; [repeat split; discriminate|].
  repeat split.
  - intros d s e H. rewrite scan_once_unfold in H.
    repeat case_match; simplify_eq; try (left; reflexivity);
      try (right; eapply scan_constant_refused; eassumption);
      first [ eapply IHo; eassumption | eapply IHa; eassumption ].
  - intros d s e H. rewrite array_items_unfold in H.
    repeat case_match; simplify_eq;
      first [ eapply IHa; eassumption | eapply IHv; eassumption ].
  - intros d s e H. rewrite object_items_unfold in H.
    repeat case_match; simplify_eq;
      first [ eapply IHo; eassumption | eapply IHv; eassumption ].
Qed.

(** [json_loads] returns a value or raises one of three exceptions. *)
Lemma json_loads_total limit text :
  (exists v, json_loads fs md limit text = Ok v) \/
  json_loads fs md limit text = Raise JSONDecodeError \/
  json_loads fs md limit text = Raise RecursionError \/
  json_loads fs md limit text = Raise ValueError.
Proof.
  unfold json_loads.
  destruct (scan_once fs md (2 * length text + 1) limit (skip_ws text))
    as [v r| |e|] eqn:E.
  - destruct (skip_ws r); [left; eauto | right; left; reflexivity].
  - right; left; reflexivity.
  - apply (proj1 (scan_refused _)) in E as [-> | ->]; auto.
  - exfalso. eapply (proj1 (scan_budget _)); [|exact E].
    pose proof (skip_ws_length text). lia.
Qed.

(** Brackets one deeper than the interpreter can enter: the scanner
    raises at the last of them, whatever follows. *)
Lemma scan_once_too_deep d : forall n tail,
  (2 * d + 1 <= n)%nat ->
  scan_once fs md n d (repeat 91%N (S d) ++ tail) = Refused RecursionError.
Proof.
  induction d as [|d IH]; intros n tail Hn.
  - destruct n as [|n]; [lia|]. reflexivity.
  - destruct n as [|[|n]]; [lia | lia |].
    change (repeat 91%N (S (S d)) ++ tail)
      with (91%N :: 91%N :: (repeat 91%N d ++ tail)).
    rewrite scan_once_bracket.
    cbn [skip_ws is_ws N.eqb Pos.eqb orb].
    rewrite array_items_unfold.
    change (91%N :: repeat 91%N d ++ tail) with (repeat 91%N (S d) ++ tail).
    rewrite IH by lia. reflexivity.
Qed.

Lemma json_loads_too_deep limit tail :
  json_loads fs md limit (repeat 91%N (S limit) ++ tail) = Raise RecursionError.
Proof.
  unfold json_loads.
  change (skip_ws (repeat 91%N (S limit) ++ tail))
    with (repeat 91%N (S limit) ++ tail).
  rewrite scan_once_too_deep; [reflexivity|].
  rewrite length_app, repeat_length. lia.
Qed.

Lemma span_digits_all ds :
  forallb is_digit ds = true -> span_digits ds = (ds, []).
Proof.
  induction ds as [|c ds IH]; [reflexivity|]. cbn [forallb span_digits].
  intros H. apply andb_true_iff in H as [-> H]. rewrite IH by exact H.
  reflexivity.
Qed.

(** An integer of too many digits: the scanner raises at it. *)
Lemma json_loads_long_integer limit c ds :
  is_digit c = true -> c <> 48%N -> forallb is_digit ds = true ->
  too_many_digits md (c :: ds) = true ->
  json_loads fs md limit (c :: ds) = Raise ValueError.
Proof.
  intros Hc H0 Hds Hlong.
  assert (Hcases : (c = 49 \/ c = 50 \/ c = 51 \/ c = 52 \/ c = 53 \/
                    c = 54 \/ c = 55 \/ c = 56 \/ c = 57)%N).
  { unfold is_digit in Hc. apply andb_true_iff in Hc as [H1 H2].
    apply N.leb_le in H1, H2. lia. }
  assert (Hscan : forall n d,
            scan_once fs md (S n) d (c :: ds) = Refused ValueError).
  { intros n d.
    assert (E : scan_once fs md (S n) d (c :: ds) = scan_number fs md (c :: ds))
      by (repeat (destruct Hcases as [-> | Hcases]); try subst c; reflexivity).
    rewrite E. unfold scan_number.
    assert (Ei : scan_int_part (c :: ds) = Some (false, c :: ds, [])).
    { unfold scan_int_part.
      repeat (destruct Hcases as [-> | Hcases]); try subst c;
        cbn [N.eqb Pos.eqb is_digit N.leb N.compare Pos.compare
             Pos.compare_cont andb];
        rewrite span_digits_all by exact Hds; reflexivity. }
    rewrite Ei. cbn [scan_frac scan_exp]. rewrite Hlong. reflexivity. }
  unfold json_loads.
  assert (Ews : skip_ws (c :: ds) = c :: ds)
    by (repeat (destruct Hcases as [-> | Hcases]); try subst c; reflexivity).
  rewrite Ews. replace (2 * length (c :: ds) + 1)%nat
    with (S (2 * length (c :: ds)))%nat by lia.
  rewrite Hscan. reflexivity.
Qed.

End Budget.

(* ===================================================================== *)
(** * The store and the first loop of [save_chat_history]                 *)
(* ===================================================================== *)

Lemma str_eqb_eq a b : str_eqb a b = true <-> a = b.
Proof.
  revert b. induction a as [|x a IH]; intros [|y b]; simpl;
    try (split; [discriminate | intros; discriminate]); [tauto|].
  rewrite andb_true_iff, N.eqb_eq, IH. split.
  - intros [-> ->]. reflexivity.
  - intros [= -> ->]. tauto.
Qed.

Lemma str_eqb_refl a : str_eqb a a = true.
Proof. apply str_eqb_eq. reflexivity. Qed.

Lemma dict_get_set k v d : dict_get k (dict_set k v d) = Some v.
Proof.
  induction d as [|[k' v'] d IH]; simpl.
  - rewrite str_eqb_refl. reflexivity.
  - destruct (str_eqb k k') eqn:E; simpl; rewrite ?str_eqb_refl, ?E; auto.
Qed.

Section Store.
Variable X : externals.

Lemma payload_coerce_value v p :
  payload v = Some p ->
  exists p', payload (coerce_value X v) = Some p' /\ is_dict p' = false /\
             (is_dict p = false -> coerce_value X v = v) /\
             (is_dict p = true ->
              exists d, v = VDict d /\
                coerce_value X v
                = VDict (dict_set (lit "message") (VStr (py_str X p)) d)).
Proof.
  destruct v as [| | | | | |d|]; try discriminate. simpl. intros Hp.
  rewrite Hp. destruct (is_dict p) eqn:Ed.
  - exists (VStr (py_str X p)). simpl. rewrite dict_get_set.
    repeat split; try discriminate. intros _. eauto.
  - exists p. simpl. repeat split; try assumption. discriminate.
Qed.

Lemma coerce_value_idem v : coerce_value X (coerce_value X v) = coerce_value X v.
Proof.
  destruct (payload v) as [p|] eqn:Hp.
  - destruct (payload_coerce_value v p Hp) as (p' & Hp' & Hd & _).
    destruct (payload_coerce_value _ p' Hp') as (_ & _ & _ & Hsame & _).
    apply Hsame, Hd.
  - destruct v as [| | | | | |d|]; try reflexivity. simpl in *.
    rewrite Hp. simpl. rewrite Hp. reflexivity.
Qed.

(** One iteration of the loop. *)
Lemma coerce_step msg v p st :
  cells st !! msg = Some v -> payload v = Some p ->
  (do v <- read msg;
   do p <- lift (subscript v (lit "message"));
   run (if is_dict p then store_item msg (lit "message") (VStr (py_str X p))
        else ret tt);
   ret tt) st
  = (Ok tt, mkState (<[msg := coerce_value X v]> (cells st))
                    (history st) (file st) (calls st)).
Proof.
  intros Hc Hp. unfold bind, read, lift, deref. rewrite Hc.
  destruct v as [| | | | | |d|]; try discriminate. simpl in Hp.
  unfold subscript. rewrite Hp. unfold coerce_value. rewrite Hp.
  destruct (is_dict p).
  - unfold store_item, deref. rewrite Hc. reflexivity.
  - unfold ret. rewrite list_insert_id by exact Hc. destruct st; reflexivity.
Qed.

Lemma coerce_cells_cons i rest cs :
  coerce_cells X (i :: rest) cs
  = coerce_cells X rest
      match cs !! i with
      | Some v => <[i := coerce_value X v]> cs
      | None => cs
      end.
Proof. reflexivity. Qed.

Lemma coerce_payloads_run items :
  forall acc st,
    (forall i, i ∈ items -> has_payload (cells st) i) ->
    coerce_payloads X items acc st
    = (Ok (acc ++ items),
       mkState (coerce_cells X items (cells st)) (history st) (file st) (calls st)).
Proof.
  induction items as [|msg rest IH]; intros acc st Hall.
  - simpl. rewrite app_nil_r. destruct st; reflexivity.
  - destruct (Hall msg ltac:(left)) as (v & p & Hc & Hp).
    pose proof (coerce_step msg v p st Hc Hp) as Hstep.
    cbn [coerce_payloads]. unfold bind in Hstep |- *.
    destruct (read msg st) as [[v0|e] st0]; [|discriminate].
    destruct (lift (subscript v0 (lit "message")) st0) as [[p0|e] st1];
      [|discriminate].
    destruct ((if is_dict p0
               then store_item msg (lit "message") (VStr (py_str X p0))
               else ret tt) st1) as [[[]|e] st2]; [|discriminate].
    unfold ret in Hstep. injection Hstep as ->.
    rewrite IH.
    + cbn [cells history file calls]. rewrite coerce_cells_cons, Hc.
      rewrite <- app_assoc. reflexivity.
    + intros i Hi. cbn [cells].
      destruct (decide (i = msg)) as [->|Hne].
      * destruct (payload_coerce_value v p Hp) as (p' & Hp' & _).
        exists (coerce_value X v), p'. split; [|exact Hp'].
        apply list_lookup_insert_eq. eapply lookup_lt_Some; eassumption.
      * destruct (Hall i ltac:(right; exact Hi)) as (vi & pi & Hci & Hpi).
        exists vi, pi. split; [|exact Hpi].
        rewrite list_lookup_insert_ne by congruence. exact Hci.
Qed.

Lemma coerce_cells_length items : forall cs,
  length (coerce_cells X items cs) = length cs.
Proof.
  induction items as [|i rest IH]; intros cs; [reflexivity|].
  rewrite coerce_cells_cons, IH.
  destruct (cs !! i); rewrite ?length_insert; reflexivity.
Qed.

(** The store after the loop, object by object. *)
Lemma coerce_cells_lookup items : forall cs i,
  coerce_cells X items cs !! i
  = if decide (i ∈ items) then coerce_value X <$> cs !! i else cs !! i.
Proof.
  induction items as [|j rest IH]; intros cs i.
  - simpl. destruct (decide (i ∈ [])) as [H|_]; [inversion H | reflexivity].
  - rewrite coerce_cells_cons, IH.
    destruct (decide (i = j)) as [->|Hne].
    + destruct (decide (j ∈ j :: rest)) as [_|H]; [|exfalso; apply H; left].
      destruct (cs !! j) as [v|] eqn:Hj.
      * rewrite list_lookup_insert_eq by (eapply lookup_lt_Some; eassumption).
        destruct (decide (j ∈ rest)); simpl; rewrite ?coerce_value_idem;
          reflexivity.
      * rewrite Hj. destruct (decide (j ∈ rest)); reflexivity.
    + assert (Hsame : match cs !! j with
                      | Some v => <[j:=coerce_value X v]> cs
                      | None => cs
                      end !! i = cs !! i).
      { destruct (cs !! j); [|reflexivity].
        apply list_lookup_insert_ne. congruence. }
      rewrite Hsame.
      destruct (decide (i ∈ rest)) as [Hin|Hnin].
      * destruct (decide (i ∈ j :: rest)) as [_|H]; [reflexivity|].
        exfalso. apply H. right. exact Hin.
      * destruct (decide (i ∈ j :: rest)) as [H|_]; [|reflexivity].
        apply elem_of_cons in H as [?|?]; [congruence | contradiction].
Qed.

End Store.

(* ===================================================================== *)
(** * [save_chat_history]                                                 *)
(* ===================================================================== *)

Section Saving.
Variable X : externals.

Lemma deref_lookup st i v : cells st !! i = Some v -> deref st i = v.
Proof. unfold deref. intros ->. reflexivity. Qed.

Lemma save_chat_history_run items st :
  (forall i, i ∈ items -> has_payload (cells st) i) ->
  save_chat_history X items st
  = let st1 := mkState (coerce_cells X items (cells st))
                       (history st) (file st) (calls st) in
    let (text, ok) := encode (VList (map (deref st1) items)) in
    (if ok then Ok tt else Raise TypeError,
     mkState (cells st1) (history st) (Some text) (calls st)).
Proof.
  intros Hall. unfold save_chat_history, bind.
  rewrite coerce_payloads_run by exact Hall.
  cbn [app]. unfold dump_to_file, bind, get_state.
  destruct (encode _) as [text [|]]; reflexivity.
Qed.

Lemma coerce_cells_fixed items : forall cs,
  (forall i v, i ∈ items -> cs !! i = Some v -> coerce_value X v = v) ->
  coerce_cells X items cs = cs.
Proof.
  induction items as [|i rest IH]; intros cs H; [reflexivity|].
  rewrite coerce_cells_cons.
  destruct (cs !! i) as [v|] eqn:Hi.
  - rewrite (H i v ltac:(left) Hi), list_insert_id by exact Hi.
    apply IH. intros j w Hj. apply H. right. exact Hj.
  - apply IH. intros j w Hj. apply H. right. exact Hj.
Qed.

Lemma coerce_value_message_of om : coerce_value X (message_of om) = message_of om.
Proof. reflexivity. Qed.

Lemma payload_message_of om : payload (message_of om) = Some (VStr (snd om)).
Proof. reflexivity. Qed.

Lemma holds_elem cs items ms i :
  holds cs items ms -> i ∈ items -> exists om, cs !! i = Some (message_of om).
Proof.
  induction 1 as [|j om items ms Hj _ IH]; intros Hi; [inversion Hi|].
  apply elem_of_cons in Hi as [->|Hi]; eauto.
Qed.

Lemma holds_map st items ms :
  holds (cells st) items ms -> map (deref st) items = map message_of ms.
Proof.
  induction 1 as [|j om items ms Hj _ IH]; [reflexivity|].
  simpl. rewrite IH, (deref_lookup _ _ _ Hj). reflexivity.
Qed.

Lemma holds_app_cells cs more items ms :
  holds cs items ms -> holds (cs ++ more) items ms.
Proof.
  induction 1 as [|j om items ms Hj _ IH]; constructor; [|exact IH].
  apply lookup_app_l_Some. exact Hj.
Qed.

Lemma holds_snoc cs items ms om :
  holds cs items ms ->
  holds (cs ++ [message_of om]) (items ++ [length cs]) (ms ++ [om]).
Proof.
  intros H. apply Forall2_app.
  - apply holds_app_cells, H.
  - constructor; [|constructor].
    rewrite lookup_app_r by lia. rewrite Nat.sub_diag. reflexivity.
Qed.

(** Saving a history of string messages changes no object and writes the
    text of the list. *)
Lemma save_chat_history_strings items ms st :
  holds (cells st) items ms ->
  save_chat_history X items st
  = (Ok tt, mkState (cells st) (history st) (Some (history_text ms)) (calls st)).
Proof.
  intros H. rewrite save_chat_history_run.
  - cbn zeta. cbn [cells].
    assert (Hfix : coerce_cells X items (cells st) = cells st).
    { apply coerce_cells_fixed. intros i v Hi Hv.
      destruct (holds_elem _ _ _ _ H Hi) as [om Hom].
      rewrite Hom in Hv. injection Hv as <-. apply coerce_value_message_of. }
    rewrite Hfix.
    rewrite (holds_map (mkState (cells st) (history st) (file st) (calls st))
               items ms H).
    rewrite encode_history. reflexivity.
  - intros i Hi. destruct (holds_elem _ _ _ _ H Hi) as [om Hom].
    exists (message_of om), (VStr (snd om)). split; [exact Hom | reflexivity].
Qed.

End Saving.

(* ===================================================================== *)
(** * One submission                                                      *)
(* ===================================================================== *)

Lemma fill_system docs input :
  exists sys,
    fill [(lit "input", input); (lit "context", join (nl ++ nl) docs)]
         coimbatore_prompt = Ok sys.
Proof. eexists. reflexivity. Qed.

Lemma grounded_format docs input :
  exists sys,
    format_messages [(lit "input", input); (lit "context", join (nl ++ nl) docs)]
                    grounded_template
    = Ok [(System, sys); (Human, input)].
Proof.
  destruct (fill_system docs input) as [sys Hsys]. exists sys.
  unfold grounded_template. cbn [format_messages]. rewrite Hsys.
  change (fill [(lit "input", input); (lit "context", join (nl ++ nl) docs)]
               [Hole (lit "input")]) with (Ok (input ++ [])).
  rewrite app_nil_r. reflexivity.
Qed.

Lemma general_format input :
  exists sys,
    format_messages [(lit "input", input)] general_prompt
    = Ok [(System, sys); (Human, lit "Question: " ++ input)].
Proof.
  eexists. unfold general_prompt. cbn [format_messages fill].
  change (env_get (lit "input") [(lit "input", input)]) with (Some input).
  rewrite !app_nil_r. reflexivity.
Qed.

Section Turn.
Variable X : externals.

Lemma grounded_messages_shape docs input :
  exists sys,
    grounded_messages docs input = [(System, sys); (Human, input)] /\
    format_messages [(lit "input", input); (lit "context", join (nl ++ nl) docs)]
                    grounded_template
    = Ok (grounded_messages docs input).
Proof.
  destruct (grounded_format docs input) as [sys H]. exists sys.
  unfold grounded_messages. rewrite H. split; reflexivity.
Qed.

Lemma general_messages_shape input :
  exists sys,
    general_messages input = [(System, sys); (Human, lit "Question: " ++ input)] /\
    format_messages [(lit "input", input)] general_prompt
    = Ok (general_messages input).
Proof.
  destruct (general_format input) as [sys H]. exists sys.
  unfold general_messages. rewrite H. split; reflexivity.
Qed.

Lemma answer_of_run r input st :
  answer_of X r input st
  = (match snd (turn X r input) with
     | Ok a => Ok (VStr a)
     | Raise e => Raise e
     end,
     with_calls st (fst (turn X r input))).
Proof.
  destruct r; unfold answer_of, turn.
  - unfold retrieval_chain_invoke, bind, record_call, lift, with_calls.
    cbn [cells history file calls].
    destruct (retriever X input) as [docs|e]; [|reflexivity].
    destruct (grounded_messages_shape docs input) as (sys & _ & ->).
    cbn [cells history file calls fst snd]. rewrite <- app_assoc. cbn [app].
    destruct (llm X (grounded_messages docs input)) as [a|e]; reflexivity.
  - unfold general_chain_invoke, bind, record_call, lift, with_calls.
    destruct (general_messages_shape input) as (sys & _ & ->).
    cbn [cells history file calls fst snd].
    destruct (llm X (general_messages input)) as [a|e]; reflexivity.
Qed.

Lemma on_click_callback_unfold q st :
  on_click_callback X q st
  = match history st with
    | None => (Raise AttributeError, st)
    | Some h =>
        (do lines <- history_lines X h;
         do answer <- answer_of X (classify (lower_other X) q)
                                (join nl lines ++ nl ++ q);
         run history_append (message (VStr (lit "human")) (VStr q));
         run history_append (message (VStr (lit "ai")) answer);
         do st' <- get_state;
         match history st' with
         | Some (HList items) => save_chat_history X items
         | _ => raise AttributeError
         end) st
    end.
Proof.
  unfold on_click_callback, bind at 1, get_state.
  destruct (history st) as [h|]; [|reflexivity].
  unfold answer_of. destruct (classify (lower_other X) q); reflexivity.
Qed.

Lemma context_lines_strings ms :
  context_lines X (map message_of ms)
  = Ok (map (fun om => fst om ++ lit ": " ++ snd om) ms).
Proof.
  induction ms as [|om ms IH]; [reflexivity|].
  cbn [map context_lines]. rewrite IH. reflexivity.
Qed.

(** A submission on a history of string messages. *)
Lemma on_click_callback_strings q st items ms :
  history st = Some (HList items) ->
  holds (cells st) items ms ->
  on_click_callback X q st
  = match turn X (classify (lower_other X) q) (chain_input ms q) with
    | (cs, Raise e) => (Raise e, with_calls st cs)
    | (cs, Ok a) =>
        (Ok tt,
         mkState (cells st ++ [message_of (human, q); message_of (ai, a)])
                 (Some (HList (items ++ [length (cells st); S (length (cells st))])))
                 (Some (history_text (ms ++ [(human, q); (ai, a)])))
                 (calls st ++ cs))
    end.
Proof.
  intros Hh Hms. rewrite on_click_callback_unfold, Hh.
  unfold bind at 1. unfold history_lines, bind at 1, get_state, lift.
  rewrite (holds_map _ _ _ Hms), context_lines_strings.
  unfold bind at 1. rewrite answer_of_run.
  fold (context_of ms). fold (chain_input ms q).
  destruct (turn X (classify (lower_other X) q) (chain_input ms q))
    as [cs [a|e]]; cbn [fst snd]; [|reflexivity].
  unfold bind at 1. unfold history_append at 1, bind at 1, get_state.
  cbn [with_calls history cells file calls]. rewrite Hh.
  unfold bind at 1, alloc, set_history. cbn [cells history file calls].
  unfold bind at 1. unfold history_append at 1, bind at 1, get_state.
  cbn [history]. unfold bind at 1, alloc, set_history.
  cbn [cells history file calls].
  unfold bind at 1, get_state. cbn [history].
  rewrite (save_chat_history_strings X _ (ms ++ [(human, q); (ai, a)])).
  - cbn [cells history file calls]. rewrite <- !app_assoc.
    rewrite length_app. cbn [length app]. rewrite Nat.add_1_r. reflexivity.
  - cbn [cells].
    change [(human, q); (ai, a)] with ([(human, q)] ++ [(ai, a)]).
    rewrite !app_assoc.
    pose proof (holds_snoc _ _ _ (human, q) Hms) as H1.
    pose proof (holds_snoc _ _ _ (ai, a) H1) as H2.
    exact H2.
Qed.

End Turn.

Section Frames.
Variable X : externals.

Lemma coerce_payloads_calls items : forall acc st,
  calls (snd (coerce_payloads X items acc st)) = calls st.
Proof.
  induction items as [|msg rest IH]; intros acc st; [reflexivity|].
  cbn [coerce_payloads]. unfold bind, read, lift.
  destruct (subscript (deref st msg) (lit "message")) as [p|e]; [|reflexivity].
  destruct (is_dict p).
  - unfold store_item. destruct (deref st msg); try reflexivity.
    rewrite IH. reflexivity.
  - unfold ret. rewrite IH. reflexivity.
Qed.

Lemma save_chat_history_calls items st :
  calls (snd (save_chat_history X items st)) = calls st.
Proof.
  unfold save_chat_history, bind.
  pose proof (coerce_payloads_calls items [] st) as H.
  destruct (coerce_payloads X items [] st) as [[l|e] st1]; [|exact H].
  cbn [snd] in H. unfold dump_to_file, bind, get_state.
  destruct (encode _) as [text [|]]; cbn; exact H.
Qed.

Lemma history_append_calls v st :
  calls (snd (history_append v st)) = calls st.
Proof.
  unfold history_append, bind, get_state.
  destruct (history st) as [[items|w]|]; reflexivity.
Qed.

Lemma history_lines_pure h st : snd (history_lines X h st) = st.
Proof.
  destruct h as [items|v]; cbn [history_lines].
  - unfold bind, get_state, lift. reflexivity.
  - destruct v as [| | | |[|]| |[|]|]; reflexivity.
Qed.

(** After the answer is there, nothing more is asked of the outside. *)
Lemma record_phase_calls q answer st :
  calls (snd ((run history_append (message (VStr (lit "human")) (VStr q));
               run history_append (message (VStr (lit "ai")) answer);
               do st' <- get_state;
               match history st' with
               | Some (HList items) => save_chat_history X items
               | _ => raise AttributeError
               end) st)) = calls st.
Proof.
  unfold bind at 1.
  pose proof (history_append_calls (message (VStr (lit "human")) (VStr q)) st) as H1.
  destruct (history_append _ st) as [[[]|e] st1]; [|exact H1]. cbn [snd] in H1.
  unfold bind at 1.
  pose proof (history_append_calls (message (VStr (lit "ai")) answer) st1) as H2.
  destruct (history_append _ st1) as [[[]|e] st2]; [|cbn [snd] in *; congruence].
  cbn [snd] in H2. unfold bind, get_state.
  destruct (history st2) as [[items|w]|]; cbn [raise snd]; try congruence.
  rewrite save_chat_history_calls. congruence.
Qed.

(** The calls of a submission on a list of message objects. *)
Lemma on_click_callback_calls q st items ops :
  history st = Some (HList items) ->
  points_to (cells st) items ops ->
  calls (after (on_click_callback X q) st)
  = calls st ++
    fst (turn X (classify (lower_other X) q)
           (join nl (map (fun op => py_str X (fst op) ++ lit ": "
                                    ++ py_str X (snd op)) ops)
            ++ nl ++ q)).
Proof.
  intros Hh Hops. unfold after. rewrite on_click_callback_unfold, Hh.
  assert (Hlines : context_lines X (map (deref st) items)
                   = Ok (map (fun op => py_str X (fst op) ++ lit ": "
                                        ++ py_str X (snd op)) ops)).
  { clear Hh. induction Hops as [|i op items ops (v & Hv & Ho & Hp) _ IH];
      [reflexivity|].
    cbn [map context_lines]. rewrite IH, (deref_lookup _ _ _ Hv).
    unfold context_line.
    destruct v as [| | | | | |d|]; try discriminate.
    cbn [origin payload] in Ho, Hp. unfold subscript. rewrite Ho, Hp.
    reflexivity. }
  unfold bind at 1. unfold history_lines, bind at 1, get_state, lift.
  rewrite Hlines. unfold bind at 1. rewrite answer_of_run.
  destruct (snd (turn X _ _)) as [a|e]; [|reflexivity].
  rewrite record_phase_calls. reflexivity.
Qed.

End Frames.

(* ===================================================================== *)
(** * What a submission asks, fails with and leaves                       *)
(* ===================================================================== *)

(** C2 (amended).  In a grounded turn the context is the messages of the
    history, each printed as its origin, a colon and a space, and its
    payload, joined by newlines in the order of the history; the
    retriever is asked with that context, a newline and the query; and
    the human message of the grounded prompt, the [{input}] placeholder,
    is filled with that same string, which is never the query alone. *)
Theorem grounded_turn_inputs (X : externals) (q : str) (st : state)
  (items : list nat) (ops : list (value * value)) :
  history st = Some (HList items) ->
  points_to (cells st) items ops ->
  classify (lower_other X) q = Grounded ->
  let context :=
    join nl (map (fun op => py_str X (fst op) ++ lit ": " ++ py_str X (snd op))
                 ops) in
  let input := context ++ nl ++ q in
  input <> q /\
  exists rest,
    calls (after (on_click_callback X q) st) = calls st ++ Retrieve input :: rest /\
    (forall e, retriever X input = Raise e -> rest = []) /\
    (forall docs, retriever X input = Ok docs ->
       exists sys, rest = [Complete [(System, sys); (Human, input)]]).
Proof.
  intros Hh Hops Hr context input. split.
  { intros E. apply (f_equal (@length N)) in E. subst input.
    rewrite !length_app in E. cbn [length nl] in E. lia. }
  rewrite (on_click_callback_calls X q st items ops Hh Hops), Hr.
  fold context. fold input. unfold turn.
  destruct (retriever X input) as [docs|e].
  - destruct (grounded_messages_shape docs input) as (sys & -> & _).
    eexists. split; [reflexivity|]. split; [discriminate|].
    intros docs' [= <-]. exists sys. reflexivity.
  - eexists. split; [reflexivity|]. split; [reflexivity | discriminate].
Qed.

Lemma grounded_turn_inputs_witness :
  let q := lit "when does the meeting start?" in
  let ops := [(VStr human, VStr (lit "hello")); (VStr ai, VStr (lit "hi"))] in
  let st := mkState [message (VStr human) (VStr (lit "hello"));
                     message (VStr ai) (VStr (lit "hi"))]
                    (Some (HList [0; 1]%nat)) None [] in
  let input := lit "human: hello" ++ nl ++ lit "ai: hi" ++ nl ++ q in
  input <> q /\
  exists rest,
    calls (after (on_click_callback demo q) st) = Retrieve input :: rest /\
    (forall e, retriever demo input = Raise e -> rest = []) /\
    (forall docs, retriever demo input = Ok docs ->
       exists sys, rest = [Complete [(System, sys); (Human, input)]]).
Proof.
  intros q ops st input.
  refine (grounded_turn_inputs demo q st [0; 1]%nat ops eq_refl _ eq_refl).
  repeat constructor; eexists; repeat split; reflexivity.
Defined.

(** C2 as stated fails already on an empty history: the human message of
    the prompt is a newline followed by the query. *)
Lemma grounded_prompt_input_not_raw_query :
  let q := lit "when does the meeting start?" in
  classify (lower_other demo) q = Grounded /\
  exists sys,
    calls (after (on_click_callback demo q) empty_session)
    = [Retrieve (nl ++ q); Complete [(System, sys); (Human, nl ++ q)]] /\
    nl ++ q <> q.
Proof.
  split; [vm_compute; reflexivity|].
  eexists. split; [vm_compute; reflexivity | discriminate].
Qed.

(** When the model fails on every prompt, every submission raises and
    changes nothing but the record of the calls. *)
Lemma model_down_changes_nothing (X : externals) (q : str) (st : state) :
  (forall p, exists e, llm X p = Raise e) ->
  exists e cs, on_click_callback X q st = (Raise e, with_calls st cs).
Proof.
  intros Hdown.
  assert (Hsame : with_calls st [] = st).
  { unfold with_calls. rewrite app_nil_r. destruct st; reflexivity. }
  rewrite on_click_callback_unfold.
  destruct (history st) as [h|].
  - unfold bind at 1. pose proof (history_lines_pure X h st) as Hpure.
    destruct (history_lines X h st) as [[lines|e] st1]; cbn [snd] in Hpure;
      subst st1.
    + unfold bind at 1. rewrite answer_of_run.
      assert (Hfail : exists e, snd (turn X (classify (lower_other X) q)
                                       (join nl lines ++ nl ++ q)) = Raise e).
      { unfold turn. destruct (classify (lower_other X) q).
        - destruct (retriever X _) as [docs|e]; [apply Hdown | eauto].
        - apply Hdown. }
      destruct Hfail as [e ->]. exists e. eexists. reflexivity.
    + exists e, []. rewrite Hsame. reflexivity.
  - exists AttributeError, []. rewrite Hsame. reflexivity.
Qed.

Lemma turn_prompt_fails (X : externals) r input p e :
  turn_prompt X r input = Some p -> llm X p = Raise e ->
  snd (turn X r input) = Raise e.
Proof.
  unfold turn_prompt, turn. destruct r.
  - destruct (retriever X input) as [docs|e']; [|discriminate].
    intros [= <-] H. exact H.
  - intros [= <-] H. exact H.
Qed.

(** C5.  In a turn that reaches the language model with prompt [p], if
    the model fails on [p] with [e] then the submission raises [e]: there
    is no answer, nothing is appended to the history, no object changes
    and the file is as it was.  Only the record of the calls grows. *)
Theorem failed_generation_changes_nothing (X : externals) (q : str)
  (st : state) (h : stored) (lines : list str) (p : list (role * str))
  (e : exn) :
  history st = Some h ->
  fst (history_lines X h st) = Ok lines ->
  turn_prompt X (classify (lower_other X) q) (join nl lines ++ nl ++ q)
  = Some p ->
  llm X p = Raise e ->
  exists cs,
    on_click_callback X q st = (Raise e, with_calls st cs) /\
    last cs = Some (Complete p) /\
    history (with_calls st cs) = history st /\
    cells (with_calls st cs) = cells st /\
    file (with_calls st cs) = file st.
Proof.
  intros Hh Hlines Hp Hfail.
  exists (fst (turn X (classify (lower_other X) q) (join nl lines ++ nl ++ q))).
  split; [|split; [|repeat split]].
  - rewrite on_click_callback_unfold, Hh. unfold bind at 1.
    pose proof (history_lines_pure X h st) as Hpure.
    destruct (history_lines X h st) as [[lines'|e'] st1];
      cbn [fst snd] in Hpure, Hlines; [|discriminate].
    subst st1. injection Hlines as ->.
    unfold bind at 1. rewrite answer_of_run.
    rewrite (turn_prompt_fails X _ _ p e Hp Hfail). reflexivity.
  - revert Hp. unfold turn_prompt, turn.
    destruct (classify (lower_other X) q).
    + destruct (retriever X _) as [docs|e']; [|discriminate].
      intros [= <-]. reflexivity.
    + intros [= <-]. reflexivity.
Qed.

Lemma failed_generation_changes_nothing_witness :
  let q := lit "tell me a joke" in
  let st := mkState [message (VStr human) (VStr (lit "hello"));
                     message (VStr ai) (VStr (lit "hi"))]
                    (Some (HList [0; 1]%nat))
                    (Some (history_text [(human, lit "hello"); (ai, lit "hi")]))
                    [] in
  let lines := [lit "human: hello"; lit "ai: hi"] in
  let p := general_messages (join nl lines ++ nl ++ q) in
  let e := ExternalError (lit "connection refused") in
  history st = Some (HList [0; 1]%nat) /\
  fst (history_lines model_down (HList [0; 1]%nat) st) = Ok lines /\
  turn_prompt model_down (classify (lower_other model_down) q)
    (join nl lines ++ nl ++ q) = Some p /\
  llm model_down p = Raise e /\
  exists cs,
    on_click_callback model_down q st = (Raise e, with_calls st cs) /\
    last cs = Some (Complete p) /\
    history (with_calls st cs) = history st /\
    cells (with_calls st cs) = cells st /\
    file (with_calls st cs) = file st.
Proof.
  intros q st lines p e.
  assert (H1 : fst (history_lines model_down (HList [0; 1]%nat) st) = Ok lines)
    by (vm_compute; reflexivity).
  assert (H2 : turn_prompt model_down (classify (lower_other model_down) q)
                 (join nl lines ++ nl ++ q) = Some p)
    by (vm_compute; reflexivity).
  split; [reflexivity|]. split; [exact H1|]. split; [exact H2|].
  split; [reflexivity|].
  exact (failed_generation_changes_nothing model_down q st (HList [0; 1]%nat)
           lines p e eq_refl H1 H2 eq_refl).
Defined.

(** C7.  Two submissions that both return, starting from an empty
    history, leave a history of four messages: the first query, its
    answer, the second query, its answer, in that order; after the first
    one the history holds the first query and then its answer. *)
Theorem two_submissions_four_messages (X : externals) (q1 q2 : str)
  (st0 st1 st2 : state) :
  history st0 = Some (HList []) ->
  on_click_callback X q1 st0 = (Ok tt, st1) ->
  on_click_callback X q2 st1 = (Ok tt, st2) ->
  exists i1 i2 i3 i4 a1 a2,
    history st1 = Some (HList [i1; i2]) /\
    map (deref st1) [i1; i2] = [message_of (human, q1); message_of (ai, a1)] /\
    history st2 = Some (HList [i1; i2; i3; i4]) /\
    length [i1; i2; i3; i4] = 4%nat /\
    map (deref st2) [i1; i2; i3; i4]
    = [message_of (human, q1); message_of (ai, a1);
       message_of (human, q2); message_of (ai, a2)] /\
    snd (turn X (classify (lower_other X) q1) (chain_input [] q1)) = Ok a1 /\
    snd (turn X (classify (lower_other X) q2)
           (chain_input [(human, q1); (ai, a1)] q2)) = Ok a2.
Proof.
  intros H0 R1 R2.
  rewrite (on_click_callback_strings X q1 st0 [] [] H0 ltac:(constructor)) in R1.
  destruct (turn X (classify (lower_other X) q1) (chain_input [] q1))
    as [cs1 [a1|e1]] eqn:T1; [|discriminate].
  injection R1 as <-.
  set (n := length (cells st0)) in *.
  set (st1 := mkState _ _ _ _) in *.
  assert (Hms1 : holds (cells st1) [n; S n] [(human, q1); (ai, a1)]).
  { pose proof (holds_snoc (cells st0) [] [] (human, q1) ltac:(constructor)) as P1.
    pose proof (holds_snoc _ _ _ (ai, a1) P1) as P2.
    cbn [app] in P2. rewrite <- app_assoc in P2.
    rewrite length_app in P2. cbn [length] in P2. fold n in P2.
    rewrite Nat.add_1_r in P2. exact P2. }
  rewrite (on_click_callback_strings X q2 st1 _ _ eq_refl Hms1) in R2.
  destruct (turn X (classify (lower_other X) q2)
              (chain_input [(human, q1); (ai, a1)] q2))
    as [cs2 [a2|e2]] eqn:T2; [|discriminate].
  injection R2 as <-.
  set (m := length (cells st1)) in *.
  exists n, (S n), m, (S m), a1, a2.
  assert (Hms2 : holds (cells st1 ++ [message_of (human, q2); message_of (ai, a2)])
                       [n; S n; m; S m]
                       [(human, q1); (ai, a1); (human, q2); (ai, a2)]).
  { pose proof (holds_snoc _ _ _ (human, q2) Hms1) as P1.
    pose proof (holds_snoc _ _ _ (ai, a2) P1) as P2.
    cbn [app] in P2. rewrite <- app_assoc in P2.
    rewrite length_app in P2. cbn [length] in P2. fold m in P2.
    rewrite Nat.add_1_r in P2. exact P2. }
  repeat split.
  - exact (holds_map st1 _ _ Hms1).
  - exact (holds_map (mkState _ _ _ _) _ _ Hms2).
  - rewrite T2. reflexivity.
Qed.

Lemma two_submissions_four_messages_witness :
  let q1 := lit "hello" in
  let q2 := lit "when does the meeting start?" in
  let st1 := after (on_click_callback demo q1) empty_session in
  let st2 := after (on_click_callback demo q2) st1 in
  history empty_session = Some (HList []) /\
  on_click_callback demo q1 empty_session = (Ok tt, st1) /\
  on_click_callback demo q2 st1 = (Ok tt, st2) /\
  exists i1 i2 i3 i4 a1 a2,
    history st1 = Some (HList [i1; i2]) /\
    map (deref st1) [i1; i2] = [message_of (human, q1); message_of (ai, a1)] /\
    history st2 = Some (HList [i1; i2; i3; i4]) /\
    length [i1; i2; i3; i4] = 4%nat /\
    map (deref st2) [i1; i2; i3; i4]
    = [message_of (human, q1); message_of (ai, a1);
       message_of (human, q2); message_of (ai, a2)] /\
    snd (turn demo (classify (lower_other demo) q1) (chain_input [] q1)) = Ok a1 /\
    snd (turn demo (classify (lower_other demo) q2)
           (chain_input [(human, q1); (ai, a1)] q2)) = Ok a2.
Proof.
  intros q1 q2 st1 st2.
  assert (R1 : on_click_callback demo q1 empty_session = (Ok tt, st1))
    by (vm_compute; reflexivity).
  assert (R2 : on_click_callback demo q2 st1 = (Ok tt, st2))
    by (vm_compute; reflexivity).
  split; [reflexivity|]. split; [exact R1|]. split; [exact R2|].
  exact (two_submissions_four_messages demo q1 q2 empty_session st1 st2
           eq_refl R1 R2).
Defined.

(* ===================================================================== *)
(** * Clearing and loading                                                *)
(* ===================================================================== *)

Lemma clear_chat_history_run st :
  clear_chat_history st
  = (Ok tt, mkState (cells st) (history st) None (calls st)).
Proof. destruct st as [cs h [text|] log]; reflexivity. Qed.

Lemma new_chat_run st :
  new_chat st = (Ok tt, mkState (cells st) (Some (HList [])) None (calls st)).
Proof. destruct st as [cs h [text|] log]; reflexivity. Qed.

(** C8.  Clearing works from every state and clearing again changes
    nothing: [clear_chat_history] returns whether or not the file exists
    and leaves no file; the "New Chat" button handler also leaves the
    session history empty; a second call returns too and leaves the same
    state. *)
Theorem clear_twice (st : state) :
  (exists st1,
     clear_chat_history st = (Ok tt, st1) /\
     clear_chat_history st1 = (Ok tt, st1) /\
     file st1 = None /\ history st1 = history st /\ cells st1 = cells st) /\
  (exists st2,
     new_chat st = (Ok tt, st2) /\
     new_chat st2 = (Ok tt, st2) /\
     file st2 = None /\ history st2 = Some (HList []) /\ cells st2 = cells st).
Proof.
  split; eexists.
  - rewrite !clear_chat_history_run. repeat split.
  - rewrite !new_chat_run. repeat split.
Qed.

Section Loading.
Variable X : externals.

Lemma alloc_all_run vs : forall st,
  alloc_all vs st
  = (Ok (seq (length (cells st)) (length vs)),
     mkState (cells st ++ vs) (history st) (file st) (calls st)).
Proof.
  induction vs as [|v vs IH]; intros st.
  - simpl. unfold ret. rewrite app_nil_r. destruct st; reflexivity.
  - cbn [alloc_all]. unfold bind at 1, alloc. unfold bind at 1.
    rewrite IH. cbn [cells history file calls ret length seq].
    rewrite length_app, <- app_assoc. cbn [length app].
    rewrite Nat.add_1_r. reflexivity.
Qed.

Lemma holds_fresh cs ms :
  holds (cs ++ map message_of ms) (seq (length cs) (length ms)) ms.
Proof.
  revert cs. induction ms as [|om ms IH]; intros cs; [constructor|].
  cbn [map length seq]. constructor.
  - rewrite lookup_app_r by lia. rewrite Nat.sub_diag. reflexivity.
  - specialize (IH (cs ++ [message_of om])).
    rewrite length_app, <- app_assoc in IH. cbn [length app] in IH.
    rewrite Nat.add_1_r in IH. exact IH.
Qed.

(** A new session on a file that [save_chat_history] wrote for string
    messages. *)
Lemma initialize_from_written_file st ms :
  history st = None -> file st = Some (history_text ms) ->
  initialize_session_state X st
  = (Ok tt,
     mkState (cells st ++ map message_of (map reread_message ms))
             (Some (HList (seq (length (cells st)) (length ms))))
             (file st) (calls st)).
Proof.
  intros Hh Hf. unfold initialize_session_state, bind at 1, get_state.
  rewrite Hh. unfold bind at 1, load_chat_history. rewrite Hf.
  rewrite json_loads_history by apply nesting_room.
  unfold bind at 1, adopt, bind at 1.
  rewrite alloc_all_run. unfold ret, set_history.
  cbn [cells history file calls]. rewrite !length_map, Hf. reflexivity.
Qed.

Lemma initialize_without_file st :
  history st = None -> file st = None ->
  initialize_session_state X st
  = (Ok tt, mkState (cells st) (Some (HList [])) None (calls st)).
Proof.
  intros Hh Hf. unfold initialize_session_state, bind at 1, get_state.
  rewrite Hh. unfold bind at 1, load_chat_history. rewrite Hf.
  unfold bind at 1, adopt, bind at 1. cbn [alloc_all]. unfold ret, set_history.
  rewrite Hf. reflexivity.
Qed.

Lemma initialize_with_history st h :
  history st = Some h -> initialize_session_state X st = (Ok tt, st).
Proof.
  intros Hh. unfold initialize_session_state, bind, get_state.
  rewrite Hh. reflexivity.
Qed.

(** C3 (amended).  [load_chat_history] changes nothing; without a file it
    returns the empty list; with a file it returns what [json.load] gives
    for the text: a value, or one of the three exceptions of the decoder,
    which it lets through to its caller.  These are [JSONDecodeError] for
    text that is not a JSON document (a blank file, for one),
    [RecursionError] for brackets deeper than the interpreter can enter
    and [ValueError] for an integer of more digits than [int] converts.
    A file written by [save_chat_history] for string messages loads; and
    [initialize_session_state] lets the same errors through. *)
Theorem load_chat_history_outcomes (st : state) :
  snd (load_chat_history X st) = st /\
  match file st with
  | None => fst (load_chat_history X st) = Ok (VList [])
  | Some text =>
      fst (load_chat_history X st)
      = json_loads (float_shown X) (max_str_digits X) (nesting_limit X) text /\
      ((exists v, fst (load_chat_history X st) = Ok v) \/
       fst (load_chat_history X st) = Raise JSONDecodeError \/
       fst (load_chat_history X st) = Raise RecursionError \/
       fst (load_chat_history X st) = Raise ValueError) /\
      (skip_ws text = [] ->
       fst (load_chat_history X st) = Raise JSONDecodeError) /\
      (forall tail, text = repeat 91%N (S (nesting_limit X)) ++ tail ->
       fst (load_chat_history X st) = Raise RecursionError) /\
      (forall c ds, text = c :: ds ->
       is_digit c = true -> c <> 48%N -> forallb is_digit ds = true ->
       too_many_digits (max_str_digits X) text = true ->
       fst (load_chat_history X st) = Raise ValueError) /\
      (forall ms, text = history_text ms ->
       fst (load_chat_history X st)
       = Ok (VList (map message_of (map reread_message ms))))
  end /\
  (history st = None ->
   fst (initialize_session_state X st)
   = match fst (load_chat_history X st) with
     | Ok _ => Ok tt
     | Raise e => Raise e
     end).
Proof.
  unfold load_chat_history. split; [destruct (file st); reflexivity|]. split.
  - destruct (file st) as [text|]; [|reflexivity]. cbn [fst].
    split; [reflexivity|]. split; [apply json_loads_total|]. split; [|split; [|split]].
    + intros Hblank. unfold json_loads. rewrite Hblank.
      rewrite Nat.add_1_r. reflexivity.
    + intros tail ->. apply json_loads_too_deep.
    + intros c ds -> Hc H0 Hds Hlong.
      apply json_loads_long_integer; assumption.
    + intros ms ->. apply json_loads_history, nesting_room.
  - intros Hh. unfold initialize_session_state, bind at 1, get_state.
    rewrite Hh. unfold bind at 1, load_chat_history.
    destruct (file st) as [text|]; cbn [fst].
    + destruct (json_loads (float_shown X) (max_str_digits X)
                  (nesting_limit X) text) as [v|e]; [|reflexivity].
      unfold bind at 1, adopt.
      destruct v; try reflexivity.
      unfold bind at 1. rewrite alloc_all_run. reflexivity.
    + reflexivity.
Qed.

End Loading.

(** C3 as stated fails: on a file that is not a JSON document the error
    reaches the caller, and the caller of [initialize_session_state]. *)
Lemma load_chat_history_raises_on_malformed_file :
  let st := mkState [] None (Some (lit "[{")) [] in
  load_chat_history demo st = (Raise JSONDecodeError, st) /\
  fst (load_chat_history demo st) <> Ok (VList []) /\
  initialize_session_state demo st = (Raise JSONDecodeError, st).
Proof. repeat split; try discriminate; vm_compute; reflexivity. Qed.

(* ===================================================================== *)
(** * Saving, then a new session                                          *)
(* ===================================================================== *)

Lemma script_run_rerun (X : externals) st :
  script_run X false st = initialize_session_state X st.
Proof. reflexivity. Qed.

Lemma reread_message_plain ms :
  Forall (fun om => plain_text (fst om) /\ plain_text (snd om)) ms ->
  map reread_message ms = ms.
Proof.
  induction 1 as [|[o m] ms [Ho Hm] _ IH]; [reflexivity|].
  cbn [map]. rewrite IH. unfold reread_message. cbn [fst snd] in *.
  rewrite !reread_plain by assumption. reflexivity.
Qed.

(** C4 (amended).  For a history of string messages in which no high
    surrogate is directly followed by a low surrogate, saving succeeds
    and leaves the messages in memory as they are, and a new session
    then loads a history equal to it, message for message and in the
    same order. *)
Theorem save_then_restart_restores (X : externals) (st : state)
  (items : list nat) (ms : list (str * str)) :
  holds (cells st) items ms ->
  Forall (fun om => plain_text (fst om) /\ plain_text (snd om)) ms ->
  let st1 := after (save_chat_history X items) st in
  let st2 := step X st1 Restart in
  save_chat_history X items st = (Ok tt, st1) /\
  map (deref st1) items = map message_of ms /\
  fst (load_chat_history X (new_session st1)) = Ok (VList (map message_of ms)) /\
  exists items',
    history st2 = Some (HList items') /\
    map (deref st2) items' = map message_of ms.
Proof.
  intros Hms Hplain st1 st2.
  pose proof (save_chat_history_strings X items ms st Hms) as Hsave.
  assert (E1 : st1 = mkState (cells st) (history st)
                             (Some (history_text ms)) (calls st)).
  { unfold st1, after. rewrite Hsave. reflexivity. }
  split; [rewrite E1; exact Hsave|].
  split; [rewrite E1; apply (holds_map (mkState _ _ _ _)); exact Hms|].
  split.
  { rewrite E1. unfold load_chat_history, new_session. cbn [file fst].
    rewrite json_loads_history by apply nesting_room.
    rewrite reread_message_plain by exact Hplain.
    reflexivity. }
  assert (Hf : file (new_session st1) = Some (history_text ms))
    by (rewrite E1; reflexivity).
  pose proof (initialize_from_written_file X (new_session st1) ms eq_refl Hf)
    as Hinit.
  rewrite reread_message_plain in Hinit by exact Hplain.
  unfold st2, step, after. rewrite script_run_rerun, Hinit.
  cbn [snd history]. eexists. split; [reflexivity|].
  apply holds_map. cbn [cells new_session]. apply holds_fresh.
Qed.

Lemma save_then_restart_restores_witness :
  let ms := [(human, lit "hello"); (ai, [72; 105; 33; 128512]%N)] in
  let st := mkState (map message_of ms) (Some (HList [0; 1]%nat)) None [] in
  let st1 := after (save_chat_history demo [0; 1]%nat) st in
  let st2 := step demo st1 Restart in
  holds (cells st) [0; 1]%nat ms /\
  Forall (fun om => plain_text (fst om) /\ plain_text (snd om)) ms /\
  save_chat_history demo [0; 1]%nat st = (Ok tt, st1) /\
  map (deref st1) [0; 1]%nat = map message_of ms /\
  fst (load_chat_history demo (new_session st1)) = Ok (VList (map message_of ms)) /\
  exists items',
    history st2 = Some (HList items') /\
    map (deref st2) items' = map message_of ms.
Proof.
  intros ms st st1 st2.
  assert (H1 : holds (cells st) [0; 1]%nat ms) by (repeat constructor).
  assert (H2 : Forall (fun om => plain_text (fst om) /\ plain_text (snd om)) ms).
  { repeat constructor; cbn; try reflexivity; lia. }
  split; [exact H1|]. split; [exact H2|].
  exact (save_then_restart_restores demo st [0; 1]%nat ms H1 H2).
Defined.

(** C4 as stated fails for a string that holds a surrogate pair as two
    code points: it is written as two escapes and read back as the one
    code point U+1F600. *)
Lemma split_surrogate_pair_not_restored :
  let m := [55357; 56832]%N in
  let st := mkState [message_of (human, m)] (Some (HList [0%nat])) None [] in
  let st1 := after (save_chat_history demo [0%nat]) st in
  let st2 := step demo st1 Restart in
  save_chat_history demo [0%nat] st = (Ok tt, st1) /\
  map (deref st1) [0%nat] = [message_of (human, m)] /\
  history st2 = Some (HList [1%nat]) /\
  map (deref st2) [1%nat] = [message_of (human, [128512%N])] /\
  map (deref st2) [1%nat] <> map (deref st1) [0%nat].
Proof.
  repeat split; try (vm_compute; reflexivity).
  vm_compute. discriminate.
Qed.

(* ===================================================================== *)
(** * The invariant of a running application                              *)
(* ===================================================================== *)

Section Invariant.
Variable X : externals.

Lemma known_origin_reread ms :
  Forall known_origin ms -> Forall known_origin (map reread_message ms).
Proof.
  induction 1 as [|[o m] ms Ho _ IH]; [constructor|].
  cbn [map]. constructor; [|exact IH].
  unfold known_origin, reread_message in *. cbn [fst snd] in *.
  destruct Ho as [-> | ->]; [left | right]; vm_compute; reflexivity.
Qed.

Lemma tidy_on_click_callback q st :
  tidy st -> tidy (after (on_click_callback X q) st).
Proof.
  intros [Hh Hf]. unfold after.
  destruct Hh as [Hnone | (items & ms & Hh & Hms & Hknown)].
  - rewrite on_click_callback_unfold, Hnone. split; [left; exact Hnone | exact Hf].
  - rewrite (on_click_callback_strings X q st items ms Hh Hms).
    destruct (turn X _ _) as [cs [a|e]]; cbn [snd].
    + split; cbn [history file cells]; right.
      * exists (items ++ [length (cells st); S (length (cells st))]),
               (ms ++ [(human, q); (ai, a)]).
        split; [reflexivity|]. split.
        -- pose proof (holds_snoc _ _ _ (human, q) Hms) as P1.
           pose proof (holds_snoc _ _ _ (ai, a) P1) as P2.
           rewrite <- !app_assoc in P2. rewrite length_app in P2.
           cbn [length app] in P2. rewrite Nat.add_1_r in P2. exact P2.
        -- apply Forall_app. split; [exact Hknown|].
           constructor; [left; reflexivity|].
           constructor; [right; reflexivity | constructor].
      * exists (ms ++ [(human, q); (ai, a)]). split; [reflexivity|].
        apply Forall_app. split; [exact Hknown|].
        constructor; [left; reflexivity|].
           constructor; [right; reflexivity | constructor].
    + split; cbn [with_calls history file cells]; [|exact Hf].
      right. exists items, ms. auto.
Qed.

Lemma tidy_initialize st :
  tidy st -> tidy (after (initialize_session_state X) st).
Proof.
  intros [Hh Hf]. unfold after.
  destruct Hh as [Hnone | (items & ms & Hh & Hms & Hknown)].
  - destruct Hf as [Hf | (ms & Hf & Hknown)].
    + rewrite initialize_without_file by assumption. cbn [snd].
      split; [right | left; reflexivity].
      exists [], []. repeat split; constructor.
    + rewrite (initialize_from_written_file X st ms) by assumption.
      cbn [snd]. split; cbn [history file cells].
      * right. eexists _, (map reread_message ms). split; [reflexivity|].
        split; [|apply known_origin_reread, Hknown].
        rewrite <- (length_map reread_message ms). apply holds_fresh.
      * right. exists ms. auto.
  - rewrite (initialize_with_history X st _ Hh). cbn [snd].
    split; [right; exists items, ms; auto | exact Hf].
Qed.

Lemma tidy_new_chat st : tidy (after new_chat st).
Proof.
  unfold after. rewrite new_chat_run. cbn [snd]. split.
  - right. exists [], []. repeat split; constructor.
  - left. reflexivity.
Qed.

Lemma tidy_new_session st : tidy st -> tidy (new_session st).
Proof. intros [_ Hf]. split; [left; reflexivity | exact Hf]. Qed.

Lemma script_run_new_chat st :
  after (script_run X true) st = after new_chat st.
Proof.
  unfold after, script_run, bind. rewrite new_chat_run.
  rewrite (initialize_with_history X _ (HList [])) by reflexivity.
  reflexivity.
Qed.

(** Every event keeps the invariant. *)
Lemma tidy_step st e : tidy st -> tidy (step X st e).
Proof.
  intros H. destruct e as [q | |]; unfold step.
  - unfold after at 1. rewrite script_run_rerun.
    apply tidy_initialize, tidy_on_click_callback, H.
  - rewrite script_run_new_chat. apply tidy_new_chat.
  - unfold after. rewrite script_run_rerun.
    apply tidy_initialize, tidy_new_session, H.
Qed.

Lemma tidy_fresh : tidy fresh.
Proof. split; left; reflexivity. Qed.

Lemma tidy_fold es : forall st, tidy st -> tidy (fold_left (step X) es st).
Proof.
  induction es as [|e es IH]; intros st H; [exact H|].
  cbn [fold_left]. apply IH, tidy_step, H.
Qed.

(** C9.  Whatever happens to an application that starts on a machine
    without a history file (submissions that return or fail, "New Chat",
    new sessions that load the file), the session history is a list of
    messages whose origin is ["human"] or ["ai"], and so is what the file
    holds. *)
Theorem origins_stay_known (es : list event) :
  let st := run_events X es in
  tidy st /\
  match history st with
  | None => True
  | Some (HOther _) => False
  | Some (HList items) =>
      Forall (fun i => exists o m,
                cells st !! i = Some (message (VStr o) (VStr m)) /\
                (o = lit "human" \/ o = lit "ai")) items
  end.
Proof.
  intros st. assert (H : tidy st) by (apply tidy_fold, tidy_fresh).
  split; [exact H|].
  destruct H as [[-> | (items & ms & -> & Hms & Hknown)] _]; [exact I|].
  induction Hms as [|i [o m] items ms Hi _ IH]; [constructor|].
  apply Forall_cons in Hknown as [Ho Hknown].
  constructor; [|exact (IH Hknown)].
  exists o, m. split; [exact Hi | exact Ho].
Qed.

End Invariant.

(* ===================================================================== *)
(** * Payloads that are not strings                                       *)
(* ===================================================================== *)

(** C10.  [save_chat_history] works on the caller's message objects:
    after a call on a list of messages, whether or not the dump then
    succeeds, every message of the list that had a dictionary payload has
    the string [str()] gives for it as its payload, no message of the
    list has a dictionary payload, the messages whose payload was not a
    dictionary (strings among them) are unchanged, and so is every
    object outside the list. *)
Theorem save_coerces_in_place (X : externals) (items : list nat) (st : state) :
  (forall i, i ∈ items -> has_payload (cells st) i) ->
  let st' := after (save_chat_history X items) st in
  history st' = history st /\
  length (cells st') = length (cells st) /\
  (forall i v p,
     i ∈ items -> cells st !! i = Some v -> payload v = Some p ->
     exists v' p',
       cells st' !! i = Some v' /\ payload v' = Some p' /\ is_dict p' = false /\
       (is_dict p = true ->
        p' = VStr (py_str X p) /\
        exists d, v = VDict d /\
                  v' = VDict (dict_set (lit "message") (VStr (py_str X p)) d)) /\
       (is_dict p = false -> v' = v)) /\
  (forall i, i ∉ items -> cells st' !! i = cells st !! i).
Proof.
  intros Hall st'.
  assert (E : cells st' = coerce_cells X items (cells st)
              /\ history st' = history st).
  { unfold st', after. rewrite save_chat_history_run by exact Hall.
    cbn zeta. destruct (encode _) as [text ok]. split; reflexivity. }
  destruct E as [Ec Eh]. rewrite Ec. split; [exact Eh|].
  split; [apply coerce_cells_length|]. split.
  - intros i v p Hi Hv Hp. rewrite coerce_cells_lookup, Hv.
    destruct (decide (i ∈ items)) as [_|Hn]; [|contradiction]. cbn [fmap option_fmap option_map].
    destruct (payload_coerce_value X v p Hp) as (p' & Hp' & Hd & Hsame & Hdict).
    exists (coerce_value X v), p'. repeat split; try assumption.
    + destruct (Hdict H) as (d & -> & E). rewrite E in Hp'. cbn [payload] in Hp'.
      rewrite dict_get_set in Hp'. congruence.
    + destruct (Hdict H) as (d & -> & E). exists d. split; [reflexivity | exact E].
  - intros i Hi. rewrite coerce_cells_lookup.
    destruct (decide (i ∈ items)); [contradiction | reflexivity].
Qed.

Lemma save_coerces_in_place_witness :
  let note := VDict [(lit "topic", VStr (lit "budget"))] in
  let st := mkState [message (VStr human) (VStr (lit "hello"));
                     message (VStr ai) note]
                    (Some (HList [0; 1]%nat)) None [] in
  let st' := after (save_chat_history demo [0; 1]%nat) st in
  (forall i, i ∈ [0; 1]%nat -> has_payload (cells st) i) /\
  cells st' = [message (VStr human) (VStr (lit "hello"));
               message (VStr ai) (VStr (lit "<object>"))] /\
  history st' = history st /\
  length (cells st') = length (cells st) /\
  (forall i v p,
     i ∈ [0; 1]%nat -> cells st !! i = Some v -> payload v = Some p ->
     exists v' p',
       cells st' !! i = Some v' /\ payload v' = Some p' /\ is_dict p' = false /\
       (is_dict p = true ->
        p' = VStr (py_str demo p) /\
        exists d, v = VDict d /\
                  v' = VDict (dict_set (lit "message") (VStr (py_str demo p)) d)) /\
       (is_dict p = false -> v' = v)) /\
  (forall i, i ∉ [0; 1]%nat -> cells st' !! i = cells st !! i).
Proof.
  intros note st st'.
  assert (H : forall i, i ∈ [0; 1]%nat -> has_payload (cells st) i).
  { intros i Hi. apply elem_of_cons in Hi as [->|Hi];
      [|apply elem_of_cons in Hi as [->|Hi]; [|inversion Hi]];
      eexists _, _; split; reflexivity. }
  split; [exact H|]. split; [vm_compute; reflexivity|].
  exact (save_coerces_in_place demo [0; 1]%nat st H).
Defined.

(** C6 on the code: a payload that is an object of another class than
    [dict] (the [Document] the comments of [save_chat_history] speak of)
    is not replaced by a string; the encoder stops at it with
    [TypeError], and the file is left with the text written before it. *)
Theorem document_payload_is_not_coerced :
  let doc := VObject (lit "Document") (lit "page_content='agenda'") in
  let st := mkState [message (VStr ai) doc] (Some (HList [0%nat]))
                    (Some (history_text [])) [] in
  save_chat_history demo [0%nat] st
  = (Raise TypeError,
     mkState [message (VStr ai) doc] (Some (HList [0%nat]))
             (Some (lit "[{" ++ encode_str (lit "origin") ++ colon_space
                    ++ encode_str ai ++ comma_space
                    ++ encode_str (lit "message") ++ colon_space))
             []).
Proof. vm_compute. reflexivity. Qed.

(** A list payload is not a dictionary either: it is written as a JSON
    array, not as a string. *)
Example list_payload_is_not_coerced :
  let st := mkState [message (VStr ai) (VList [VInt 1; VInt 2])]
                    (Some (HList [0%nat])) None [] in
  save_chat_history demo [0%nat] st
  = (Ok tt,
     mkState [message (VStr ai) (VList [VInt 1; VInt 2])] (Some (HList [0%nat]))
             (Some (lit "[{" ++ encode_str (lit "origin") ++ colon_space
                    ++ encode_str ai ++ comma_space
                    ++ encode_str (lit "message") ++ colon_space
                    ++ lit "[1, 2]}]"))
             []).
Proof. vm_compute. reflexivity. Qed.

(* ===================================================================== *)
(** * More on the query router                                            *)
(* ===================================================================== *)

Lemma ascii_fold_upper c : ascii_fold (ascii_upper c) = ascii_fold c.
Proof.
  unfold ascii_fold, ascii_upper, is_ascii_upper.
  destruct (N.leb_spec 97 c), (N.leb_spec c 122); cbn [andb];
    repeat match goal with
    | |- context [(?a <=? ?b)%N] => destruct (N.leb_spec a b)
    end; cbn [andb]; lia.
Qed.

Lemma ascii_fold_idem c : ascii_fold (ascii_fold c) = ascii_fold c.
Proof.
  unfold ascii_fold, is_ascii_upper.
  destruct (N.leb_spec 65 c), (N.leb_spec c 90); cbn [andb];
    repeat match goal with
    | |- context [(?a <=? ?b)%N] => destruct (N.leb_spec a b)
    end; cbn [andb]; lia.
Qed.

(** Rewriting letters without changing what they fold to moves no
    occurrence. *)
Lemma occurs_ignoring_case_map (f : N -> N) kw q :
  (forall c, ascii_fold (f c) = ascii_fold c) ->
  occurs_ignoring_case kw (map f q) <-> occurs_ignoring_case kw q.
Proof.
  intros Hf.
  assert (Hrun : forall s, Forall2 same_letter (map f s) kw
                           <-> Forall2 same_letter s kw).
  { intros s. revert kw. induction s as [|c s IH]; intros kw'; cbn [map].
    - split; intros H; inversion H; constructor.
    - split; intros H; inversion H as [|? k ? kw'' Hc Hs]; subst;
        constructor; try (apply IH; exact Hs);
        unfold same_letter in *; rewrite Hf in *; exact Hc. }
  split.
  - intros (pre & s & suf & E & Hs).
    apply map_eq_app in E as (pre' & rest & -> & <- & E).
    apply map_eq_app in E as (s' & suf' & -> & <- & <-).
    exists pre', s', suf'. split; [reflexivity|]. apply Hrun, Hs.
  - intros (pre & s & suf & -> & Hs).
    exists (map f pre), (map f s), (map f suf). rewrite !map_app.
    split; [reflexivity|]. apply Hrun, Hs.
Qed.

Lemma is_coimbatore_query_iff lower_other (tables : unicode_lower_ok lower_other) q :
  is_coimbatore_query lower_other q = true <-> occurs_ignoring_case keyword q.
Proof.
  split.
  - apply contains_lower_inv; exact tables.
  - apply contains_lower_intro.
Qed.

Lemma is_coimbatore_query_ext lower_other (tables : unicode_lower_ok lower_other) q q' :
  (occurs_ignoring_case keyword q <-> occurs_ignoring_case keyword q') ->
  is_coimbatore_query lower_other q = is_coimbatore_query lower_other q'.
Proof.
  intros H.
  pose proof (is_coimbatore_query_iff lower_other tables q) as E.
  pose proof (is_coimbatore_query_iff lower_other tables q') as E'.
  destruct (is_coimbatore_query lower_other q),
           (is_coimbatore_query lower_other q'); try reflexivity.
  - symmetry. apply E', H, E. reflexivity.
  - apply E, H, E'. reflexivity.
Qed.

(** X1.  Changing the case of the ASCII letters of a query does not
    change its route: the query in upper case, the query in lower case
    and the query itself are classified alike. *)
Theorem route_ignores_ascii_case (lower_other : str -> str -> N -> str)
  (tables : unicode_lower_ok lower_other) (q : str) :
  classify lower_other (map ascii_upper q) = classify lower_other q /\
  classify lower_other (map ascii_fold q) = classify lower_other q.
Proof.
  unfold classify. split.
  - rewrite (is_coimbatore_query_ext lower_other tables (map ascii_upper q) q);
      [reflexivity|].
    apply occurs_ignoring_case_map, ascii_fold_upper.
  - rewrite (is_coimbatore_query_ext lower_other tables (map ascii_fold q) q);
      [reflexivity|].
    apply occurs_ignoring_case_map, ascii_fold_idem.
Qed.

Lemma route_ignores_ascii_case_witness :
  let q := lit "Is the Meeting over?" in
  unicode_lower_ok lower_keep /\
  map ascii_upper q = lit "IS THE MEETING OVER?" /\
  classify lower_keep (map ascii_upper q) = classify lower_keep q /\
  classify lower_keep (map ascii_fold q) = classify lower_keep q.
Proof.
  split; [exact lower_keep_ok|]. split; [vm_compute; reflexivity|].
  exact (route_ignores_ascii_case lower_keep lower_keep_ok
           (lit "Is the Meeting over?")).
Defined.

(** X2.  A query of fewer than seven code points, the empty query among
    them, is never grounded. *)
Theorem short_query_is_general (lower_other : str -> str -> N -> str)
  (tables : unicode_lower_ok lower_other) (q : str) :
  (length q < 7)%nat -> classify lower_other q = General.
Proof.
  intros Hlen. unfold classify.
  destruct (is_coimbatore_query lower_other q) eqn:E; [|reflexivity].
  apply (is_coimbatore_query_iff lower_other tables) in E
    as (pre & s & suf & -> & Hs).
  apply Forall2_length in Hs. rewrite !length_app, Hs in Hlen.
  cbn [length keyword] in Hlen. lia.
Qed.

Lemma short_query_is_general_witness :
  unicode_lower_ok lower_keep /\ (length (lit "meetin") < 7)%nat /\
  classify lower_keep (lit "meetin") = General /\
  classify lower_keep [] = General.
Proof.
  split; [exact lower_keep_ok|]. split; [vm_compute; lia|]. split.
  - apply (short_query_is_general lower_keep lower_keep_ok (lit "meetin")).
    vm_compute. lia.
  - apply (short_query_is_general lower_keep lower_keep_ok []).
    simpl. lia.
Defined.

(** X3.  Text added before or after a grounded query leaves it grounded:
    the router looks for the keyword anywhere, inside longer words too. *)
Theorem grounded_query_stays_grounded (lower_other : str -> str -> N -> str)
  (tables : unicode_lower_ok lower_other) (q before after : str) :
  classify lower_other q = Grounded ->
  classify lower_other (before ++ q ++ after) = Grounded.
Proof.
  unfold classify. intros H.
  destruct (is_coimbatore_query lower_other q) eqn:E; [|discriminate].
  apply (is_coimbatore_query_iff lower_other tables) in E
    as (pre & s & suf & -> & Hs).
  assert (E : is_coimbatore_query lower_other
                (before ++ (pre ++ s ++ suf) ++ after) = true).
  { apply (is_coimbatore_query_iff lower_other tables).
    exists (before ++ pre), s, (suf ++ after).
    rewrite <- !app_assoc. split; [reflexivity | exact Hs]. }
  rewrite E. reflexivity.
Qed.

Lemma grounded_query_stays_grounded_witness :
  unicode_lower_ok lower_keep /\
  classify lower_keep (lit "meeting") = Grounded /\
  classify lower_keep (lit "pre" ++ lit "meeting" ++ lit "s today") = Grounded.
Proof.
  assert (H : classify lower_keep (lit "meeting") = Grounded)
    by (vm_compute; reflexivity).
  split; [exact lower_keep_ok|]. split; [exact H|].
  exact (grounded_query_stays_grounded lower_keep lower_keep_ok
           (lit "meeting") (lit "pre") (lit "s today") H).
Defined.

(* ===================================================================== *)
(** * More on [save_chat_history]                                         *)
(* ===================================================================== *)

Lemma str_eqb_neq a b : a <> b -> str_eqb a b = false.
Proof.
  intros H. destruct (str_eqb a b) eqn:E; [|reflexivity].
  apply str_eqb_eq in E. contradiction.
Qed.

Lemma dict_get_set_ne k k' v d :
  k <> k' -> dict_get k (dict_set k' v d) = dict_get k d.
Proof.
  intros Hne. induction d as [|[k0 v0] d IH]; simpl.
  - rewrite str_eqb_neq by exact Hne. reflexivity.
  - destruct (str_eqb k' k0) eqn:E; simpl.
    + apply str_eqb_eq in E. subst k0. rewrite !str_eqb_neq by exact Hne.
      reflexivity.
    + rewrite IH. reflexivity.
Qed.

Section SaveMore.
Variable X : externals.

(** The loop replaces an object by its coerced form or leaves it. *)
Lemma coerce_value_other_keys v k :
  k <> lit "message" -> subscript (coerce_value X v) k = subscript v k.
Proof.
  intros Hk. destruct v as [| | | | | |d|]; try reflexivity.
  cbn [coerce_value]. destruct (dict_get (lit "message") d) as [p|];
    [|reflexivity].
  destruct (is_dict p); [|reflexivity].
  cbn [subscript]. rewrite dict_get_set_ne by exact Hk. reflexivity.
Qed.

Lemma coerce_payloads_frame items : forall acc st,
  let st' := snd (coerce_payloads X items acc st) in
  history st' = history st /\ file st' = file st /\ calls st' = calls st /\
  length (cells st') = length (cells st) /\
  (forall i, cells st' !! i = cells st !! i \/
             cells st' !! i = coerce_value X <$> cells st !! i).
Proof.
  induction items as [|msg rest IH]; intros acc st; cbn zeta.
  - cbn [coerce_payloads ret snd]. repeat apply conj; try reflexivity.
    intros i. left. reflexivity.
  - cbn [coerce_payloads]. unfold bind, read, lift.
    destruct (subscript (deref st msg) (lit "message")) as [p|e] eqn:Hp.
    2:{ cbn [snd]. repeat apply conj; try reflexivity.
        intros i. left. reflexivity. }
    destruct (is_dict p) eqn:Hd.
    + unfold store_item. unfold deref in Hp |- *.
      destruct (cells st !! msg) as [v|] eqn:Hv; [|discriminate].
      destruct v as [| | | | | |d|]; try discriminate.
      cbn [subscript] in Hp.
      destruct (dict_get (lit "message") d) as [p'|] eqn:Hg; [|discriminate].
      injection Hp as ->.
      match goal with |- context [coerce_payloads X rest ?a ?s] =>
        specialize (IH a s) end.
      cbn zeta in IH. cbn [cells history file calls] in IH.
      destruct IH as (H1 & H2 & H3 & H4 & H5).
      rewrite length_insert in H4. repeat apply conj; try assumption.
      intros i. destruct (decide (i = msg)) as [->|Hne].
      * right. rewrite Hv. cbn [fmap option_fmap option_map coerce_value].
        rewrite Hg, Hd.
        destruct (H5 msg) as [E|E]; rewrite E;
          rewrite list_lookup_insert_eq by (eapply lookup_lt_Some; eassumption).
        -- reflexivity.
        -- cbn [fmap option_fmap option_map].
           pose proof (coerce_value_idem X (VDict d)) as Hi.
           cbn [coerce_value] in Hi. rewrite Hg, Hd in Hi. rewrite Hi.
           reflexivity.
      * destruct (H5 i) as [E|E]; rewrite E;
          rewrite list_lookup_insert_ne by congruence; [left | right];
          reflexivity.
    + unfold ret. apply IH.
Qed.

Lemma coerce_payloads_ok_inv items : forall acc st r,
  fst (coerce_payloads X items acc st) = Ok r ->
  forall i, i ∈ items -> has_payload (cells st) i.
Proof.
  induction items as [|msg rest IH]; intros acc st r Hok i Hi;
    [inversion Hi|].
  cbn [coerce_payloads] in Hok. unfold bind, read, lift in Hok.
  destruct (subscript (deref st msg) (lit "message")) as [p|e] eqn:Hp;
    [|discriminate].
  assert (Hmsg : exists d, cells st !! msg = Some (VDict d)
                           /\ dict_get (lit "message") d = Some p).
  { unfold deref in Hp. destruct (cells st !! msg) as [v|]; [|discriminate].
    destruct v as [| | | | | |d|]; try discriminate. cbn [subscript] in Hp.
    destruct (dict_get (lit "message") d) eqn:Hg; [|discriminate].
    injection Hp as ->. eauto. }
  destruct Hmsg as (d & Hv & Hg).
  apply elem_of_cons in Hi as [->|Hi].
  { exists (VDict d), p. split; [exact Hv | exact Hg]. }
  destruct (is_dict p) eqn:Hd.
  - unfold store_item, deref in Hok. rewrite Hv in Hok.
    destruct (IH _ _ _ Hok i Hi) as (vi & pi & Hci & Hpi).
    cbn [cells] in Hci.
    destruct (decide (i = msg)) as [->|Hne].
    + exists (VDict d), p. split; [exact Hv | exact Hg].
    + rewrite list_lookup_insert_ne in Hci by congruence.
      exists vi, pi. split; assumption.
  - unfold ret in Hok. exact (IH _ _ _ Hok i Hi).
Qed.

Lemma coerce_payloads_errors items : forall acc st e,
  fst (coerce_payloads X items acc st) = Raise e ->
  e = KeyError \/ e = TypeError.
Proof.
  induction items as [|msg rest IH]; intros acc st e Hr; [discriminate|].
  cbn [coerce_payloads] in Hr. unfold bind, read, lift in Hr.
  destruct (subscript (deref st msg) (lit "message")) as [p|e'] eqn:Hp.
  - destruct (is_dict p).
    + unfold store_item in Hr. destruct (deref st msg);
        try (injection Hr as <-; right; reflexivity).
      exact (IH _ _ _ Hr).
    + unfold ret in Hr. exact (IH _ _ _ Hr).
  - cbn [fst] in Hr. injection Hr as <-. unfold subscript in Hp.
    destruct (deref st msg); try (injection Hp as <-; right; reflexivity).
    destruct (dict_get _ _); [discriminate|]. injection Hp as <-. left.
    reflexivity.
Qed.

Lemma save_chat_history_frame items st :
  let st' := after (save_chat_history X items) st in
  history st' = history st /\ calls st' = calls st /\
  length (cells st') = length (cells st) /\
  (forall i, cells st' !! i = cells st !! i \/
             cells st' !! i = coerce_value X <$> cells st !! i).
Proof.
  pose proof (coerce_payloads_frame items [] st) as H. cbn zeta in H.
  assert (E : exists f, after (save_chat_history X items) st
                = mkState (cells (snd (coerce_payloads X items [] st)))
                          (history (snd (coerce_payloads X items [] st)))
                          f
                          (calls (snd (coerce_payloads X items [] st)))).
  { unfold after, save_chat_history, bind.
    destruct (coerce_payloads X items [] st) as [[l|e] st1]; cbn [snd].
    - unfold dump_to_file, bind, get_state, set_file, ret, raise.
      destruct (encode _) as [text [|]]; eexists; reflexivity.
    - exists (file st1). destruct st1; reflexivity. }
  destruct E as [f E]. cbn zeta. rewrite E. cbn [cells history calls].
  destruct H as (H1 & _ & H3 & H4 & H5). repeat apply conj; assumption.
Qed.

End SaveMore.

Section SaveExtras.
Variable X : externals.

Lemma has_payload_coerce_cells items cs i :
  has_payload cs i -> has_payload (coerce_cells X items cs) i.
Proof.
  intros (v & p & Hv & Hp). unfold has_payload.
  rewrite coerce_cells_lookup, Hv.
  destruct (decide (i ∈ items)); [|eauto].
  destruct (payload_coerce_value X v p Hp) as (p' & Hp' & _).
  exists (coerce_value X v), p'. split; [reflexivity | exact Hp'].
Qed.

Lemma coerce_cells_idem items cs :
  coerce_cells X items (coerce_cells X items cs) = coerce_cells X items cs.
Proof.
  apply list_eq. intros i. rewrite !coerce_cells_lookup.
  destruct (decide (i ∈ items)); [|reflexivity].
  destruct (cs !! i) as [v|]; [|reflexivity].
  cbn [fmap option_fmap option_map]. rewrite coerce_value_idem. reflexivity.
Qed.

(** X4.  Whatever [save_chat_history] returns, it changes no entry of a
    message object other than ["message"]: origins stay as they are, the
    history list and the number of objects too. *)
Theorem save_changes_only_payloads (items : list nat) (st : state) :
  let st' := after (save_chat_history X items) st in
  history st' = history st /\
  length (cells st') = length (cells st) /\
  forall i v, cells st !! i = Some v ->
    exists v', cells st' !! i = Some v' /\
      origin v' = origin v /\
      forall k, k <> lit "message" -> subscript v' k = subscript v k.
Proof.
  destruct (save_chat_history_frame X items st) as (H1 & _ & H3 & H5).
  cbn zeta. repeat apply conj; try assumption.
  intros i v Hv.
  assert (Horigin : forall w, (forall k, k <> lit "message" ->
                                 subscript w k = subscript v k) ->
                              origin w = origin v).
  { intros w Hw. specialize (Hw (lit "origin") ltac:(discriminate)).
    destruct w as [| | | | | |d|], v as [| | | | | |d'|];
      cbn [subscript origin] in *; try reflexivity; try discriminate;
      repeat match goal with
      | H : context [dict_get ?k ?d] |- _ => destruct (dict_get k d)
      | |- context [dict_get ?k ?d] => destruct (dict_get k d)
      end; congruence. }
  destruct (H5 i) as [E|E]; rewrite Hv in E.
  - exists v. split; [exact E|]. split; [reflexivity|]. reflexivity.
  - exists (coerce_value X v). split; [exact E|].
    split; [apply Horigin|]; intros k Hk; apply coerce_value_other_keys, Hk.
Qed.

(** X5.  When [save_chat_history] returns, the file holds the JSON text
    of the history as it is in memory after the call: what was coerced
    in the objects is what was written. *)
Theorem saved_file_is_memory (items : list nat) (st st' : state) :
  save_chat_history X items st = (Ok tt, st') ->
  exists text,
    file st' = Some text /\
    encode (VList (map (deref st') items)) = (text, true).
Proof.
  intros Hsave.
  assert (Hall : forall i, i ∈ items -> has_payload (cells st) i).
  { unfold save_chat_history, bind in Hsave.
    destruct (coerce_payloads X items [] st) as [[l|e] st1] eqn:Hc;
      [|discriminate].
    eapply coerce_payloads_ok_inv. rewrite Hc. reflexivity. }
  rewrite save_chat_history_run in Hsave by exact Hall. cbn zeta in Hsave.
  match type of Hsave with
  | context [encode (VList (map (deref ?s) items))] =>
      destruct (encode (VList (map (deref s) items))) as [text ok] eqn:He
  end.
  destruct ok; [|discriminate]. injection Hsave as <-.
  exists text. split; [reflexivity | exact He].
Qed.

(** X6.  A message object without a ["message"] entry stops
    [save_chat_history] in its first loop, with [KeyError] (or
    [TypeError] when the item is not a dictionary): the file is not
    opened, so it is left as it was. *)
Theorem save_without_payload_leaves_file (items : list nat) (st : state)
  (i : nat) :
  i ∈ items -> ~ has_payload (cells st) i ->
  exists e,
    fst (save_chat_history X items st) = Raise e /\
    (e = KeyError \/ e = TypeError) /\
    file (after (save_chat_history X items) st) = file st /\
    history (after (save_chat_history X items) st) = history st.
Proof.
  intros Hi Hno. unfold after, save_chat_history, bind.
  pose proof (coerce_payloads_frame X items [] st) as Hf. cbn zeta in Hf.
  pose proof (coerce_payloads_ok_inv X items [] st) as Hinv.
  pose proof (coerce_payloads_errors X items [] st) as Herr.
  destruct (coerce_payloads X items [] st) as [[l|e] st1]; cbn [fst snd] in *.
  - exfalso. apply Hno. exact (Hinv l eq_refl i Hi).
  - exists e. destruct Hf as (H1 & H2 & _). split; [reflexivity|].
    split; [apply Herr; reflexivity|]. split; assumption.
Qed.

(** X7.  Saving twice is saving once: on a list of message objects the
    second call returns what the first returned and changes nothing. *)
Theorem save_twice_is_save_once (items : list nat) (st : state) :
  (forall i, i ∈ items -> has_payload (cells st) i) ->
  save_chat_history X items (after (save_chat_history X items) st)
  = (fst (save_chat_history X items st), after (save_chat_history X items) st).
Proof.
  intros Hall. unfold after.
  rewrite (save_chat_history_run X items st Hall). cbn zeta.
  match goal with
  | |- context [encode (VList (map (deref ?s) items))] =>
      destruct (encode (VList (map (deref s) items))) as [text ok] eqn:He
  end.
  cbn [fst snd].
  rewrite save_chat_history_run.
  - cbn zeta. cbn [cells history file calls].
    rewrite coerce_cells_idem.
    match goal with
    | |- context [encode (VList (map (deref ?s) items))] =>
        change (encode (VList (map (deref s) items))) with
          (encode (VList (map (deref
             (mkState (coerce_cells X items (cells st)) (history st)
                      (file st) (calls st))) items)))
    end.
    rewrite He. reflexivity.
  - intros i Hi. cbn [cells]. apply has_payload_coerce_cells, Hall, Hi.
Qed.

End SaveExtras.

Lemma saved_file_is_memory_witness :
  let note := VDict [(lit "topic", VStr (lit "budget"))] in
  let st := mkState [message (VStr human) (VStr (lit "hello"));
                     message (VStr ai) note]
                    (Some (HList [0; 1]%nat)) None [] in
  let st' := after (save_chat_history demo [0; 1]%nat) st in
  save_chat_history demo [0; 1]%nat st = (Ok tt, st') /\
  exists text,
    file st' = Some text /\
    encode (VList (map (deref st') [0; 1]%nat)) = (text, true).
Proof.
  intros note st st'.
  assert (H : save_chat_history demo [0; 1]%nat st = (Ok tt, st'))
    by (vm_compute; reflexivity).
  split; [exact H|].
  exact (saved_file_is_memory demo [0; 1]%nat st st' H).
Defined.


Lemma save_without_payload_leaves_file_witness :
  let st := mkState [message (VStr human) (VStr (lit "hello"));
                     VDict [(lit "origin", VStr ai)]]
                    (Some (HList [0; 1]%nat))
                    (Some (history_text [(human, lit "hello")])) [] in
  1%nat ∈ [0; 1]%nat /\ ~ has_payload (cells st) 1%nat /\
  exists e,
    fst (save_chat_history demo [0; 1]%nat st) = Raise e /\
    (e = KeyError \/ e = TypeError) /\
    file (after (save_chat_history demo [0; 1]%nat) st) = file st /\
    history (after (save_chat_history demo [0; 1]%nat) st) = history st.
Proof.
  intros st.
  assert (H1 : 1%nat ∈ [0; 1]%nat) by (right; left).
  assert (H2 : ~ has_payload (cells st) 1%nat).
  { intros (v & p & Hv & Hp). cbn in Hv. injection Hv as <-. discriminate. }
  split; [exact H1|]. split; [exact H2|].
  exact (save_without_payload_leaves_file demo [0; 1]%nat st 1%nat H1 H2).
Defined.

Lemma save_twice_is_save_once_witness :
  let note := VDict [(lit "topic", VStr (lit "budget"))] in
  let st := mkState [message (VStr human) (VStr (lit "hello"));
                     message (VStr ai) note]
                    (Some (HList [0; 1]%nat)) None [] in
  (forall i, i ∈ [0; 1]%nat -> has_payload (cells st) i) /\
  save_chat_history demo [0; 1]%nat (after (save_chat_history demo [0; 1]%nat) st)
  = (fst (save_chat_history demo [0; 1]%nat st),
     after (save_chat_history demo [0; 1]%nat) st).
Proof.
  intros note st.
  assert (H : forall i, i ∈ [0; 1]%nat -> has_payload (cells st) i).
  { intros i Hi. apply elem_of_cons in Hi as [->|Hi];
      [|apply elem_of_cons in Hi as [->|Hi]; [|inversion Hi]];
      eexists _, _; split; reflexivity. }
  split; [exact H|].
  exact (save_twice_is_save_once demo [0; 1]%nat st H).
Defined.

(* ===================================================================== *)
(** * More on submissions                                                 *)
(* ===================================================================== *)

Section Submission.
Variable X : externals.

Lemma with_calls_nil st : with_calls st [] = st.
Proof. unfold with_calls. rewrite app_nil_r. destruct st; reflexivity. Qed.

(** The two appends of the callback on a list history. *)
Lemma appends_run q answer st items :
  history st = Some (HList items) ->
  (run history_append (message (VStr (lit "human")) (VStr q));
   run history_append (message (VStr (lit "ai")) answer);
   do st' <- get_state;
   match history st' with
   | Some (HList items) => save_chat_history X items
   | _ => raise AttributeError
   end) st
  = save_chat_history X (items ++ [length (cells st); S (length (cells st))])
      (mkState (cells st ++ [message (VStr (lit "human")) (VStr q);
                             message (VStr (lit "ai")) answer])
               (Some (HList (items ++ [length (cells st); S (length (cells st))])))
               (file st) (calls st)).
Proof.
  intros Hh. unfold bind at 1. unfold history_append at 1, bind at 1, get_state.
  rewrite Hh. unfold bind at 1, alloc, set_history.
  cbn [cells history file calls].
  unfold bind at 1. unfold history_append at 1, bind at 1, get_state.
  cbn [history]. unfold bind at 1, alloc, set_history.
  cbn [cells history file calls].
  unfold bind at 1, get_state. cbn [history].
  rewrite <- !app_assoc, length_app. cbn [length app].
  rewrite Nat.add_1_r. reflexivity.
Qed.

(** The three ways a submission on any state can go. *)
Lemma on_click_callback_cases q st :
  (exists e, on_click_callback X q st = (Raise e, st)) \/
  (exists input e,
     snd (turn X (classify (lower_other X) q) input) = Raise e /\
     on_click_callback X q st
     = (Raise e, with_calls st (fst (turn X (classify (lower_other X) q) input))))
  \/
  (exists input a,
     snd (turn X (classify (lower_other X) q) input) = Ok a /\
     let st1 := with_calls st (fst (turn X (classify (lower_other X) q) input)) in
     match history st with
     | Some (HList items) =>
         on_click_callback X q st
         = save_chat_history X
             (items ++ [length (cells st); S (length (cells st))])
             (mkState (cells st ++ [message (VStr (lit "human")) (VStr q);
                                    message (VStr (lit "ai")) (VStr a)])
                      (Some (HList (items ++ [length (cells st);
                                              S (length (cells st))])))
                      (file st) (calls st1))
     | _ => on_click_callback X q st = (Raise AttributeError, st1)
     end).
Proof.
  remember (on_click_callback X q st) as r eqn:Er.
  rewrite on_click_callback_unfold in Er.
  destruct (history st) as [h|] eqn:Hh; [|left; eauto].
  unfold bind at 1 in Er. pose proof (history_lines_pure X h st) as Hpure.
  destruct (history_lines X h st) as [[lines|e] st0]; cbn [snd] in Hpure;
    subst st0; [|left; eauto].
  right. unfold bind at 1 in Er. rewrite answer_of_run in Er.
  destruct (snd (turn X (classify (lower_other X) q) (join nl lines ++ nl ++ q)))
    as [a|e] eqn:Ha.
  - right. exists (join nl lines ++ nl ++ q), a. split; [exact Ha|]. cbn zeta.
    destruct h as [items|v].
    + rewrite (appends_run q (VStr a) _ items) in Er by exact Hh. exact Er.
    + unfold bind at 1, history_append at 1, bind at 1, get_state in Er.
      cbn [with_calls history] in Er. rewrite Hh in Er. exact Er.
  - left. exists (join nl lines ++ nl ++ q), e. split; [exact Ha | exact Er].
Qed.

(** A submission on a list history, step by step. *)
Lemma on_click_callback_list q st items :
  history st = Some (HList items) ->
  on_click_callback X q st
  = match context_lines X (map (deref st) items) with
    | Raise e => (Raise e, st)
    | Ok lines =>
        let t := turn X (classify (lower_other X) q) (join nl lines ++ nl ++ q) in
        match snd t with
        | Raise e => (Raise e, with_calls st (fst t))
        | Ok a =>
            save_chat_history X
              (items ++ [length (cells st); S (length (cells st))])
              (mkState (cells st ++ [message (VStr (lit "human")) (VStr q);
                                     message (VStr (lit "ai")) (VStr a)])
                       (Some (HList (items ++ [length (cells st);
                                               S (length (cells st))])))
                       (file st) (calls st ++ fst t))
        end
    end.
Proof.
  intros Hh. rewrite on_click_callback_unfold, Hh.
  unfold bind at 1. unfold history_lines, bind at 1, get_state, lift.
  destruct (context_lines X (map (deref st) items)) as [lines|e];
    [|reflexivity].
  unfold bind at 1. rewrite answer_of_run. cbn zeta.
  destruct (snd (turn X (classify (lower_other X) q) (join nl lines ++ nl ++ q)))
    as [a|e]; [|reflexivity].
  rewrite (appends_run q (VStr a) _ items) by exact Hh. reflexivity.
Qed.

Lemma context_lines_ok_inv st items lines :
  context_lines X (map (deref st) items) = Ok lines ->
  forall i, i ∈ items -> has_payload (cells st) i.
Proof.
  revert lines. induction items as [|j items IH]; intros lines H i Hi;
    [inversion Hi|].
  cbn [map context_lines] in H.
  destruct (context_line X (deref st j)) as [l|e] eqn:Hl; [|discriminate].
  destruct (context_lines X (map (deref st) items)) as [ls|e] eqn:Hls;
    [|discriminate].
  apply elem_of_cons in Hi as [->|Hi]; [|exact (IH ls eq_refl i Hi)].
  unfold context_line, deref in Hl.
  destruct (cells st !! j) as [v|] eqn:Hv; [|discriminate].
  destruct (subscript v (lit "origin")); [|discriminate].
  destruct (subscript v (lit "message")) as [p|] eqn:Hp; [|discriminate].
  exists v, p. split; [exact Hv|].
  destruct v as [| | | | | |d|]; try discriminate. cbn [subscript payload] in *.
  destruct (dict_get (lit "message") d); [|discriminate]. congruence.
Qed.

Lemma turn_calls_shape r input :
  match r with
  | General => exists p, fst (turn X r input) = [Complete p]
  | Grounded =>
      fst (turn X r input) = [Retrieve input] \/
      exists p, fst (turn X r input) = [Retrieve input; Complete p]
  end.
Proof.
  destruct r; unfold turn.
  - destruct (retriever X input); [right; eauto | left; reflexivity].
  - eauto.
Qed.

End Submission.

(** X8.  A submission asks each outside capability at most once, the
    retriever before the model, and on the general route it never asks
    the retriever: whatever the state, the calls it adds are none, the
    retrieval alone, the retrieval and a completion (grounded), or one
    completion (general). *)
Theorem submission_calls (X : externals) (q : str) (st : state) :
  exists cs,
    calls (after (on_click_callback X q) st) = calls st ++ cs /\
    match classify (lower_other X) q with
    | General => cs = [] \/ exists p, cs = [Complete p]
    | Grounded =>
        cs = [] \/ (exists i, cs = [Retrieve i]) \/
        exists i p, cs = [Retrieve i; Complete p]
    end.
Proof.
  assert (Hshape : forall input,
            match classify (lower_other X) q with
            | General =>
                fst (turn X (classify (lower_other X) q) input) = [] \/
                exists p, fst (turn X (classify (lower_other X) q) input)
                          = [Complete p]
            | Grounded =>
                fst (turn X (classify (lower_other X) q) input) = [] \/
                (exists i, fst (turn X (classify (lower_other X) q) input)
                           = [Retrieve i]) \/
                exists i p, fst (turn X (classify (lower_other X) q) input)
                            = [Retrieve i; Complete p]
            end).
  { intros input.
    pose proof (turn_calls_shape X (classify (lower_other X) q) input) as H.
    destruct (classify (lower_other X) q).
    - destruct H as [H | [p H]]; right; [left | right]; eauto.
    - right. exact H. }
  unfold after.
  destruct (on_click_callback_cases X q st)
    as [[e E] | [(input & e & _ & E) | (input & a & _ & E)]].
  - exists []. rewrite E, app_nil_r. split; [reflexivity|].
    destruct (classify (lower_other X) q); left; reflexivity.
  - exists (fst (turn X (classify (lower_other X) q) input)).
    rewrite E. split; [reflexivity | apply Hshape].
  - exists (fst (turn X (classify (lower_other X) q) input)).
    split; [|apply Hshape]. cbn zeta in E.
    destruct (history st) as [[items|v]|]; rewrite E; try reflexivity.
    rewrite save_chat_history_calls. reflexivity.
Qed.

(** X9.  In a general turn the retriever is not asked and the model gets
    one prompt, whose human message is ["Question: "] followed by the
    context, a newline and the query. *)
Theorem general_turn_inputs (X : externals) (q : str) (st : state)
  (items : list nat) (ops : list (value * value)) :
  history st = Some (HList items) ->
  points_to (cells st) items ops ->
  classify (lower_other X) q = General ->
  let context :=
    join nl (map (fun op => py_str X (fst op) ++ lit ": " ++ py_str X (snd op))
                 ops) in
  exists sys,
    calls (after (on_click_callback X q) st)
    = calls st ++ [Complete [(System, sys);
                             (Human, lit "Question: " ++ context ++ nl ++ q)]].
Proof.
  intros Hh Hops Hr context.
  rewrite (on_click_callback_calls X q st items ops Hh Hops), Hr.
  fold context. unfold turn. cbn [fst].
  destruct (general_messages_shape (context ++ nl ++ q)) as (sys & -> & _).
  exists sys. reflexivity.
Qed.

Lemma general_turn_inputs_witness :
  let q := lit "tell me a joke" in
  let ops := [(VStr human, VStr (lit "hello")); (VStr ai, VStr (lit "hi"))] in
  let st := mkState [message (VStr human) (VStr (lit "hello"));
                     message (VStr ai) (VStr (lit "hi"))]
                    (Some (HList [0; 1]%nat)) None [] in
  exists sys,
    calls (after (on_click_callback demo q) st)
    = [Complete [(System, sys);
                 (Human, lit "Question: " ++ lit "human: hello" ++ nl
                         ++ lit "ai: hi" ++ nl ++ q)]].
Proof.
  intros q ops st.
  refine (general_turn_inputs demo q st [0; 1]%nat ops eq_refl _ eq_refl).
  repeat constructor; eexists; repeat split; reflexivity.
Defined.

Section Outcome.
Variable X : externals.

Lemma has_payload_app cs more i : has_payload cs i -> has_payload (cs ++ more) i.
Proof.
  intros (v & p & Hv & Hp). exists v, p. split; [|exact Hp].
  apply lookup_app_l_Some, Hv.
Qed.

(** X10.  A submission never removes or reorders messages: afterwards
    the history is the list it was, or that list followed by the query
    as a human message and the answer as an assistant message; in the
    first case the submission raised and left objects and file as they
    were. *)
Theorem submission_only_appends (q : str) (st : state) (items : list nat) :
  history st = Some (HList items) ->
  let st' := after (on_click_callback X q) st in
  let n := length (cells st) in
  (history st' = Some (HList items) /\ cells st' = cells st /\
   file st' = file st /\ exists e, fst (on_click_callback X q st) = Raise e) \/
  (exists a,
     history st' = Some (HList (items ++ [n; S n])) /\
     cells st' !! n = Some (message (VStr (lit "human")) (VStr q)) /\
     cells st' !! S n = Some (message (VStr (lit "ai")) (VStr a)) /\
     length (cells st') = S (S n)).
Proof.
  intros Hh st' n. subst st' n. unfold after.
  rewrite (on_click_callback_list X q st items Hh).
  destruct (context_lines X (map (deref st) items)) as [lines|e].
  2:{ left. repeat apply conj; try reflexivity; [exact Hh | eauto]. }
  cbn zeta.
  destruct (snd (turn X (classify (lower_other X) q) (join nl lines ++ nl ++ q)))
    as [a|e].
  2:{ left. repeat apply conj; try reflexivity; [exact Hh | eauto]. }
  right. exists a.
  match goal with |- context [save_chat_history X ?l ?s] =>
    pose proof (save_chat_history_frame X l s) as HF
  end.
  cbn zeta in HF. unfold after in HF. destruct HF as (H1 & _ & H3 & H5).
  cbn [cells history] in H1, H3, H5.
  rewrite length_app in H3. cbn [length] in H3.
  repeat apply conj.
  - exact H1.
  - destruct (H5 (length (cells st))) as [E|E]; rewrite E;
      rewrite lookup_app_r by lia; rewrite Nat.sub_diag; reflexivity.
  - destruct (H5 (S (length (cells st)))) as [E|E]; rewrite E;
      rewrite lookup_app_r by lia;
      replace (S (length (cells st)) - length (cells st))%nat with 1%nat by lia;
      reflexivity.
  - rewrite H3. lia.
Qed.

(** X11.  How a submission on a list history can raise: before anything
    is appended, leaving history, objects and file as they were; or, the
    answer being there, in [json.dump] with [TypeError], and then the
    two messages have been appended and the file holds the text written
    up to the object that could not be encoded. *)
Theorem submission_failures (q : str) (st st' : state) (items : list nat)
  (e : exn) :
  history st = Some (HList items) ->
  on_click_callback X q st = (Raise e, st') ->
  let n := length (cells st) in
  (history st' = history st /\ cells st' = cells st /\ file st' = file st) \/
  (e = TypeError /\
   history st' = Some (HList (items ++ [n; S n])) /\
   exists text,
     file st' = Some text /\
     encode (VList (map (deref st') (items ++ [n; S n]))) = (text, false)).
Proof.
  intros Hh Hr n. subst n.
  rewrite (on_click_callback_list X q st items Hh) in Hr.
  destruct (context_lines X (map (deref st) items)) as [lines|e0] eqn:Hl.
  2:{ injection Hr as <- <-. left. repeat split. }
  cbn zeta in Hr.
  destruct (snd (turn X (classify (lower_other X) q) (join nl lines ++ nl ++ q)))
    as [a|e0].
  2:{ injection Hr as <- <-. left. repeat split. }
  right.
  rewrite save_chat_history_run in Hr.
  - cbn zeta in Hr. cbn [cells history file calls] in Hr.
    match type of Hr with
    | context [encode (VList (map (deref ?s) ?l))] =>
        destruct (encode (VList (map (deref s) l))) as [text ok] eqn:He
    end.
    destruct ok; [discriminate|]. injection Hr as <- <-.
    split; [reflexivity|]. split; [reflexivity|].
    exists text. split; [reflexivity | exact He].
  - cbn [cells]. intros i Hi. apply elem_of_app in Hi as [Hi|Hi].
    + apply has_payload_app. exact (context_lines_ok_inv X st items lines Hl i Hi).
    + apply elem_of_cons in Hi as [->|Hi];
        [|apply elem_of_cons in Hi as [->|Hi]; [|inversion Hi]].
      * eexists _, _. split.
        { rewrite lookup_app_r by lia. rewrite Nat.sub_diag. reflexivity. }
        reflexivity.
      * eexists _, _. split.
        { rewrite lookup_app_r by lia.
          replace (S (length (cells st)) - length (cells st))%nat with 1%nat
            by lia.
          reflexivity. }
        reflexivity.
Qed.

(** X12.  A file that decodes to something other than a list (an object,
    a string, a number) is taken as the history by a new session, and
    from then on every submission raises and changes nothing but the
    record of the calls. *)
Theorem non_list_file_blocks_submissions (st : state) (text : str) (v : value) :
  history st = None ->
  file st = Some text ->
  json_loads (float_shown X) (max_str_digits X) (nesting_limit X) text = Ok v ->
  (forall l, v <> VList l) ->
  let st1 := after (initialize_session_state X) st in
  fst (initialize_session_state X st) = Ok tt /\
  history st1 = Some (HOther v) /\ cells st1 = cells st /\
  forall q, exists e cs,
    on_click_callback X q st1 = (Raise e, with_calls st1 cs).
Proof.
  intros Hh Hf Hv Hnl st1.
  assert (E : initialize_session_state X st
              = (Ok tt, mkState (cells st) (Some (HOther v)) (file st) (calls st))).
  { assert (Hload : load_chat_history X st = (Ok v, st))
      by (unfold load_chat_history; rewrite Hf, Hv; reflexivity).
    unfold initialize_session_state, bind at 1, get_state. rewrite Hh.
    unfold bind at 1. rewrite Hload. unfold bind at 1, adopt.
    destruct v; try reflexivity. exfalso. eapply Hnl. reflexivity. }
  unfold st1, after. rewrite E. cbn [fst snd].
  repeat apply conj; try reflexivity.
  intros q.
  destruct (on_click_callback_cases X q
              (mkState (cells st) (Some (HOther v)) (file st) (calls st)))
    as [[e E1] | [(input & e & _ & E1) | (input & a & _ & E1)]].
  - exists e, []. rewrite with_calls_nil. exact E1.
  - eauto.
  - cbn zeta in E1. cbn [history] in E1. eauto.
Qed.

End Outcome.

Lemma submission_only_appends_witness :
  let q := lit "tell me a joke" in
  let st := mkState [message (VStr human) (VStr (lit "hello"));
                     message (VStr ai) (VStr (lit "hi"))]
                    (Some (HList [0; 1]%nat)) None [] in
  let st' := after (on_click_callback demo q) st in
  history st = Some (HList [0; 1]%nat) /\
  history st' = Some (HList [0; 1; 2; 3]%nat) /\
  ((history st' = Some (HList [0; 1]%nat) /\ cells st' = cells st /\
    file st' = file st /\ exists e, fst (on_click_callback demo q st) = Raise e) \/
   (exists a,
      history st' = Some (HList ([0; 1]%nat ++ [2; 3]%nat)) /\
      cells st' !! 2%nat = Some (message (VStr (lit "human")) (VStr q)) /\
      cells st' !! 3%nat = Some (message (VStr (lit "ai")) (VStr a)) /\
      length (cells st') = 4%nat)).
Proof.
  intros q st st'. split; [reflexivity|]. split; [vm_compute; reflexivity|].
  exact (submission_only_appends demo q st [0; 1]%nat eq_refl).
Defined.

Lemma submission_failures_witness :
  let q := lit "tell me a joke" in
  let doc := VObject (lit "Document") (lit "page_content='agenda'") in
  let st := mkState [message (VStr ai) doc] (Some (HList [0%nat]))
                    (Some (history_text [])) [] in
  let st' := after (on_click_callback demo q) st in
  history st = Some (HList [0%nat]) /\
  on_click_callback demo q st = (Raise TypeError, st') /\
  history st' = Some (HList [0; 1; 2]%nat) /\
  ((history st' = history st /\ cells st' = cells st /\ file st' = file st) \/
   (TypeError = TypeError /\
    history st' = Some (HList ([0%nat] ++ [1; 2]%nat)) /\
    exists text,
      file st' = Some text /\
      encode (VList (map (deref st') ([0%nat] ++ [1; 2]%nat))) = (text, false))).
Proof.
  intros q doc st st'.
  assert (H : on_click_callback demo q st = (Raise TypeError, st'))
    by (vm_compute; reflexivity).
  split; [reflexivity|]. split; [exact H|]. split; [vm_compute; reflexivity|].
  exact (submission_failures demo q st st' [0%nat] TypeError eq_refl H).
Defined.

Lemma non_list_file_blocks_submissions_witness :
  let st := mkState [] None (Some (lit "{}")) [] in
  let st1 := after (initialize_session_state demo) st in
  history st = None /\ file st = Some (lit "{}") /\
  json_loads (float_shown demo) (max_str_digits demo) (nesting_limit demo)
    (lit "{}") = Ok (VDict []) /\
  (forall l, VDict [] <> VList l) /\
  on_click_callback demo (lit "hello") st1
  = (Raise AttributeError,
     with_calls st1 [Complete (general_messages (nl ++ lit "hello"))]) /\
  fst (initialize_session_state demo st) = Ok tt /\
  history st1 = Some (HOther (VDict [])) /\ cells st1 = cells st /\
  forall q, exists e cs,
    on_click_callback demo q st1 = (Raise e, with_calls st1 cs).
Proof.
  intros st st1.
  assert (H3 : json_loads (float_shown demo) (max_str_digits demo) (nesting_limit demo)
    (lit "{}") = Ok (VDict []))
    by (vm_compute; reflexivity).
  assert (H4 : forall l, VDict [] <> VList l) by discriminate.
  split; [reflexivity|]. split; [reflexivity|]. split; [exact H3|].
  split; [exact H4|]. split; [vm_compute; reflexivity|].
  exact (non_list_file_blocks_submissions demo st (lit "{}") (VDict [])
           eq_refl eq_refl H3 H4).
Defined.

(** * More on sessions *)

Section Sessions.
Variable X : externals.

(** X13.  "New Chat" really forgets: after it the history is empty and
    the file is gone, a new session then starts with an empty history,
    and the next submission that returns writes a file that holds its
    two messages and nothing older. *)
Theorem new_chat_forgets (st : state) :
  let st1 := step X st NewChat in
  history st1 = Some (HList []) /\ file st1 = None /\
  history (step X st1 Restart) = Some (HList []) /\
  forall q a,
    snd (turn X (classify (lower_other X) q) (chain_input [] q)) = Ok a ->
    fst (on_click_callback X q st1) = Ok tt /\
    file (after (on_click_callback X q) st1)
    = Some (history_text [(human, q); (ai, a)]).
Proof.
  assert (E1 : step X st NewChat
               = mkState (cells st) (Some (HList [])) None (calls st)).
  { unfold step. rewrite script_run_new_chat. unfold after.
    rewrite new_chat_run. reflexivity. }
  cbn zeta. rewrite E1. cbn [history file].
  repeat apply conj; try reflexivity.
  intros q a Ha. unfold after.
  rewrite (on_click_callback_strings X q
             (mkState (cells st) (Some (HList [])) None (calls st)) [] []
             eq_refl ltac:(constructor)).
  destruct (turn X (classify (lower_other X) q) (chain_input [] q))
    as [cs r]. cbn [snd] in Ha. subst r. split; reflexivity.
Qed.

(** X14.  [initialize_session_state] never writes the file and asks
    nothing of the outside; it keeps the objects there are; when it
    raises it changes nothing; and once it has returned, running it again
    does nothing: the file is read once per session. *)
Theorem initialize_reads_once (st : state) :
  let st' := after (initialize_session_state X) st in
  file st' = file st /\ calls st' = calls st /\
  (forall i v, cells st !! i = Some v -> cells st' !! i = Some v) /\
  match fst (initialize_session_state X st) with
  | Raise _ => st' = st
  | Ok _ => history st' <> None /\
            initialize_session_state X st' = (Ok tt, st')
  end.
Proof.
  assert (E : (exists e, initialize_session_state X st = (Raise e, st)) \/
              (exists h more,
                 initialize_session_state X st
                 = (Ok tt, mkState (cells st ++ more) (Some h)
                                   (file st) (calls st)))).
  { destruct (history st) as [h|] eqn:Hh.
    { right. exists h, []. rewrite (initialize_with_history X st h Hh).
      rewrite app_nil_r, <- Hh. destruct st; reflexivity. }
    remember (initialize_session_state X st) as r eqn:Er.
    unfold initialize_session_state, bind at 1, get_state in Er.
    rewrite Hh in Er. unfold bind at 1 in Er.
    assert (Hl : snd (load_chat_history X st) = st)
      by (unfold load_chat_history; destruct (file st); reflexivity).
    destruct (load_chat_history X st) as [[v|e] st0]; cbn [snd] in Hl;
      subst st0; [|left; eauto].
    right. unfold bind at 1 in Er.
    subst r.
    destruct v as [| | | | |items| |];
      try (match goal with
           | |- context [adopt ?w st] => exists (HOther w), []
           end; rewrite app_nil_r; reflexivity).
    unfold adopt, bind. rewrite alloc_all_run.
    eexists _, _. reflexivity. }
  cbn zeta. unfold after.
  destruct E as [[e ->] | (h & more & ->)]; cbn [fst snd cells file calls history].
  - repeat apply conj; try reflexivity. tauto.
  - split; [reflexivity|]. split; [reflexivity|]. split; [|split].
    + intros i w Hw. apply lookup_app_l_Some, Hw.
    + discriminate.
    + apply initialize_with_history with (h := h). reflexivity.
Qed.

End Sessions.

(* ===================================================================== *)
(** * Sessions of many submissions                                        *)
(* ===================================================================== *)

Section Many.

Variable X : externals.

Lemma holds_exchange cs items ms q a :
  holds cs items ms ->
  holds (cs ++ [message_of (human, q); message_of (ai, a)])
        (items ++ [length cs; S (length cs)])
        (ms ++ [(human, q); (ai, a)]).
Proof.
  intros Hms.
  pose proof (holds_snoc _ _ _ (human, q) Hms) as P1.
  pose proof (holds_snoc _ _ _ (ai, a) P1) as P2.
  rewrite <- !app_assoc in P2. rewrite length_app in P2.
  cbn [length app] in P2. rewrite Nat.add_1_r in P2. exact P2.
Qed.

(** X15.  Submissions that return, one after the other on a history of
    string messages: every one adds its query and its answer at the end,
    in that order, so [k] submissions make the history two times [k]
    messages longer; each answer is the answer of the turn on the
    messages before it; and (after at least one) the file holds the text
    of the whole history. *)
Theorem submissions_accumulate (qs : list str) :
  forall (st st' : state) (items : list nat) (ms : list (str * str)),
  history st = Some (HList items) ->
  holds (cells st) items ms ->
  submit_all X qs st = Some st' ->
  exists answers more,
    length answers = length qs /\
    length more = (2 * length qs)%nat /\
    history st' = Some (HList (items ++ more)) /\
    holds (cells st') (items ++ more) (ms ++ exchanges (combine qs answers)) /\
    (forall k q a, qs !! k = Some q -> answers !! k = Some a ->
       snd (turn X (classify (lower_other X) q)
              (chain_input (ms ++ exchanges (combine (take k qs) (take k answers))) q))
       = Ok a) /\
    (qs <> [] ->
     file st' = Some (history_text (ms ++ exchanges (combine qs answers)))).
Proof.
  induction qs as [|q qs IH]; intros st st' items ms Hh Hms Hrun.
  - injection Hrun as <-. exists [], []. cbn [combine exchanges flat_map].
    rewrite !app_nil_r. repeat apply conj; try reflexivity; try assumption.
    + intros k q a Hq. rewrite lookup_nil in Hq. discriminate.
    + intros Hne. contradiction.
  - cbn [submit_all] in Hrun.
    rewrite (on_click_callback_strings X q st items ms Hh Hms) in Hrun.
    destruct (turn X (classify (lower_other X) q) (chain_input ms q))
      as [cs [a|e]] eqn:Hturn; [|discriminate].
    pose proof (holds_exchange _ _ _ q a Hms) as Hms1.
    match type of Hrun with submit_all X qs ?s1 = _ =>
      destruct (IH s1 st' _ _ eq_refl Hms1 Hrun)
        as (answers & more & Hla & Hlm & Hh' & Hms' & Hans & Hfile)
    end.
    exists (a :: answers),
           ([length (cells st); S (length (cells st))] ++ more).
    cbn [combine exchanges flat_map fst snd length].
    fold (exchanges (combine qs answers)).
    rewrite <- !app_assoc in Hh', Hms'. cbn [app] in Hh', Hms' |- *.
    repeat apply conj.
    + rewrite Hla. reflexivity.
    + cbn [length app]. lia.
    + exact Hh'.
    + rewrite <- app_assoc in Hms'. exact Hms'.
    + intros k q0 a0 Hq Ha. destruct k as [|k].
      * cbn in Hq, Ha. injection Hq as <-. injection Ha as <-.
        cbn [take combine exchanges flat_map]. rewrite app_nil_r, Hturn.
        reflexivity.
      * cbn in Hq, Ha. specialize (Hans k q0 a0 Hq Ha).
        cbn [take combine exchanges flat_map fst snd].
        fold (exchanges (combine (take k qs) (take k answers))).
        rewrite <- app_assoc in Hans. exact Hans.
    + intros _. destruct qs as [|q' qs'].
      * injection Hrun as <-. destruct answers; [|discriminate].
        reflexivity.
      * rewrite Hfile by discriminate. rewrite <- app_assoc. reflexivity.
Qed.

End Many.

Lemma submissions_accumulate_witness :
  let qs := [lit "hello"; lit "when does the meeting start?"; lit "thanks"] in
  exists st' answers more,
    submit_all demo qs empty_session = Some st' /\
    length answers = 3%nat /\ length more = 6%nat /\
    history st' = Some (HList ([] ++ more)) /\
    file st' = Some (history_text ([] ++ exchanges (combine qs answers))).
Proof.
  intros qs.
  destruct (submit_all demo qs empty_session) as [st'|] eqn:Hrun;
    [|vm_compute in Hrun; discriminate].
  destruct (submissions_accumulate demo qs empty_session st' [] [] eq_refl
              ltac:(constructor) Hrun)
    as (answers & more & Hla & Hlm & Hh & _ & _ & Hf).
  exists st', answers, more.
  split; [reflexivity|]. split; [exact Hla|]. split; [exact Hlm|].
  split; [exact Hh|]. apply Hf. discriminate.
Defined.

(* ===================================================================== *)
(** * The display loop                                                    *)
(* ===================================================================== *)

Section Shown.

Variable X : externals.

Lemma chat_div_context_line chat :
  match context_line X chat with
  | Ok _ => exists div, chat_div X chat = Ok div
  | Raise e => chat_div X chat = Raise e
  end.
Proof.
  unfold context_line, chat_div.
  destruct (subscript chat (lit "origin")) as [o|e]; [|reflexivity].
  destruct (subscript chat (lit "message")) as [m|e]; [|reflexivity].
  eexists. reflexivity.
Qed.

(** X16.  The display loop and the context of a submission read the same
    entries of every message.  When the context can be built the loop
    does not raise and shows the [div] of every message, in order.  When
    it cannot, the loop raises the same exception at the same message,
    the first one without the entries, after it has shown the [div]s of
    the messages before that one, in order, and nothing else. *)
Theorem display_reads_what_context_reads (chats : list value) :
  match context_lines X chats with
  | Ok lines =>
      length lines = length chats /\
      exists divs,
        display_chat X chats = (divs, Ok tt) /\
        Forall2 (fun chat div => chat_div X chat = Ok div) chats divs
  | Raise e =>
      exists before bad rest divs,
        chats = before ++ bad :: rest /\
        (exists lines, context_lines X before = Ok lines) /\
        context_line X bad = Raise e /\
        chat_div X bad = Raise e /\
        display_chat X chats = (divs, Raise e) /\
        Forall2 (fun chat div => chat_div X chat = Ok div) before divs
  end.
Proof.
  induction chats as [|chat chats IH].
  - cbn [context_lines display_chat length]. split; [reflexivity|].
    exists []. split; [reflexivity | constructor].
  - cbn [context_lines display_chat].
    pose proof (chat_div_context_line chat) as H.
    destruct (context_line X chat) as [l|e] eqn:El.
    + destruct H as [div Hdiv]. rewrite Hdiv.
      destruct (context_lines X chats) as [ls|e] eqn:Els.
      * destruct IH as (Hlen & divs & Hshow & Hdivs). rewrite Hshow.
        split; [cbn [length]; rewrite Hlen; reflexivity|].
        exists (div :: divs). split; [reflexivity|].
        constructor; assumption.
      * destruct IH as (before & bad & rest & divs & -> & [ls Hls] & Hbad
                        & Hbad' & Hshow & Hdivs).
        rewrite Hshow.
        exists (chat :: before), bad, rest, (div :: divs).
        split; [reflexivity|]. split.
        { exists (l :: ls). cbn [context_lines]. rewrite El, Hls. reflexivity. }
        split; [exact Hbad|]. split; [exact Hbad'|].
        split; [reflexivity|]. constructor; assumption.
    + rewrite H. exists [], chat, chats, [].
      split; [reflexivity|]. split; [exists []; reflexivity|].
      split; [exact El|]. split; [exact H|].
      split; [reflexivity | constructor].
Qed.

(** X17.  The text of a message goes into the page as it is: the [div]
    of a string message is an opening, the text and a closing, and
    neither the opening nor the closing depends on the text; and a
    message whose origin is not ["human"] is shown as one of the
    assistant. *)
Theorem display_inserts_text_as_it_is (o : str) :
  exists opening closing,
    (forall m, chat_div X (message (VStr o) (VStr m))
               = Ok (opening ++ m ++ closing)) /\
    (o <> human ->
     forall m, chat_div X (message (VStr ai) (VStr m))
               = Ok (opening ++ m ++ closing)).
Proof.
  assert (Hdiv : forall o' m,
            chat_div X (message (VStr o') (VStr m))
            = Ok ((nl ++ indent ++ lit "<div class=" ++ [34%N] ++ lit "chat-row "
                   ++ (if str_eqb o' (lit "human") then lit "row-reverse" else [])
                   ++ [34%N] ++ lit ">" ++ nl
                   ++ indent ++ lit "    <div class=" ++ [34%N]
                   ++ lit "chat-bubble "
                   ++ (if str_eqb o' (lit "human") then lit "human-bubble"
                       else lit "ai-bubble")
                   ++ [34%N] ++ lit ">" ++ nl
                   ++ indent ++ lit "        ")
                  ++ m ++
                  (nl ++ indent ++ lit "    </div>" ++ nl
                   ++ indent ++ lit "</div>" ++ nl ++ indent))).
  { intros o' m. unfold chat_div, message, subscript.
    change (dict_get (lit "origin") [(lit "origin", VStr o'); (lit "message", VStr m)])
      with (Some (VStr o')).
    change (dict_get (lit "message") [(lit "origin", VStr o'); (lit "message", VStr m)])
      with (Some (VStr m)).
    cbn [value_is_str py_str]. rewrite <- !app_assoc. reflexivity. }
  eexists _, _. split.
  - intros m. apply Hdiv.
  - intros Ho m. rewrite Hdiv.
    rewrite (str_eqb_neq o (lit "human")) by exact Ho.
    reflexivity.
Qed.

End Shown.

(* ===================================================================== *)
(** * A running application                                               *)
(* ===================================================================== *)

Section Running.

Variable X : externals.

Lemma display_chat_strings ms :
  snd (display_chat X (map message_of ms)) = Ok tt.
Proof.
  induction ms as [|om ms IH]; [reflexivity|].
  cbn [map display_chat].
  pose proof (chat_div_context_line X (message_of om)) as H.
  change (context_line X (message_of om))
    with (Ok (A:=str) (fst om ++ lit ": " ++ snd om)) in H.
  destruct H as [div ->]. destruct (display_chat X (map message_of ms)).
  exact IH.
Qed.

Lemma tidy_restart st :
  tidy st -> fst (initialize_session_state X (new_session st)) = Ok tt.
Proof.
  intros [_ [Hf | (ms & Hf & _)]].
  - rewrite initialize_without_file by (try reflexivity; exact Hf). reflexivity.
  - rewrite (initialize_from_written_file X _ ms) by (try reflexivity; exact Hf).
    reflexivity.
Qed.

Lemma tidy_initialize_open st :
  tidy st -> history (after (initialize_session_state X) st) <> None.
Proof.
  intros [Hh Hf]. unfold after.
  destruct Hh as [Hnone | (items & ms & Hh & _)].
  - destruct Hf as [Hf | (ms & Hf & _)].
    + rewrite initialize_without_file by assumption. discriminate.
    + rewrite (initialize_from_written_file X st ms) by assumption. discriminate.
  - rewrite (initialize_with_history X st _ Hh). cbn [snd]. rewrite Hh.
    discriminate.
Qed.

Lemma step_open st e : tidy st -> history (step X st e) <> None.
Proof.
  intros H. destruct e as [q | |]; unfold step.
  - unfold after at 1. rewrite script_run_rerun.
    apply tidy_initialize_open, tidy_on_click_callback, H.
  - rewrite script_run_new_chat. unfold after. rewrite new_chat_run.
    discriminate.
  - unfold after. rewrite script_run_rerun.
    apply tidy_initialize_open, tidy_new_session, H.
Qed.

(** X18.  An application that started on a machine without a history
    file, after any events: a new session loads what it left without an
    error, the display loop does not raise, and a submission raises only
    what the retriever or the model raised. *)
Theorem running_application_is_safe (es : list event) (e : event) :
  let st := run_events X (es ++ [e]) in
  fst (initialize_session_state X (new_session st)) = Ok tt /\
  snd (display_history X st) = Ok tt /\
  forall q err, fst (on_click_callback X q st) = Raise err ->
    (exists input, retriever X input = Raise err) \/
    (exists p, llm X p = Raise err).
Proof.
  intros st.
  assert (Hprev : tidy (run_events X es)) by apply tidy_fold, tidy_fresh.
  assert (Est : st = step X (run_events X es) e).
  { unfold st, run_events. rewrite fold_left_app. reflexivity. }
  assert (Ht : tidy st) by (rewrite Est; apply tidy_step, Hprev).
  assert (Hopen : history st <> None) by (rewrite Est; apply step_open, Hprev).
  split; [apply tidy_restart, Ht|].
  destruct Ht as [[Hnone | (items & ms & Hh & Hms & _)] _]; [contradiction|].
  split.
  - unfold display_history. rewrite Hh, (holds_map st items ms Hms).
    apply display_chat_strings.
  - intros q err. rewrite (on_click_callback_strings X q st items ms Hh Hms).
    unfold turn. destruct (classify (lower_other X) q).
    + destruct (retriever X (chain_input ms q)) as [docs|e'] eqn:Hr.
      * destruct (llm X (grounded_messages docs (chain_input ms q)))
          as [a|e'] eqn:Hl; cbn [fst]; [discriminate|].
        intros [= <-]. right. eauto.
      * cbn [fst]. intros [= <-]. left. eauto.
    + destruct (llm X (general_messages (chain_input ms q)))
        as [a|e'] eqn:Hl; cbn [fst]; [discriminate|].
      intros [= <-]. right. eauto.
Qed.

End Running.

(* ===================================================================== *)
(** * Dictionary payloads across sessions                                 *)
(* ===================================================================== *)

Section Written.

Variable X : externals.

Lemma coerce_value_message o p :
  is_dict p = true \/ (exists s, p = VStr s) ->
  coerce_value X (message (VStr o) p) = message_of (written X (o, p)).
Proof.
  intros [Hd | [s ->]]; [|reflexivity].
  destruct p; try discriminate. reflexivity.
Qed.

Lemma holds_written cs items (ops : list (str * value)) :
  Forall2 (fun i op => cs !! i = Some (message (VStr (fst op)) (snd op)))
          items ops ->
  Forall (fun op => is_dict (snd op) = true \/ exists s, snd op = VStr s) ops ->
  holds (coerce_cells X items cs) items (map (written X) ops).
Proof.
  intros Hops Hkind.
  assert (Hall : Forall2 (fun i op =>
                   i ∈ items /\
                   cs !! i = Some (message (VStr (fst op)) (snd op)) /\
                   (is_dict (snd op) = true \/ exists s, snd op = VStr s))
                 items ops).
  { induction Hops as [|i op items ops Hi Hrest IH].
    - constructor.
    - apply Forall_cons in Hkind as [Hk Hkind]. constructor.
      + split; [left | split; assumption].
      + eapply Forall2_impl; [apply IH, Hkind|].
        intros j op' (Hj & H1 & H2). split; [right; exact Hj | split; assumption]. }
  clear Hops Hkind. unfold holds.
  generalize dependent Hall. generalize items at 1 3 as all.
  intros all Hall.
  induction Hall as [|i [o p] items' ops (Hi & Hv & Hk) _ IH]; [constructor|].
  cbn [map]. constructor; [|exact IH].
  rewrite coerce_cells_lookup. destruct (decide (i ∈ all)); [|contradiction].
  rewrite Hv. cbn [fmap option_fmap option_map fst snd].
  rewrite coerce_value_message by exact Hk. reflexivity.
Qed.

(** X19.  A dictionary payload does not come back as a dictionary:
    [save_chat_history] on messages whose payloads are strings or
    dictionaries returns, the file holds the messages with every
    dictionary replaced by the text [str()] gives for it, and a new
    session loads those texts. *)
Theorem dict_payload_comes_back_as_text (st : state) (items : list nat)
  (ops : list (str * value)) :
  Forall2 (fun i op => cells st !! i = Some (message (VStr (fst op)) (snd op)))
          items ops ->
  Forall (fun op => is_dict (snd op) = true \/ exists s, snd op = VStr s) ops ->
  let st1 := after (save_chat_history X items) st in
  fst (save_chat_history X items st) = Ok tt /\
  file st1 = Some (history_text (map (written X) ops)) /\
  holds (cells st1) items (map (written X) ops) /\
  fst (load_chat_history X (new_session st1))
  = Ok (VList (map message_of (map reread_message (map (written X) ops)))).
Proof.
  intros Hops Hkind st1.
  pose proof (holds_written (cells st) items ops Hops Hkind) as Hms.
  assert (Hall : forall i, i ∈ items -> has_payload (cells st) i).
  { clear Hkind Hms. induction Hops as [|i op items ops Hi _ IH]; intros j Hj.
    - inversion Hj.
    - apply elem_of_cons in Hj as [->|Hj]; [|apply IH, Hj].
      eexists _, _. split; [exact Hi | reflexivity]. }
  assert (E : save_chat_history X items st
              = (Ok tt, mkState (coerce_cells X items (cells st)) (history st)
                          (Some (history_text (map (written X) ops)))
                          (calls st))).
  { rewrite (save_chat_history_run X items st Hall). cbn zeta. cbn [cells].
    rewrite (holds_map (mkState (coerce_cells X items (cells st)) (history st)
                                (file st) (calls st)) items _ Hms).
    rewrite encode_history. reflexivity. }
  unfold st1, after. rewrite E. cbn [fst snd file cells].
  split; [reflexivity|]. split; [reflexivity|]. split; [exact Hms|].
  unfold load_chat_history, new_session. cbn [file fst].
  rewrite json_loads_history by apply nesting_room. reflexivity.
Qed.

End Written.

Lemma dict_payload_comes_back_as_text_witness :
  let note := VDict [(lit "topic", VStr (lit "budget"))] in
  let st := mkState [message (VStr human) (VStr (lit "hello"));
                     message (VStr ai) note]
                    (Some (HList [0; 1]%nat)) None [] in
  let st1 := after (save_chat_history demo [0; 1]%nat) st in
  fst (save_chat_history demo [0; 1]%nat st) = Ok tt /\
  file st1 = Some (history_text [(human, lit "hello"); (ai, lit "<object>")]) /\
  holds (cells st1) [0; 1]%nat [(human, lit "hello"); (ai, lit "<object>")] /\
  fst (load_chat_history demo (new_session st1))
  = Ok (VList (map message_of
                 (map reread_message
                    [(human, lit "hello"); (ai, lit "<object>")]))).
Proof.
  intros note st.
  refine (dict_payload_comes_back_as_text demo st [0; 1]%nat
            [(human, VStr (lit "hello")); (ai, note)] _ _).
  - repeat constructor.
  - constructor; [right; eexists; reflexivity|].
    constructor; [left; reflexivity | constructor].
Defined.
